(** * Running language models and chains over datasets

    A shallow embedding of [langchain/client/runner_utils.py] and the
    properties of its batch runner: the input adapters [_get_prompts] and
    [_get_messages], the model invokers [run_llm] and [_arun_llm], the
    repetition loops [run_llm_or_chain] and [_arun_llm_or_chain], the
    sequential runner [run_on_examples] and the concurrent runner
    [arun_on_examples] with its admission gate [_gather_with_concurrency]. *)

From stdpp Require Import base gmap list strings pretty.

Set Warnings "-register-all".
Open Scope string_scope.
Open Scope list_scope.

(** ** Python values *)

(** The values an input record, a model output or a message can hold.
    [VObj] is an instance of a class outside this module (an [LLMResult],
    a message, ...) with its attributes. *)
Inductive value :=
| VNone
| VBool (b : bool)
| VInt (z : Z)
| VStr (s : string)
| VList (l : list value)
| VDict (d : gmap string value)
| VObj (cls : string) (attrs : gmap string value).

(** [Dict[str, Any]]: the input record of an example. *)
Abbreviation record := (gmap string value).

Definition isinstance_str (v : value) : bool :=
  match v with VStr _ => true | _ => false end.
Definition isinstance_list (v : value) : bool :=
  match v with VList _ => true | _ => false end.
Definition isinstance_dict (v : value) : bool :=
  match v with VDict _ => true | _ => false end.

(** The typed views of a value once [isinstance] has succeeded. *)
Definition str_of (v : value) : string :=
  match v with VStr s => s | _ => "" end.
Definition list_items (v : value) : list value :=
  match v with VList l => l | _ => [] end.

(** [type(v).__name__] *)
Definition type_name (v : value) : string :=
  match v with
  | VNone => "NoneType"
  | VBool _ => "bool"
  | VInt _ => "int"
  | VStr _ => "str"
  | VList _ => "list"
  | VDict _ => "dict"
  | VObj cls _ => cls
  end.

(** [all(isinstance(i, T) for i in l)] *)
Definition all_isinstance (is_T : value → bool) (l : list value) : bool :=
  forallb is_T l.

(** ** Exceptions *)

(** The instances of [Exception] the module raises or meets.  Signals
    that derive from [BaseException] only (interrupts, cancellation) are
    no values of this type: no [except] clause of the module catches
    them, and the module offers no cancellation. *)
Inductive exn_class :=
| InputFormatError
| ValueError
| StopIteration
| OtherException (name : string).

Global Instance exn_class_eq_dec : EqDecision exn_class.
Proof. solve_decision. Defined.

(** An exception: its class and [str(e)]. *)
Record exn := Exn { exn_cls : exn_class; exn_str : string }.

Inductive outcome (A : Type) :=
| Ret (a : A)
| Raise (e : exn).
Global Arguments Ret {A} a.
Global Arguments Raise {A} e.

Global Instance outcome_ret : MRet outcome := λ A a, Ret a.
Global Instance outcome_bind : MBind outcome := λ A B k c,
  match c with Ret a => k a | Raise e => Raise e end.

(** ** What [langchain.schema] and the Python runtime provide *)

(** Modelled from the spec: [messages_from_dict], [get_buffer_string]
    and [HumanMessage] live in [langchain/schema.py], which is no part of
    the sources at hand.  The spec says that each message-dict is
    deserialized into a typed message, that a message sequence is
    flattened into a single buffer string, and that a prompt is wrapped
    as a single user-role message; the element-wise deserializer, the
    flattening and the wrapper are left open here.  [repr_inputs] is the
    text that an f-string prints for the input record. *)
Class Schema := {
  message_from_dict : value → outcome value;
  get_buffer_string : list value → outcome string;
  HumanMessage : string → value;
  repr_inputs : record → string;
}.

(** ** Input adapters *)

Section adapters.
Context {schema : Schema}.

(** [messages_from_dict(batch)]: every message-dict of the batch, in
    order; the first failure is the failure of the batch. *)
Definition messages_from_dict (batch : list value) : outcome (list value) :=
  mapM message_from_dict batch.

(** [_get_prompts] (source lines 50-95). *)
Definition _get_prompts (inputs : record) : outcome (list string) :=
  if bool_decide (size inputs = 0) then
    Raise (Exn InputFormatError "Inputs should not be empty.")
  else
    match inputs !! "prompt" with
    | Some prompt =>
        if negb (isinstance_str prompt) then
          Raise (Exn InputFormatError
                   ("Expected string for 'prompt', got " +:+ type_name prompt))
        else Ret [str_of prompt]
    | None =>
        match inputs !! "prompts" with
        | Some prompts =>
            if negb (isinstance_list prompts)
               || negb (all_isinstance isinstance_str (list_items prompts))
            then
              Raise (Exn InputFormatError
                       ("Expected list of strings for 'prompts', got "
                          +:+ type_name prompts))
            else Ret (str_of <$> list_items prompts)
        | None =>
            if bool_decide (size inputs = 1) then
              match head (map_to_list inputs).*2 with
              | Some prompt_ =>
                  if isinstance_str prompt_ then Ret [str_of prompt_]
                  else if isinstance_list prompt_
                          && all_isinstance isinstance_str (list_items prompt_)
                  then Ret (str_of <$> list_items prompt_)
                  else
                    Raise (Exn InputFormatError
                             ("LLM Run expects string prompt input. Got "
                                +:+ repr_inputs inputs))
              | None => Raise (Exn StopIteration "")
              end
            else
              Raise (Exn InputFormatError
                       ("LLM Run expects 'prompt' or 'prompts' in inputs. Got "
                          +:+ repr_inputs inputs))
        end
    end.

(** The first half of [_get_messages] (source lines 110-131): the
    batches of raw message-dicts that line 132 deserializes. *)
Definition raw_messages (inputs : record) : outcome (list (list value)) :=
  if bool_decide (size inputs = 0) then
    Raise (Exn InputFormatError "Inputs should not be empty.")
  else
    single_input ←
      match inputs !! "messages" with
      | Some v => Ret v
      | None =>
          if bool_decide (size inputs = 1) then
            match head (map_to_list inputs).*2 with
            | Some v => Ret v
            | None => Raise (Exn StopIteration "")
            end
          else
            Raise (Exn InputFormatError
                     ("Chat Run expects 'messages' in inputs. Got "
                        +:+ repr_inputs inputs))
      end;
    if isinstance_list single_input
       && all_isinstance isinstance_dict (list_items single_input)
    then Ret [list_items single_input]
    else if isinstance_list single_input
            && all_isinstance isinstance_list (list_items single_input)
    then Ret (list_items <$> list_items single_input)
    else
      Raise (Exn InputFormatError
               ("Chat Run expects List[dict] or List[List[dict]] 'messages' input. Got "
                  +:+ repr_inputs inputs)).

(** [_get_messages] (source lines 98-132). *)
Definition _get_messages (inputs : record) : outcome (list (list value)) :=
  raw ← raw_messages inputs;
  mapM messages_from_dict raw.

End adapters.

(** ** Callback handlers, examples and the state of a run *)

(** Modelled from the spec: [Example] comes from [langchainplus_sdk]; an
    item has an identifier with a canonical string form and an input
    record.  [World] is everything outside this module that a model, a
    chain or a service may read and change. *)
Class Platform := {
  UUID : Type;
  uuid_str : UUID → string;
  Client : Type;
  RunEvaluator : Type;
  World : Type;
}.

Section runner.
Context {schema : Schema} {platform : Platform}.

Record Example := { ex_id : UUID; ex_inputs : record }.

(** A callback handler is a shared object; the runner touches its
    [example_id] attribute only.  [None] is a handler without the
    attribute, [Some None] one whose [example_id] is [None]. *)
Record handler := Handler { attr_example_id : option (option UUID) }.

Record state := State { handlers : gmap nat handler; world : World }.

(** A computation that may change the state and then returns or raises. *)
Definition M (A : Type) : Type := state → outcome A * state.

#[global] Instance M_ret : MRet M := λ A a σ, (Ret a, σ).
#[global] Instance M_bind : MBind M := λ A B k c σ,
  match c σ with
  | (Ret a, σ') => k a σ'
  | (Raise e, σ') => (Raise e, σ')
  end.

Definition raise {A} (e : exn) : M A := λ σ, (Raise e, σ).
Definition lift {A} (o : outcome A) : M A := λ σ, (o, σ).

(** [try: body except C as e: handler] where [catches e] says whether
    [e] is an instance of [C]. *)
Definition try_except {A} (body : M A) (catches : exn → bool)
    (handler : exn → M A) : M A := λ σ,
  match body σ with
  | (Raise e, σ') => if catches e then handler e σ' else (Raise e, σ')
  | r => r
  end.

Definition except_InputFormatError (e : exn) : bool :=
  bool_decide (exn_cls e = InputFormatError).
Definition except_Exception (e : exn) : bool := true.

(** [for x in l: body x] *)
Fixpoint for_each {A} (l : list A) (body : A → M unit) : M unit :=
  match l with
  | [] => mret ()
  | x :: l' => _ ← body x; for_each l' body
  end.

(** [for _ in range(n): acc = body acc] *)
Fixpoint for_range {A} (n : nat) (body : A → M A) (acc : A) : M A :=
  match n with
  | 0 => mret acc
  | S k => acc' ← body acc; for_range k body acc'
  end.

(** The attribute [example_id] of the handler at [tracer], if it has one. *)
Definition example_id_of (σ : state) (tracer : nat) : option (option UUID) :=
  handlers σ !! tracer ≫= attr_example_id.

(** [hasattr(tracer, "example_id")] *)
Definition hasattr_example_id (tracer : nat) : M bool := λ σ,
  (Ret (bool_decide (is_Some (example_id_of σ tracer))), σ).

(** [getattr(tracer, "example_id", None)] *)
Definition getattr_example_id (tracer : nat) : M (option UUID) := λ σ,
  (Ret (default None (example_id_of σ tracer)), σ).

(** [tracer.example_id = v] *)
Definition setattr_example_id (tracer : nat) (v : option UUID) : M unit := λ σ,
  (Ret (),
   State (alter (λ _, Handler (Some v)) tracer (handlers σ)) (world σ)).

(** ** Tasks *)

Record py_class := { cls_module : string; cls_name : string }.

(** [f"{type(x)}"] *)
Definition type_repr (c : py_class) : string :=
  "<class '" +:+ cls_module c +:+ "." +:+ cls_name c +:+ "'>".

(** [BaseLLM]: text completion over a list of prompts. *)
Record BaseLLM := {
  llm_class : py_class;
  llm_generate : list string → option (list nat) → option (list string) → M value;
  llm_agenerate : list string → option (list nat) → option (list string) → M value;
}.

(** [BaseChatModel]: chat completion over a list of message sequences. *)
Record BaseChatModel := {
  chat_class : py_class;
  chat_generate :
    list (list value) → option (list nat) → option (list string) → M value;
  chat_agenerate :
    list (list value) → option (list nat) → option (list string) → M value;
}.

(** The instances of [BaseLanguageModel]. *)
Inductive BaseLanguageModel :=
| IsBaseLLM (llm : BaseLLM)
| IsBaseChatModel (llm : BaseChatModel)
| OtherLanguageModel (cls : py_class).

Record Chain := {
  chain_class : py_class;
  chain_call : record → option (list nat) → option (list string) → M value;
  chain_acall : record → option (list nat) → option (list string) → M value;
}.

(** [MODEL_OR_CHAIN_FACTORY = Union[Callable[[], Chain], BaseLanguageModel]] *)
Inductive MODEL_OR_CHAIN_FACTORY :=
| LanguageModel (llm : BaseLanguageModel)
| ChainFactory (factory : M Chain).

(** ** Model invokers *)

(** [run_llm] (source lines 406-428). *)
Definition run_llm (llm : BaseLanguageModel) (inputs : record)
    (callbacks : option (list nat)) (tags : option (list string)) : M value :=
  match llm with
  | IsBaseLLM llm =>
      try_except
        (llm_prompts ← lift (_get_prompts inputs);
         llm_generate llm llm_prompts callbacks tags)
        except_InputFormatError
        (λ _,
          llm_messages ← lift (_get_messages inputs);
          buffer_strings ← lift (mapM get_buffer_string llm_messages);
          llm_generate llm buffer_strings callbacks None)
  | IsBaseChatModel llm =>
      try_except
        (messages ← lift (_get_messages inputs);
         chat_generate llm messages callbacks tags)
        except_InputFormatError
        (λ _,
          prompts ← lift (_get_prompts inputs);
          let converted_messages := (λ prompt, [HumanMessage prompt]) <$> prompts in
          chat_generate llm converted_messages callbacks tags)
  | OtherLanguageModel cls =>
      raise (Exn ValueError ("Unsupported LLM type " +:+ type_repr cls))
  end.

(** [_arun_llm] (source lines 157-183). *)
Definition _arun_llm (llm : BaseLanguageModel) (inputs : record)
    (tags : option (list string)) (callbacks : option (list nat)) : M value :=
  match llm with
  | IsBaseLLM llm =>
      try_except
        (llm_prompts ← lift (_get_prompts inputs);
         llm_agenerate llm llm_prompts callbacks tags)
        except_InputFormatError
        (λ _,
          llm_messages ← lift (_get_messages inputs);
          buffer_strings ← lift (mapM get_buffer_string llm_messages);
          llm_agenerate llm buffer_strings callbacks tags)
  | IsBaseChatModel llm =>
      try_except
        (messages ← lift (_get_messages inputs);
         chat_agenerate llm messages callbacks tags)
        except_InputFormatError
        (λ _,
          prompts ← lift (_get_prompts inputs);
          let converted_messages := (λ prompt, [HumanMessage prompt]) <$> prompts in
          chat_agenerate llm converted_messages callbacks tags)
  | OtherLanguageModel cls =>
      raise (Exn ValueError ("Unsupported LLM type " +:+ type_repr cls))
  end.

(** ** The repetition loop *)

(** The sentinel [{"Error": str(e)}] that stands for a failed attempt. *)
Definition ErrorRecord (msg : string) : value :=
  VDict {[ "Error" := VStr msg ]}.

(** [if callbacks:] holds for a list that is neither [None] nor empty. *)
Definition truthy {A} (l : option (list A)) : bool :=
  match l with Some (_ :: _) => true | _ => false end.

(** Source lines 452-460 (and 207-215): save the [example_id] of every
    handler, then bind the handlers that have the attribute to the
    example. *)
Definition bind_example_id (example : Example) (callbacks : option (list nat))
    : M (option (list (option UUID))) :=
  if truthy callbacks then
    previous_example_ids ← mapM getattr_example_id (default [] callbacks);
    _ ← for_each (default [] callbacks) (λ tracer,
          has ← hasattr_example_id tracer;
          if has : bool then setattr_example_id tracer (Some (ex_id example))
          else mret ());
    mret (Some previous_example_ids)
  else mret None.

(** Source lines 475-478 (and 235-238): put the saved values back. *)
Definition restore_example_id (callbacks : option (list nat))
    (previous_example_ids : option (list (option UUID))) : M unit :=
  if truthy callbacks && truthy previous_example_ids then
    for_each (zip (default [] previous_example_ids) (default [] callbacks))
      (λ '(example_id, tracer),
        has ← hasattr_example_id tracer;
        if has : bool then setattr_example_id tracer example_id
        else mret ())
  else mret ().

(** The body of the [try] of [run_llm_or_chain] up to the call (source
    lines 464-470). *)
Definition invoke (example : Example) (llm_or_chain_factory : MODEL_OR_CHAIN_FACTORY)
    (tags : option (list string)) (callbacks : option (list nat)) : M value :=
  match llm_or_chain_factory with
  | LanguageModel llm => run_llm llm (ex_inputs example) callbacks tags
  | ChainFactory factory =>
      chain ← factory;
      chain_call chain (ex_inputs example) callbacks tags
  end.

(** The body of the [try] of [_arun_llm_or_chain] up to the call (source
    lines 219-230). *)
Definition ainvoke (example : Example) (llm_or_chain_factory : MODEL_OR_CHAIN_FACTORY)
    (tags : option (list string)) (callbacks : option (list nat)) : M value :=
  match llm_or_chain_factory with
  | LanguageModel llm => _arun_llm llm (ex_inputs example) tags callbacks
  | ChainFactory factory =>
      chain ← factory;
      chain_acall chain (ex_inputs example) callbacks tags
  end.

(** One turn of [for _ in range(n_repetitions)] (source lines 463-474 and
    218-234): the output is appended; any [Exception] is logged and its
    [ErrorRecord] is appended instead. *)
Definition attempt (call : M value) (outputs : list value) : M (list value) :=
  try_except
    (output ← call; mret (outputs ++ [output]))
    except_Exception
    (λ e, mret (outputs ++ [ErrorRecord (exn_str e)])).

(** [run_llm_or_chain] (source lines 452-479); [range(n)] is empty for a
    negative [n]. *)
Definition run_llm_or_chain (example : Example)
    (llm_or_chain_factory : MODEL_OR_CHAIN_FACTORY) (n_repetitions : Z)
    (tags : option (list string)) (callbacks : option (list nat))
    : M (list value) :=
  previous_example_ids ← bind_example_id example callbacks;
  outputs ← for_range (Z.to_nat n_repetitions)
              (attempt (invoke example llm_or_chain_factory tags callbacks)) [];
  _ ← restore_example_id callbacks previous_example_ids;
  mret outputs.

(** [_arun_llm_or_chain] (source lines 207-239), run without any other
    coroutine in between. *)
Definition _arun_llm_or_chain (example : Example)
    (llm_or_chain_factory : MODEL_OR_CHAIN_FACTORY) (n_repetitions : Z)
    (tags : option (list string)) (callbacks : option (list nat))
    : M (list value) :=
  previous_example_ids ← bind_example_id example callbacks;
  outputs ← for_range (Z.to_nat n_repetitions)
              (attempt (ainvoke example llm_or_chain_factory tags callbacks)) [];
  _ ← restore_example_id callbacks previous_example_ids;
  mret outputs.

(** ** Services around a batch run *)

(** The collaborators a batch run calls: the clock, the trace-storage
    client and the constructors and drains of the callback handlers.
    Each may change the state and may raise. *)
Class Services := {
  strftime_now : M string;
  new_LangChainPlusClient : M Client;
  create_session : Client → string → M unit;
  new_LangChainTracer : string → M nat;
  new_EvaluatorCallbackHandler : list RunEvaluator → Client → M nat;
  wait_for_futures : nat → M unit;
}.

Context {services : Services}.

Definition class_of (llm : BaseLanguageModel) : py_class :=
  match llm with
  | IsBaseLLM llm => llm_class llm
  | IsBaseChatModel llm => chat_class llm
  | OtherLanguageModel cls => cls
  end.

(** [_get_session_name] (source lines 556-564). *)
Definition _get_session_name (session_name : option string)
    (llm_or_chain_factory : MODEL_OR_CHAIN_FACTORY) (dataset_name : option string)
    : M string :=
  match session_name with
  | Some session_name => mret session_name
  | None =>
      current_time ← strftime_now;
      model_name ←
        match llm_or_chain_factory with
        | LanguageModel llm => mret (cls_name (class_of llm))
        | ChainFactory factory => chain ← factory; mret (cls_name (chain_class chain))
        end;
      let dataset_prefix :=
        match dataset_name with
        | Some (String _ _ as dataset_name) => dataset_name +:+ "-"
        | _ => ""
        end in
      mret (dataset_prefix +:+ model_name +:+ "-" +:+ current_time)
  end.

(** [client or LangChainPlusClient()] *)
Definition client_or_new (client : option Client) : M Client :=
  match client with
  | Some client => mret client
  | None => new_LangChainPlusClient
  end.

(** ** The sequential runner *)

(** [for i, example in enumerate(examples)] of [run_on_examples] (source
    lines 524-534), from the results gathered so far. *)
Fixpoint run_examples (examples : list Example)
    (llm_or_chain_factory : MODEL_OR_CHAIN_FACTORY) (num_repetitions : Z)
    (tags : option (list string)) (callbacks : option (list nat))
    (results : gmap string (list value)) : M (gmap string (list value)) :=
  match examples with
  | [] => mret results
  | example :: examples =>
      result ← run_llm_or_chain example llm_or_chain_factory num_repetitions
                 tags callbacks;
      run_examples examples llm_or_chain_factory num_repetitions tags callbacks
        (<[uuid_str (ex_id example) := result]> results)
  end.

(** [run_on_examples] (source lines 515-537). *)
Definition run_on_examples (examples : list Example)
    (llm_or_chain_factory : MODEL_OR_CHAIN_FACTORY) (num_repetitions : Z)
    (session_name : option string) (client : option Client)
    (tags : option (list string)) (run_evaluators : option (list RunEvaluator))
    : M (gmap string (list value)) :=
  session_name ← _get_session_name session_name llm_or_chain_factory None;
  client_ ← client_or_new client;
  _ ← create_session client_ session_name;
  tracer ← new_LangChainTracer session_name;
  evalution_handler ←
    new_EvaluatorCallbackHandler (default [] run_evaluators) client_;
  let callbacks := [tracer; evalution_handler] in
  results ← run_examples examples llm_or_chain_factory num_repetitions tags
              (Some callbacks) ∅;
  _ ← wait_for_futures tracer;
  _ ← wait_for_futures evalution_handler;
  mret results.

(** ** The concurrent runner *)

(** [_tracer_initializer] (source lines 301-305). *)
Definition _tracer_initializer (session_name : option string) : M (option nat) :=
  match session_name with
  | Some (String _ _ as session_name) =>
      tracer ← new_LangChainTracer session_name; mret (Some tracer)
  | _ => mret None
  end.

(** [callbacks = [cb for cb in [tracer, evaluation_handler] if cb]]
    (source lines 356-358). *)
Definition process_callbacks (tracer : option nat) (evaluation_handler : nat)
    : option (list nat) :=
  Some (omap id [tracer; Some evaluation_handler]).

(** Where one [run_coroutine_with_semaphore(process_example(example))]
    stands (source lines 265-276 and 352-367). *)
Inductive coroutine :=
| Pending
    (* created, not yet through [async with semaphore] *)
| Entered
    (* holds the semaphore, at [await tracer_queue.get()] *)
| Running (tracer : option nat) (previous_example_ids : option (list (option UUID)))
    (outputs : list value) (todo : nat)
    (* holds a tracer; inside [_arun_llm_or_chain] with [todo] attempts left *)
| Finished
    (* result stored, tracer put back, semaphore released *)
| Failed (e : exn).
    (* raised; tracer put back by [finally], semaphore released *)

(** The state shared by the coroutines of one [_gather_with_concurrency]. *)
Record gather := Gather {
  semaphore : nat;
  tracer_queue : list (option nat);
  num_processed : nat;
  coroutines : list (Example * coroutine);
  results : gmap string (list value);
  global : state;
}.

Section steps.
Variable llm_or_chain_factory : MODEL_OR_CHAIN_FACTORY.
Variable num_repetitions : Z.
Variable tags : option (list string).
Variable evaluation_handler : nat.

(** One coroutine runs from one suspension point to the next; which one
    runs is up to the event loop. *)
Inductive step : gather → gather → Prop :=
| step_acquire g i example :
    coroutines g !! i = Some (example, Pending) →
    0 < semaphore g →
    step g
      (Gather (pred (semaphore g)) (tracer_queue g) (num_processed g)
         (<[i := (example, Entered)]> (coroutines g)) (results g) (global g))
| step_get g i example tracer queue previous σ' :
    coroutines g !! i = Some (example, Entered) →
    tracer_queue g = tracer :: queue →
    bind_example_id example (process_callbacks tracer evaluation_handler) (global g)
      = (Ret previous, σ') →
    step g
      (Gather (semaphore g) queue (num_processed g)
         (<[i := (example, Running tracer previous [] (Z.to_nat num_repetitions))]>
            (coroutines g))
         (results g) σ')
| step_attempt g i example tracer previous outputs todo outputs' σ' :
    coroutines g !! i = Some (example, Running tracer previous outputs (S todo)) →
    attempt
      (ainvoke example llm_or_chain_factory tags
         (process_callbacks tracer evaluation_handler))
      outputs (global g) = (Ret outputs', σ') →
    step g
      (Gather (semaphore g) (tracer_queue g) (num_processed g)
         (<[i := (example, Running tracer previous outputs' todo)]> (coroutines g))
         (results g) σ')
| step_return g i example tracer previous outputs σ' :
    coroutines g !! i = Some (example, Running tracer previous outputs 0) →
    restore_example_id (process_callbacks tracer evaluation_handler) previous
      (global g) = (Ret (), σ') →
    step g
      (Gather (S (semaphore g)) (tracer_queue g ++ [tracer]) (S (num_processed g))
         (<[i := (example, Finished)]> (coroutines g))
         (<[uuid_str (ex_id example) := outputs]> (results g)) σ')
| step_get_raise g i example tracer queue e σ' :
    coroutines g !! i = Some (example, Entered) →
    tracer_queue g = tracer :: queue →
    bind_example_id example (process_callbacks tracer evaluation_handler) (global g)
      = (Raise e, σ') →
    step g
      (Gather (S (semaphore g)) (queue ++ [tracer]) (num_processed g)
         (<[i := (example, Failed e)]> (coroutines g)) (results g) σ')
| step_attempt_raise g i example tracer previous outputs todo e σ' :
    coroutines g !! i = Some (example, Running tracer previous outputs (S todo)) →
    attempt
      (ainvoke example llm_or_chain_factory tags
         (process_callbacks tracer evaluation_handler))
      outputs (global g) = (Raise e, σ') →
    step g
      (Gather (S (semaphore g)) (tracer_queue g ++ [tracer]) (num_processed g)
         (<[i := (example, Failed e)]> (coroutines g)) (results g) σ')
| step_return_raise g i example tracer previous outputs e σ' :
    coroutines g !! i = Some (example, Running tracer previous outputs 0) →
    restore_example_id (process_callbacks tracer evaluation_handler) previous
      (global g) = (Raise e, σ') →
    step g
      (Gather (S (semaphore g)) (tracer_queue g ++ [tracer]) (num_processed g)
         (<[i := (example, Failed e)]> (coroutines g)) (results g) σ').

End steps.

(** [_gather_with_concurrency] before the coroutines start (source lines
    258-263): the semaphore and [n] tracers in the queue. *)
Definition gather_setup (n : Z) (initializer : M (option nat))
    : M (list (option nat)) :=
  if bool_decide (n < 0)%Z then
    raise (Exn ValueError "Semaphore initial value must be >= 0")
  else
    for_range (Z.to_nat n)
      (λ queue, tracer ← initializer; mret (queue ++ [tracer])) [].

Definition gather_start (n : Z) (queue : list (option nat))
    (examples : list Example) (σ : state) : gather :=
  Gather (Z.to_nat n) queue 0 ((λ example, (example, Pending)) <$> examples) ∅ σ.

(** [_gather_with_concurrency] after [asyncio.gather] (source lines
    281-287): every tracer left in the queue is drained. *)
Fixpoint gather_drain (queue : list (option nat)) : M unit :=
  match queue with
  | [] => mret ()
  | tracer :: queue =>
      _ ← match tracer with
          | Some tracer => wait_for_futures tracer
          | None => mret ()
          end;
      gather_drain queue
  end.

(** [arun_on_examples] up to the start of the coroutines (source lines
    343-350 and 258-263): the evaluation handler and the tracer queue. *)
Definition arun_setup (llm_or_chain_factory : MODEL_OR_CHAIN_FACTORY)
    (concurrency_level : Z) (session_name : option string)
    (client : option Client) (run_evaluators : option (list RunEvaluator))
    : M (nat * list (option nat)) :=
  session_name ← _get_session_name session_name llm_or_chain_factory None;
  client_ ← client_or_new client;
  _ ← create_session client_ session_name;
  evaluation_handler ←
    new_EvaluatorCallbackHandler (default [] run_evaluators) client_;
  queue ← gather_setup concurrency_level (_tracer_initializer (Some session_name));
  mret (evaluation_handler, queue).

Definition is_finished (c : Example * coroutine) : bool :=
  match c.2 with Finished => true | _ => false end.
Definition is_running (c : Example * coroutine) : bool :=
  match c.2 with Running _ _ _ _ => true | _ => false end.
Definition is_entered (c : Example * coroutine) : bool :=
  match c.2 with Entered => true | _ => false end.

(** The number of task invocations in flight. *)
Definition in_flight (g : gather) : nat :=
  length (filter (λ c, is_running c = true) (coroutines g)).

(** [arun_on_examples] (source lines 343-381) returns [res] from [σ]
    under some schedule of the event loop. *)
Definition arun_on_examples (examples : list Example)
    (llm_or_chain_factory : MODEL_OR_CHAIN_FACTORY) (concurrency_level : Z)
    (num_repetitions : Z) (session_name : option string)
    (client : option Client) (tags : option (list string))
    (run_evaluators : option (list RunEvaluator))
    (σ : state) (res : gmap string (list value)) (σ' : state) : Prop :=
  ∃ evaluation_handler queue σ0 g σ1,
    arun_setup llm_or_chain_factory concurrency_level session_name client
      run_evaluators σ = (Ret (evaluation_handler, queue), σ0) ∧
    rtc (step llm_or_chain_factory num_repetitions tags evaluation_handler)
      (gather_start concurrency_level queue examples σ0) g ∧
    forallb is_finished (coroutines g) = true ∧
    gather_drain (tracer_queue g) (global g) = (Ret (), σ1) ∧
    wait_for_futures evaluation_handler σ1 = (Ret (), σ') ∧
    res = results g.

End runner.

(** ** The adapter rules of the specification *)

(** A Python list all of whose items are strings. *)
Definition str_list (ss : list string) : value := VList (VStr <$> ss).

(** The rules for [toPrompts] as the specification words them; [None]
    stands for the failure with [InputFormatError]. *)
Inductive toPrompts : record → option (list string) → Prop :=
| toPrompts_empty :
    toPrompts ∅ None
| toPrompts_prompt inputs s :
    inputs !! "prompt" = Some (VStr s) →
    toPrompts inputs (Some [s])
| toPrompts_prompt_no_str inputs v :
    inputs !! "prompt" = Some v → (∀ s, v ≠ VStr s) →
    toPrompts inputs None
| toPrompts_prompts inputs ss :
    inputs !! "prompt" = None → inputs !! "prompts" = Some (str_list ss) →
    toPrompts inputs (Some ss)
| toPrompts_prompts_no_list inputs v :
    inputs !! "prompt" = None → inputs !! "prompts" = Some v →
    (∀ ss, v ≠ str_list ss) →
    toPrompts inputs None
| toPrompts_one_str k s :
    k ≠ "prompt" → k ≠ "prompts" →
    toPrompts {[ k := VStr s ]} (Some [s])
| toPrompts_one_list k ss :
    k ≠ "prompt" → k ≠ "prompts" →
    toPrompts {[ k := str_list ss ]} (Some ss)
| toPrompts_one_other k v :
    k ≠ "prompt" → k ≠ "prompts" →
    (∀ s, v ≠ VStr s) → (∀ ss, v ≠ str_list ss) →
    toPrompts {[ k := v ]} None
| toPrompts_other inputs :
    inputs !! "prompt" = None → inputs !! "prompts" = None →
    (2 ≤ size inputs)%nat →
    toPrompts inputs None.

(** An adapter result read as the specification reads it. *)
Inductive resolves {A} : outcome A → option A → Prop :=
| resolves_value a : resolves (Ret a) (Some a)
| resolves_format_error msg : resolves (Raise (Exn InputFormatError msg)) None.

(** The source value of [toMessages]: the ["messages"] field if present,
    else the sole value of a one-field record. *)
Inductive message_source : record → option value → Prop :=
| message_source_field inputs v :
    inputs !! "messages" = Some v →
    message_source inputs (Some v)
| message_source_sole k v :
    k ≠ "messages" →
    message_source {[ k := v ]} (Some v)
| message_source_none inputs :
    inputs !! "messages" = None → size inputs ≠ 1 →
    message_source inputs None.

(** The rules for [toMessages] as the specification words them: the
    batches of message-dicts to deserialize, or [None] for the failure
    with [InputFormatError].  The empty list counts as a list of
    message-dicts. *)
Inductive toMessages : record → option (list (list value)) → Prop :=
| toMessages_empty :
    toMessages ∅ None
| toMessages_no_source inputs :
    message_source inputs None →
    toMessages inputs None
| toMessages_dicts inputs ds :
    message_source inputs (Some (VList (VDict <$> ds))) →
    toMessages inputs (Some [VDict <$> ds])
| toMessages_lists inputs ls :
    message_source inputs (Some (VList (VList <$> ls))) → ls ≠ [] →
    toMessages inputs (Some ls)
| toMessages_other inputs v :
    message_source inputs (Some v) →
    (∀ ds, v ≠ VList (VDict <$> ds)) → (∀ ls, v ≠ VList (VList <$> ls)) →
    toMessages inputs None.

(** What [_get_messages] does for a verdict of the rules. *)
Definition messages_yield `{Schema} (inputs : record)
    (r : option (list (list value))) : Prop :=
  match r with
  | Some batches => _get_messages inputs = mapM messages_from_dict batches
  | None => ∃ msg, _get_messages inputs = Raise (Exn InputFormatError msg)
  end.

(** ** Notions used to state what the loops do *)

Section loop_notions.
Context {schema : Schema} {platform : Platform}.

(** The entry an attempt leaves in the output list. *)
Definition entry_of (r : outcome value) : value :=
  match r with
  | Ret output => output
  | Raise e => ErrorRecord (exn_str e)
  end.

(** The state in which attempt [i] (counted from 0) starts, when the
    first one starts in [σ]: every attempt starts where the one before
    it stopped, whether that one returned or raised. *)
Definition attempt_state (call : M value) (i : nat) (σ : state) : state :=
  Nat.iter i (λ σ, (call σ).2) σ.

(** [if hasattr(tracer, "example_id"): tracer.example_id = v] *)
Definition rebind (σ : state) (tracer : nat) (v : option UUID) : state :=
  if bool_decide (is_Some (example_id_of σ tracer)) then
    State (alter (λ _, Handler (Some v)) tracer (handlers σ)) (world σ)
  else σ.

(** A call gives no handler an [example_id] attribute and takes none
    away; it may change the values. *)
Definition keeps_attributes {A} (call : M A) : Prop :=
  ∀ σ tracer,
    is_Some (example_id_of (call σ).2 tracer) ↔ is_Some (example_id_of σ tracer).

(** The key of an example in the results. *)
Definition result_key (example : Example) : string := uuid_str (ex_id example).

(** Results with exactly one entry per example, under the key of the
    example, each entry a list of [num_repetitions] outputs. *)
Definition complete_results (examples : list Example) (num_repetitions : Z)
    (results : gmap string (list value)) : Prop :=
  dom results = list_to_set (result_key <$> examples)
  ∧ size results = length examples
  ∧ ∀ example, example ∈ examples →
      ∃ outputs,
        results !! result_key example = Some outputs
        ∧ length outputs = Z.to_nat num_repetitions.

End loop_notions.

(** ** Notions used to state what the gather does *)

Section gather_notions.
Context {schema : Schema} {platform : Platform}.

Definition is_failed (c : Example * coroutine) : bool :=
  match c.2 with Failed _ => true | _ => false end.

(** How many coroutines are where [p] says. *)
Definition count_where (p : Example * coroutine → bool)
    (cs : list (Example * coroutine)) : nat :=
  length (filter (λ c, p c = true) cs).

(** The keys of the examples whose coroutine has finished. *)
Definition finished_keys (cs : list (Example * coroutine)) : gset string :=
  list_to_set ((λ c, result_key c.1) <$> filter (λ c, is_finished c = true) cs).

(** The semaphore counts the free admissions, the queue holds the free
    tracers, no coroutine has failed, the coroutines are those of the
    examples, and the results hold one output list of full length for
    each finished example. *)
Record gather_inv (n : nat) (num_repetitions : Z) (examples : list Example)
    (g : gather) : Prop := {
  inv_semaphore :
    semaphore g + count_where is_entered (coroutines g)
      + count_where is_running (coroutines g) = n;
  inv_queue :
    length (tracer_queue g) + count_where is_running (coroutines g) = n;
  inv_failed : count_where is_failed (coroutines g) = 0;
  inv_examples : (coroutines g).*1 = examples;
  inv_results : dom (results g) = finished_keys (coroutines g);
  inv_lengths :
    ∀ k outputs, results g !! k = Some outputs →
      length outputs = Z.to_nat num_repetitions;
  inv_outputs :
    ∀ i example tracer previous outputs todo,
      coroutines g !! i = Some (example, Running tracer previous outputs todo) →
      length outputs + todo = Z.to_nat num_repetitions;
}.

(** The number of steps a coroutine has left at most. *)
Definition steps_left (num_repetitions : Z) (c : Example * coroutine) : nat :=
  match c.2 with
  | Pending => Z.to_nat num_repetitions + 3
  | Entered => Z.to_nat num_repetitions + 2
  | Running _ _ _ todo => todo + 1
  | Finished | Failed _ => 0
  end.

Definition gather_steps_left (num_repetitions : Z) (g : gather) : nat :=
  sum_list_with (steps_left num_repetitions) (coroutines g).

End gather_notions.

(** ** A small platform on which the model runs *)

(** A deserializer that accepts every dict, a transcript that joins the
    contents of the messages, and a fixed text for the record. *)

Definition content_of (attrs : gmap string value) : string :=
  match attrs !! "content" with Some (VStr s) => s | _ => "" end.

Definition message_content (message : value) : string :=
  match message with
  | VObj _ attrs =>
      match attrs !! "data" with
      | Some (VDict data) => content_of data
      | _ => content_of attrs
      end
  | _ => ""
  end.

Definition plain_schema : Schema := {|
  message_from_dict v :=
    match v with
    | VDict d => Ret (VObj "BaseMessage" d)
    | _ => Raise (Exn (OtherException "TypeError") "message is no dict")
    end;
  get_buffer_string messages := Ret (String.concat " " (message_content <$> messages));
  HumanMessage content := VObj "HumanMessage" {[ "content" := VStr content ]};
  repr_inputs _ := "{...}";
|}.

(** Identifiers are numbers printed in decimal; the world counts the
    calls made to the model. *)
Definition plain_platform : Platform := {|
  UUID := N;
  uuid_str := pretty;
  Client := unit;
  RunEvaluator := unit;
  World := nat;
|}.

Section plain.
#[local] Existing Instance plain_schema.
#[local] Existing Instance plain_platform.

(** A new handler, bound to nothing, at the next free place. *)
Definition new_handler : M nat := λ σ,
  (Ret (size (handlers σ)),
   State (<[size (handlers σ) := Handler (Some None)]> (handlers σ)) (world σ)).

Definition plain_services : Services := {|
  strftime_now := (mret "2023-06-01-12-00-00" : M string);
  new_LangChainPlusClient := (mret () : M unit);
  create_session _ _ := (mret () : M unit);
  new_LangChainTracer _ := new_handler;
  new_EvaluatorCallbackHandler _ _ := new_handler;
  wait_for_futures _ := (mret () : M unit);
|}.

Definition tags_value (tags : option (list string)) : value :=
  match tags with Some tags => str_list tags | None => VNone end.

(** A model that answers with what it was called with, and whose very
    first call fails. *)
Definition echo_generate (prompts : list string) (callbacks : option (list nat))
    (tags : option (list string)) : M value := λ σ,
  (match world σ with
   | 0 => Raise (Exn (OtherException "RuntimeError") "model not ready")
   | S _ =>
       Ret (VObj "LLMResult"
              {[ "prompts" := str_list prompts; "tags" := tags_value tags ]})
   end,
   State (handlers σ) (S (world σ))).

Definition echo_llm : BaseLLM := {|
  llm_class := {| cls_module := "langchain.llms.fake"; cls_name := "EchoLLM" |};
  llm_generate := echo_generate;
  llm_agenerate := echo_generate;
|}.

(** A language model that is neither a [BaseLLM] nor a [BaseChatModel]. *)
Definition odd_class : py_class :=
  {| cls_module := "retrieval"; cls_name := "Embedder" |}.

Definition example_1 : Example :=
  {| ex_id := 1%N; ex_inputs := {[ "prompt" := VStr "hi" ]} |}.
Definition example_2 : Example :=
  {| ex_id := 2%N; ex_inputs := {[ "question" := VStr "why" ]} |}.

(** A record that only the message adapter accepts. *)
Definition chat_record : record :=
  {[ "messages" :=
       VList [VDict {[ "type" := VStr "human";
                       "data" := VDict {[ "content" := VStr "hi" ]} ]}] ]}.

(** Two handlers, the first bound to example 7, the second without an
    [example_id]; the model has been called once. *)
Definition two_handlers : state :=
  State {[ 0 := Handler (Some (Some 7%N)); 1 := Handler None ]} 1.

Definition no_handlers : state := State ∅ 1.

(** The same two handlers before the first call of the model. *)
Definition two_handlers_cold : state :=
  State {[ 0 := Handler (Some (Some 7%N)); 1 := Handler None ]} 0.

(** No handler yet, and no call of the model. *)
Definition cold_start : state := State ∅ 0.

(** The handlers of a concurrent run at level 2: the evaluation handler
    at 0 and the two tracers of the queue, first unbound, then with the
    handlers of the first coroutine bound to example 1. *)
Definition three_handlers : state :=
  State {[ 0 := Handler (Some None); 1 := Handler (Some None);
           2 := Handler (Some None) ]} 0.

Definition three_handlers_bound : state :=
  State {[ 0 := Handler (Some (Some 1%N)); 1 := Handler (Some (Some 1%N));
           2 := Handler (Some None) ]} 0.

End plain.

(** ** Runs over a named dataset *)

(** Modelled from the spec: the dataset source of [langchainplus_sdk]
    reads a dataset by name and lists the items of a dataset by the
    string form of its identifier; each call may change the state and
    may raise. *)
Class DatasetSource `{Platform} := {
  Dataset : Type;
  dataset_id : Dataset → UUID;
  read_dataset : Client → string → M Dataset;
  list_examples : Client → string → M (list Example);
}.

Section datasets.
Context {schema : Schema} {platform : Platform} {services : Services}
  {source : DatasetSource}.

(** [run_on_dataset] (source lines 657-674); the returned dict with the
    keys ["session_name"] and ["results"] is the pair of its two values. *)
Definition run_on_dataset (dataset_name : string)
    (llm_or_chain_factory : MODEL_OR_CHAIN_FACTORY) (num_repetitions : Z)
    (session_name : option string) (client : option Client)
    (tags : option (list string)) (run_evaluators : option (list RunEvaluator))
    : M (string * gmap string (list value)) :=
  client_ ← client_or_new client;
  session_name ←
    _get_session_name session_name llm_or_chain_factory (Some dataset_name);
  dataset ← read_dataset client_ dataset_name;
  examples ← list_examples client_ (uuid_str (dataset_id dataset));
  results ← run_on_examples examples llm_or_chain_factory num_repetitions
              (Some session_name) (Some client_) tags run_evaluators;
  mret (session_name, results).

(** [arun_on_dataset] (source lines 602-620) returns the session name
    and the results [res] from [σ] under some schedule of the event
    loop. *)
Definition arun_on_dataset (dataset_name : string)
    (llm_or_chain_factory : MODEL_OR_CHAIN_FACTORY) (concurrency_level : Z)
    (num_repetitions : Z) (session_name : option string)
    (client : option Client) (tags : option (list string))
    (run_evaluators : option (list RunEvaluator))
    (σ : state) (res : string * gmap string (list value)) (σ' : state) : Prop :=
  ∃ client_ σ1 name σ2 dataset σ3 examples σ4,
    client_or_new client σ = (Ret client_, σ1) ∧
    _get_session_name session_name llm_or_chain_factory (Some dataset_name) σ1
      = (Ret name, σ2) ∧
    read_dataset client_ dataset_name σ2 = (Ret dataset, σ3) ∧
    list_examples client_ (uuid_str (dataset_id dataset)) σ3
      = (Ret examples, σ4) ∧
    arun_on_examples examples llm_or_chain_factory concurrency_level
      num_repetitions (Some name) (Some client_) tags run_evaluators σ4 res.2 σ' ∧
    res.1 = name.

End datasets.

(** ** The gather under a given schedule *)

Section schedules.
Context {schema : Schema} {platform : Platform}.
Variable llm_or_chain_factory : MODEL_OR_CHAIN_FACTORY.
Variable num_repetitions : Z.
Variable tags : option (list string).
Variable evaluation_handler : nat.

(** The event loop resumes coroutine [i]: the step of [step] that this
    coroutine can take, if it can take one. *)
Definition resume (i : nat) (g : gather) : option gather :=
  match coroutines g !! i with
  | Some (example, Pending) =>
      if bool_decide (0 < semaphore g)%nat then
        Some (Gather (pred (semaphore g)) (tracer_queue g) (num_processed g)
                (<[i := (example, Entered)]> (coroutines g)) (results g)
                (global g))
      else None
  | Some (example, Entered) =>
      match tracer_queue g with
      | tracer :: queue =>
          match bind_example_id example
                  (process_callbacks tracer evaluation_handler) (global g) with
          | (Ret previous, σ') =>
              Some (Gather (semaphore g) queue (num_processed g)
                      (<[i := (example,
                               Running tracer previous []
                                 (Z.to_nat num_repetitions))]> (coroutines g))
                      (results g) σ')
          | (Raise e, σ') =>
              Some (Gather (S (semaphore g)) (queue ++ [tracer])
                      (num_processed g)
                      (<[i := (example, Failed e)]> (coroutines g))
                      (results g) σ')
          end
      | [] => None
      end
  | Some (example, Running tracer previous outputs (S todo)) =>
      match attempt
              (ainvoke example llm_or_chain_factory tags
                 (process_callbacks tracer evaluation_handler))
              outputs (global g) with
      | (Ret outputs', σ') =>
          Some (Gather (semaphore g) (tracer_queue g) (num_processed g)
                  (<[i := (example, Running tracer previous outputs' todo)]>
                     (coroutines g))
                  (results g) σ')
      | (Raise e, σ') =>
          Some (Gather (S (semaphore g)) (tracer_queue g ++ [tracer])
                  (num_processed g)
                  (<[i := (example, Failed e)]> (coroutines g)) (results g) σ')
      end
  | Some (example, Running tracer previous outputs 0) =>
      match restore_example_id (process_callbacks tracer evaluation_handler)
              previous (global g) with
      | (Ret _, σ') =>
          Some (Gather (S (semaphore g)) (tracer_queue g ++ [tracer])
                  (S (num_processed g))
                  (<[i := (example, Finished)]> (coroutines g))
                  (<[uuid_str (ex_id example) := outputs]> (results g)) σ')
      | (Raise e, σ') =>
          Some (Gather (S (semaphore g)) (tracer_queue g ++ [tracer])
                  (num_processed g)
                  (<[i := (example, Failed e)]> (coroutines g)) (results g) σ')
      end
  | _ => None
  end.

(** The coroutines resumed in the order of [schedule]. *)
Fixpoint run_schedule (schedule : list nat) (g : gather) : option gather :=
  match schedule with
  | [] => Some g
  | i :: schedule => g' ← resume i g; run_schedule schedule g'
  end.

(** Whether [first] runs to a gather with a result under [k], and
    [second] from there to a gather with every coroutine finished. *)
Definition finishes_after (first second : list nat) (k : string) (g : gather)
    : bool :=
  match run_schedule first g with
  | Some g1 =>
      match run_schedule second g1 with
      | Some g2 =>
          bool_decide (is_Some (results g1 !! k))
          && forallb is_finished (coroutines g2)
      | None => false
      end
  | None => false
  end.

End schedules.

(** ** More notions for the gather *)

Section gather_tracers.
Context {schema : Schema} {platform : Platform}.




(** For a task whose entry for an example is [answer example]: the
    outputs a coroutine has gathered and the results stored are copies
    of the answer. *)
Record gather_answers_inv (answer : Example → value) (num_repetitions : Z)
    (examples : list Example) (g : gather) : Prop := {
  inv_gathered :
    ∀ i example tracer previous outputs todo,
      coroutines g !! i = Some (example, Running tracer previous outputs todo) →
      outputs = replicate (length outputs) (answer example);
  inv_stored :
    ∀ k outputs,
      results g !! k = Some outputs →
      ∃ example,
        example ∈ examples ∧ result_key example = k
        ∧ outputs = replicate (Z.to_nat num_repetitions) (answer example);
}.

End gather_tracers.

(** ** More inhabitants of the small platform *)

Section plain_more.
#[local] Existing Instance plain_schema.
#[local] Existing Instance plain_platform.

(** A text model whose own first call raises [InputFormatError]. *)
Definition picky_generate (prompts : list string) (callbacks : option (list nat))
    (tags : option (list string)) : M value := λ σ,
  (match world σ with
   | 0 => Raise (Exn InputFormatError "prompt rejected by the model")
   | S _ =>
       Ret (VObj "LLMResult"
              {[ "prompts" := str_list prompts; "tags" := tags_value tags ]})
   end,
   State (handlers σ) (S (world σ))).

Definition picky_llm : BaseLLM := {|
  llm_class := {| cls_module := "langchain.llms.fake"; cls_name := "PickyLLM" |};
  llm_generate := picky_generate;
  llm_agenerate := picky_generate;
|}.

(** A text model that answers with what it was called with, from its
    first call on. *)
Definition steady_generate (prompts : list string) (callbacks : option (list nat))
    (tags : option (list string)) : M value := λ σ,
  (Ret (VObj "LLMResult"
          {[ "prompts" := str_list prompts; "tags" := tags_value tags ]}),
   State (handlers σ) (S (world σ))).

Definition steady_llm : BaseLLM := {|
  llm_class := {| cls_module := "langchain.llms.fake"; cls_name := "SteadyLLM" |};
  llm_generate := steady_generate;
  llm_agenerate := steady_generate;
|}.

(** A chat model that answers with what it was called with. *)
Definition echo_chat_generate (messages : list (list value))
    (callbacks : option (list nat)) (tags : option (list string)) : M value := λ σ,
  (Ret (VObj "ChatResult"
          {[ "messages" := VList (VList <$> messages); "tags" := tags_value tags ]}),
   State (handlers σ) (S (world σ))).

Definition echo_chat : BaseChatModel := {|
  chat_class := {| cls_module := "langchain.chat_models.fake"; cls_name := "EchoChat" |};
  chat_generate := echo_chat_generate;
  chat_agenerate := echo_chat_generate;
|}.

(** A chain constructor that always fails. *)
Definition broken_factory : M Chain :=
  raise (Exn (OtherException "ImportError") "no module named chains").

(** A record that both adapters accept. *)
Definition both_record : record :=
  {[ "prompt" := VStr "hi";
     "messages" :=
       VList [VDict {[ "type" := VStr "human";
                       "data" := VDict {[ "content" := VStr "hello" ]} ]}] ]}.

(** A record that neither adapter accepts. *)
Definition odd_record : record := {[ "a" := VInt 1; "b" := VInt 2 ]}.

(** A record whose messages are lists, but not of dicts. *)
Definition undeserializable_record : record :=
  {[ "messages" := VList [VList [VStr "hi"]] ]}.

Definition empty_example : Example := {| ex_id := 3%N; ex_inputs := ∅ |}.

(** Example 1 once more, with another record. *)
Definition example_1_again : Example :=
  {| ex_id := 1%N; ex_inputs := {[ "prompt" := VStr "again" ]} |}.

(** Services whose trace storage is out of reach. *)
Definition offline_services : Services := {|
  strftime_now := (mret "2023-06-01-12-00-00" : M string);
  new_LangChainPlusClient := (mret () : M unit);
  create_session _ _ :=
    (raise (Exn (OtherException "ConnectionError") "no route to host") : M unit);
  new_LangChainTracer _ := new_handler;
  new_EvaluatorCallbackHandler _ _ := new_handler;
  wait_for_futures _ := (mret () : M unit);
|}.

(** A source with the one dataset ["faq"], which holds examples 1 and 2. *)
Definition plain_source : DatasetSource := {|
  Dataset := N;
  dataset_id d := d;
  read_dataset _ name :=
    if String.eqb name "faq" then (mret 9%N : M N)
    else raise (Exn (OtherException "ValueError") "dataset not found");
  list_examples _ _ := (mret [example_1; example_2] : M (list Example));
|}.

End plain_more.

(** * Properties *)

(** ** Facts about records and values *)

Lemma size_one_singleton (inputs : record) :
  size inputs = 1 → ∃ k v, inputs = {[ k := v ]}.
Proof.
  intros Hsize. rewrite <- length_map_to_list in Hsize.
  destruct (map_to_list inputs) as [|[k v] [|? ?]] eqn:Hl; try discriminate.
  exists k, v. rewrite <- (list_to_map_to_list inputs), Hl. reflexivity.
Qed.

Lemma sole_value (k : string) (v : value) :
  head (map_to_list ({[ k := v ]} : record)).*2 = Some v.
Proof. by rewrite map_to_list_singleton. Qed.

Lemma size_lookup_Some (inputs : record) k v :
  inputs !! k = Some v → size inputs ≠ 0.
Proof. intros Hk Hsize. apply map_size_empty_inv in Hsize. by subst. Qed.

Lemma str_list_inv (v : value) :
  isinstance_list v && all_isinstance isinstance_str (list_items v) = true →
  v = str_list (str_of <$> list_items v).
Proof.
  destruct v as [| | | |l| |]; try discriminate. simpl. intros Hall.
  unfold str_list. f_equal. induction l as [|x l IH]; [done|].
  simpl in Hall. apply andb_prop in Hall as [Hx Hl].
  destruct x; try discriminate. simpl. f_equal. by apply IH.
Qed.

Lemma str_list_check (ss : list string) :
  isinstance_list (str_list ss)
  && all_isinstance isinstance_str (list_items (str_list ss)) = true.
Proof. simpl. induction ss as [|s ss IH]; [done|]. simpl. exact IH. Qed.

Lemma str_list_all_str (ss : list string) :
  all_isinstance isinstance_str (list_items (str_list ss)) = true.
Proof. exact (str_list_check ss). Qed.

Lemma str_list_items (ss : list string) :
  str_of <$> list_items (str_list ss) = ss.
Proof. simpl. induction ss as [|s ss IH]; [done|]. simpl. by f_equal. Qed.

Lemma str_list_inj ss1 ss2 : str_list ss1 = str_list ss2 → ss1 = ss2.
Proof. intros Heq. by rewrite <- (str_list_items ss1), Heq, str_list_items. Qed.

Lemma str_list_no_str ss s : str_list ss ≠ VStr s.
Proof. discriminate. Qed.

Section adapter_facts.
Context {schema : Schema}.

Lemma get_prompts_sound inputs o :
  toPrompts inputs o → resolves (_get_prompts inputs) o.
Proof.
  unfold _get_prompts. destruct 1 as
    [ | inputs s Hp | inputs v Hp Hv | inputs ss Hp Hps | inputs v Hp Hps Hv
      | k s Hk1 Hk2 | k ss Hk1 Hk2 | k v Hk1 Hk2 Hv1 Hv2 | inputs Hp Hps Hsize ].
  - rewrite bool_decide_eq_true_2 by apply map_size_empty. constructor.
  - rewrite bool_decide_eq_false_2 by eauto using size_lookup_Some.
    rewrite Hp. simpl. constructor.
  - rewrite bool_decide_eq_false_2 by eauto using size_lookup_Some.
    rewrite Hp. destruct v; simpl; try constructor. by destruct (Hv s).
  - rewrite bool_decide_eq_false_2 by eauto using size_lookup_Some.
    rewrite Hp, Hps. change (isinstance_list (str_list ss)) with true.
    rewrite str_list_all_str, str_list_items. simpl. constructor.
  - rewrite bool_decide_eq_false_2 by eauto using size_lookup_Some.
    rewrite Hp, Hps.
    destruct (isinstance_list v && all_isinstance isinstance_str (list_items v))
      eqn:Hcheck.
    + apply str_list_inv in Hcheck. by destruct (Hv _ Hcheck).
    + apply andb_false_iff in Hcheck as [-> | ->]; simpl; [constructor|].
      rewrite orb_true_r. constructor.
  - rewrite map_size_singleton. simpl.
    rewrite !lookup_singleton_ne by done. rewrite sole_value. simpl. constructor.
  - rewrite map_size_singleton. simpl.
    rewrite !lookup_singleton_ne by done. rewrite sole_value.
    change (isinstance_str (str_list ss)) with false. cbv iota.
    rewrite str_list_check, str_list_items. constructor.
  - rewrite map_size_singleton. simpl.
    rewrite !lookup_singleton_ne by done. rewrite sole_value.
    destruct (isinstance_str v) eqn:Hstr.
    { destruct v; try discriminate. by destruct (Hv1 s). }
    destruct (isinstance_list v && all_isinstance isinstance_str (list_items v))
      eqn:Hcheck; [|constructor].
    apply str_list_inv in Hcheck. by destruct (Hv2 _ Hcheck).
  - rewrite !bool_decide_eq_false_2 by lia. rewrite Hp, Hps. constructor.
Qed.

Lemma get_prompts_total inputs : ∃ o, toPrompts inputs o.
Proof.
  destruct (decide (size inputs = 0)) as [Hsize|Hsize].
  { apply map_size_empty_inv in Hsize as ->. eexists. constructor. }
  destruct (inputs !! "prompt") as [v|] eqn:Hp.
  { destruct v; try (exists None; by eapply toPrompts_prompt_no_str).
    eexists. by eapply toPrompts_prompt. }
  destruct (inputs !! "prompts") as [v|] eqn:Hps.
  { destruct (isinstance_list v && all_isinstance isinstance_str (list_items v))
      eqn:Hcheck.
    - apply str_list_inv in Hcheck. rewrite Hcheck in Hps.
      eexists. by eapply toPrompts_prompts.
    - exists None. eapply toPrompts_prompts_no_list; [done..|].
      intros ss ->. by rewrite str_list_check in Hcheck. }
  destruct (decide (size inputs = 1)) as [Hone|Hone];
    [|exists None; apply toPrompts_other; [done..|lia]].
  apply size_one_singleton in Hone as (k & v & ->).
  assert (k ≠ "prompt") by (intros ->; by rewrite lookup_singleton_eq in Hp).
  assert (k ≠ "prompts") by (intros ->; by rewrite lookup_singleton_eq in Hps).
  destruct (isinstance_str v) eqn:Hstr.
  { destruct v; try discriminate. eexists. by apply toPrompts_one_str. }
  destruct (isinstance_list v && all_isinstance isinstance_str (list_items v))
    eqn:Hcheck.
  - apply str_list_inv in Hcheck. rewrite Hcheck.
    eexists. by apply toPrompts_one_list.
  - exists None. apply toPrompts_one_other; [done..| |].
    + intros s ->. discriminate.
    + intros ss ->. by rewrite str_list_check in Hcheck.
Qed.

Lemma resolves_functional {A} (r : outcome A) o1 o2 :
  resolves r o1 → resolves r o2 → o1 = o2.
Proof. destruct 1; inversion 1; reflexivity. Qed.

Lemma get_prompts_complete inputs o :
  resolves (_get_prompts inputs) o → toPrompts inputs o.
Proof.
  intros Hcode. destruct (get_prompts_total inputs) as [o' Hspec].
  by rewrite (resolves_functional _ _ _ Hcode (get_prompts_sound _ _ Hspec)).
Qed.
End adapter_facts.

Lemma dict_list_inv (v : value) :
  isinstance_list v && all_isinstance isinstance_dict (list_items v) = true →
  ∃ ds, v = VList (VDict <$> ds).
Proof.
  destruct v as [| | | |l| |]; try discriminate. simpl. intros Hall.
  cut (∃ ds, l = VDict <$> ds). { intros [ds ->]. by exists ds. }
  induction l as [|x l IH]; [by exists []|].
  simpl in Hall. apply andb_prop in Hall as [Hx Hl].
  destruct x as [| | | | |d|]; try discriminate.
  destruct (IH Hl) as [ds ->]. by exists (d :: ds).
Qed.

Lemma dict_list_check (ds : list (gmap string value)) :
  all_isinstance isinstance_dict (VDict <$> ds) = true.
Proof. induction ds as [|d ds IH]; [done|]. exact IH. Qed.

Lemma list_list_inv (v : value) :
  isinstance_list v && all_isinstance isinstance_list (list_items v) = true →
  ∃ ls, v = VList (VList <$> ls).
Proof.
  destruct v as [| | | |l| |]; try discriminate. simpl. intros Hall.
  cut (∃ ls, l = VList <$> ls). { intros [ls ->]. by exists ls. }
  induction l as [|x l IH]; [by exists []|].
  simpl in Hall. apply andb_prop in Hall as [Hx Hl].
  destruct x as [| | | |b| |]; try discriminate.
  destruct (IH Hl) as [ls ->]. by exists (b :: ls).
Qed.

Lemma list_list_check (ls : list (list value)) :
  all_isinstance isinstance_list (VList <$> ls) = true.
Proof. induction ls as [|b ls IH]; [done|]. exact IH. Qed.

Lemma list_list_items (ls : list (list value)) :
  list_items <$> (VList <$> ls) = ls.
Proof. induction ls as [|b ls IH]; [done|]. simpl. by f_equal. Qed.

Lemma list_list_no_dicts (ls : list (list value)) :
  ls ≠ [] → all_isinstance isinstance_dict (VList <$> ls) = false.
Proof. by destruct ls. Qed.

Section message_facts.
Context {schema : Schema}.

(** [raw_messages] once the source value is known. *)
Lemma raw_messages_source inputs v :
  message_source inputs (Some v) →
  raw_messages inputs =
    if isinstance_list v && all_isinstance isinstance_dict (list_items v)
    then Ret [list_items v]
    else if isinstance_list v && all_isinstance isinstance_list (list_items v)
    then Ret (list_items <$> list_items v)
    else
      Raise (Exn InputFormatError
               ("Chat Run expects List[dict] or List[List[dict]] 'messages' input. Got "
                  +:+ repr_inputs inputs)).
Proof.
  unfold raw_messages. inversion 1 as [inputs' v' Hm | k v' Hk |]; subst.
  - rewrite bool_decide_eq_false_2 by eauto using size_lookup_Some.
    by rewrite Hm.
  - rewrite map_size_singleton. simpl.
    rewrite lookup_singleton_ne by done. by rewrite sole_value.
Qed.

Lemma raw_messages_no_source inputs :
  message_source inputs None →
  ∃ msg, raw_messages inputs = Raise (Exn InputFormatError msg).
Proof.
  unfold raw_messages. inversion 1 as [| | inputs' Hm Hsize]; subst.
  case_bool_decide; [by eexists|].
  rewrite Hm. rewrite bool_decide_eq_false_2 by done. by eexists.
Qed.

Lemma raw_messages_sound inputs r :
  toMessages inputs r → resolves (raw_messages inputs) r.
Proof.
  destruct 1 as [ | inputs Hsrc | inputs ds Hsrc | inputs ls Hsrc Hls
                  | inputs v Hsrc Hds Hls ].
  - unfold raw_messages.
    rewrite bool_decide_eq_true_2 by apply map_size_empty. constructor.
  - destruct (raw_messages_no_source _ Hsrc) as [msg ->]. constructor.
  - rewrite (raw_messages_source _ _ Hsrc). simpl.
    rewrite dict_list_check. constructor.
  - rewrite (raw_messages_source _ _ Hsrc). simpl.
    rewrite list_list_no_dicts, list_list_check, list_list_items by done.
    constructor.
  - rewrite (raw_messages_source _ _ Hsrc).
    destruct (isinstance_list v && all_isinstance isinstance_dict (list_items v))
      eqn:Hd.
    { apply dict_list_inv in Hd as [ds ->]. by destruct (Hds ds). }
    destruct (isinstance_list v && all_isinstance isinstance_list (list_items v))
      eqn:Hl.
    { apply list_list_inv in Hl as [ls ->]. by destruct (Hls ls). }
    constructor.
Qed.

Lemma message_source_total inputs : ∃ o, message_source inputs o.
Proof.
  destruct (inputs !! "messages") as [v|] eqn:Hm.
  { exists (Some v). by constructor. }
  destruct (decide (size inputs = 1)) as [Hone|Hone].
  - apply size_one_singleton in Hone as (k & v & ->).
    exists (Some v). apply message_source_sole.
    intros ->. by rewrite lookup_singleton_eq in Hm.
  - exists None. by constructor.
Qed.

Lemma to_messages_total inputs : ∃ r, toMessages inputs r.
Proof.
  destruct (message_source_total inputs) as [[v|] Hsrc];
    [|exists None; by apply toMessages_no_source].
  destruct (isinstance_list v && all_isinstance isinstance_dict (list_items v))
    eqn:Hd.
  { apply dict_list_inv in Hd as [ds ->]. eexists. by apply toMessages_dicts. }
  destruct (isinstance_list v && all_isinstance isinstance_list (list_items v))
    eqn:Hl.
  - apply list_list_inv in Hl as [ls ->]. exists (Some ls).
    apply toMessages_lists; [done|]. intros ->. discriminate.
  - exists None. eapply toMessages_other; [done|..].
    + intros ds ->. simpl in Hd. by rewrite dict_list_check in Hd.
    + intros ls ->. simpl in Hl. by rewrite list_list_check in Hl.
Qed.

Lemma to_messages_functional inputs r1 r2 :
  toMessages inputs r1 → toMessages inputs r2 → r1 = r2.
Proof.
  intros H1 H2. eapply resolves_functional; by apply raw_messages_sound.
Qed.

Lemma get_messages_yield inputs r :
  toMessages inputs r → messages_yield inputs r.
Proof.
  intros Hr. apply raw_messages_sound in Hr. unfold messages_yield, _get_messages.
  inversion Hr as [raw Hraw | msg Hraw]; simpl; [done|by eexists].
Qed.

End message_facts.

Section monad_facts.
Context {schema : Schema} {platform : Platform}.

Lemma bind_ret {A B} (c : M A) (k : A → M B) σ a σ' :
  c σ = (Ret a, σ') → (c ≫= k) σ = k a σ'.
Proof. unfold mbind, M_bind. by intros ->. Qed.

Lemma bind_raise {A B} (c : M A) (k : A → M B) σ e σ' :
  c σ = (Raise e, σ') → (c ≫= k) σ = (Raise e, σ').
Proof. unfold mbind, M_bind. by intros ->. Qed.

(** One turn of the loop never raises. *)
Lemma attempt_entry (call : M value) outputs σ :
  attempt call outputs σ = (Ret (outputs ++ [entry_of (call σ).1]), (call σ).2).
Proof.
  unfold attempt, try_except, mbind, M_bind.
  by destruct (call σ) as [[output|e] σ'].
Qed.

Lemma attempt_state_S call i σ :
  attempt_state call (S i) σ = attempt_state call i (call σ).2.
Proof. unfold attempt_state. by rewrite Nat.iter_succ_r. Qed.

(** The whole loop: one entry per attempt, in attempt order. *)
Lemma for_range_attempt (call : M value) n outputs σ :
  for_range n (attempt call) outputs σ =
    (Ret (outputs ++ ((λ i, entry_of (call (attempt_state call i σ)).1) <$> seq 0 n)),
     attempt_state call n σ).
Proof.
  revert outputs σ. induction n as [|n IH]; intros outputs σ.
  { simpl. by rewrite app_nil_r. }
  cbn [for_range]. erewrite bind_ret by apply attempt_entry.
  rewrite IH, <- app_assoc, attempt_state_S. do 2 f_equal. simpl. f_equal.
  rewrite <- fmap_S_seq, <- list_fmap_compose. f_equal. apply list_fmap_ext.
  intros _ i _. unfold compose. by rewrite attempt_state_S.
Qed.

Lemma mapM_getattr l σ :
  mapM getattr_example_id l σ =
    (Ret ((λ tracer, default None (example_id_of σ tracer)) <$> l), σ).
Proof.
  induction l as [|t l IH]; [done|].
  cbn [mapM]. unfold mbind at 1, M_bind at 1. cbn [getattr_example_id].
  unfold mbind at 1, M_bind at 1. by rewrite IH.
Qed.

Lemma for_each_rebind (l : list (option UUID * nat)) σ :
  for_each l (λ '(v, tracer),
      has ← hasattr_example_id tracer;
      if has : bool then setattr_example_id tracer v else mret ()) σ =
    (Ret (), foldl (λ σ '(v, tracer), rebind σ tracer v) σ l).
Proof.
  revert σ. induction l as [|[v t] l IH]; intros σ; [done|].
  cbn [for_each foldl]. unfold mbind at 1, M_bind at 1.
  unfold mbind at 1, M_bind at 1. cbn [hasattr_example_id].
  unfold rebind at 2. case_bool_decide; cbn; apply IH.
Qed.

Lemma for_each_bind (example_id : option UUID) (l : list nat) σ :
  for_each l (λ tracer,
      has ← hasattr_example_id tracer;
      if has : bool then setattr_example_id tracer example_id else mret ()) σ =
    (Ret (), foldl (λ σ tracer, rebind σ tracer example_id) σ l).
Proof.
  revert σ. induction l as [|t l IH]; intros σ; [done|].
  cbn [for_each foldl]. unfold mbind at 1, M_bind at 1.
  unfold mbind at 1, M_bind at 1. cbn [hasattr_example_id].
  unfold rebind at 2. case_bool_decide; cbn; apply IH.
Qed.

End monad_facts.

Section loop_facts.
Context {schema : Schema} {platform : Platform}.

Lemma not_truthy_nil {A} (l : option (list A)) :
  truthy l = false → default [] l = [].
Proof. by destruct l as [[|??]|]. Qed.

Lemma truthy_fmap {A B} (f : A → B) (l : option (list A)) :
  truthy l = true → truthy (Some (f <$> default [] l)) = true.
Proof. by destruct l as [[|??]|]. Qed.

(** Binding never raises; it saves what [getattr] reads and rebinds the
    handlers that have the attribute. *)
Lemma bind_example_id_run example callbacks σ :
  bind_example_id example callbacks σ =
    (Ret (if truthy callbacks
          then Some ((λ tracer, default None (example_id_of σ tracer))
                       <$> default [] callbacks)
          else None),
     foldl (λ σ tracer, rebind σ tracer (Some (ex_id example))) σ
       (default [] callbacks)).
Proof.
  unfold bind_example_id. destruct (truthy callbacks) eqn:Htruthy.
  - erewrite bind_ret by apply mapM_getattr.
    erewrite bind_ret by apply for_each_bind. done.
  - by rewrite (not_truthy_nil callbacks).
Qed.

(** Restoring never raises. *)
Lemma restore_example_id_run callbacks (saved : nat → option UUID) σ :
  restore_example_id callbacks
    (if truthy callbacks then Some (saved <$> default [] callbacks) else None) σ =
    (Ret (),
     foldl (λ σ '(v, tracer), rebind σ tracer v) σ
       (zip (saved <$> default [] callbacks) (default [] callbacks))).
Proof.
  unfold restore_example_id. destruct (truthy callbacks) eqn:Htruthy.
  - rewrite truthy_fmap by done. cbn [andb default]. apply for_each_rebind.
  - rewrite (not_truthy_nil callbacks) by done. reflexivity.
Qed.

(** The shape both repetition loops share. *)
Lemma repetition_loop_run example (call : M value) n callbacks σ :
  (previous_example_ids ← bind_example_id example callbacks;
   outputs ← for_range n (attempt call) [];
   _ ← restore_example_id callbacks previous_example_ids;
   mret outputs) σ =
    let σ1 := (bind_example_id example callbacks σ).2 in
    (Ret ((λ i, entry_of (call (attempt_state call i σ1)).1) <$> seq 0 n),
     foldl (λ σ '(v, tracer), rebind σ tracer v) (attempt_state call n σ1)
       (zip ((λ tracer, default None (example_id_of σ tracer))
               <$> default [] callbacks)
            (default [] callbacks))).
Proof.
  rewrite bind_example_id_run. cbn [snd].
  erewrite bind_ret by apply bind_example_id_run.
  erewrite bind_ret by apply for_range_attempt.
  erewrite bind_ret by apply restore_example_id_run. done.
Qed.

(** ** Rebinding and the [example_id] attribute *)

Lemma rebind_is_Some σ tracer v tracer' :
  is_Some (example_id_of (rebind σ tracer v) tracer')
  ↔ is_Some (example_id_of σ tracer').
Proof.
  unfold rebind. case_bool_decide as Hhas; [|done].
  unfold example_id_of in *. cbn [handlers].
  destruct (decide (tracer = tracer')) as [<-|Hne].
  - rewrite lookup_alter_eq. destruct (handlers σ !! tracer); simpl; [|done].
    split; [done|eauto].
  - by rewrite lookup_alter_ne.
Qed.

Lemma rebind_other σ tracer v tracer' :
  tracer ≠ tracer' →
  example_id_of (rebind σ tracer v) tracer' = example_id_of σ tracer'.
Proof.
  intros Hne. unfold rebind. case_bool_decide; [|done].
  unfold example_id_of. cbn [handlers]. by rewrite lookup_alter_ne.
Qed.

Lemma rebind_same σ tracer v :
  example_id_of (rebind σ tracer v) tracer =
    if bool_decide (is_Some (example_id_of σ tracer)) then Some v else None.
Proof.
  unfold rebind. case_bool_decide as Hhas.
  - unfold example_id_of in *. cbn [handlers]. rewrite lookup_alter_eq.
    destruct (handlers σ !! tracer); [done|]. by destruct Hhas.
  - destruct (example_id_of σ tracer); [|done]. destruct Hhas. eauto.
Qed.

Lemma rebind_all_is_Some (l : list (option UUID * nat)) σ tracer :
  is_Some (example_id_of (foldl (λ σ '(v, t), rebind σ t v) σ l) tracer)
  ↔ is_Some (example_id_of σ tracer).
Proof.
  revert σ. induction l as [|[v t] l IH]; intros σ; [done|].
  cbn [foldl]. by rewrite IH, rebind_is_Some.
Qed.

Lemma rebind_all_other (l : list (option UUID * nat)) σ tracer :
  tracer ∉ l.*2 →
  example_id_of (foldl (λ σ '(v, t), rebind σ t v) σ l) tracer
  = example_id_of σ tracer.
Proof.
  revert σ. induction l as [|[v t] l IH]; intros σ Hnotin; [done|].
  cbn [foldl]. rewrite fmap_cons, not_elem_of_cons in Hnotin.
  destruct Hnotin as [Hne Hnotin]. rewrite IH by done. by apply rebind_other.
Qed.

(** After a pass that writes [saved t] to every handler [t] of the list
    that has the attribute, each of them holds [saved t]. *)
Lemma rebind_all_saved (saved : nat → option UUID) (l : list nat) σ tracer :
  tracer ∈ l →
  example_id_of
    (foldl (λ σ '(v, t), rebind σ t v) σ ((λ t, (saved t, t)) <$> l)) tracer
  = if bool_decide (is_Some (example_id_of σ tracer))
    then Some (saved tracer) else None.
Proof.
  revert σ. induction l as [|t l IH]; intros σ Hin; [by apply elem_of_nil in Hin|].
  cbn [fmap list_fmap foldl].
  destruct (decide (tracer ∈ l)) as [Hl|Hl].
  - rewrite IH by done.
    by rewrite (bool_decide_ext _ _ (rebind_is_Some σ t (saved t) tracer)).
  - apply elem_of_cons in Hin as [->|?]; [|done].
    rewrite rebind_all_other; [apply rebind_same|].
    rewrite <- list_fmap_compose. by rewrite list_fmap_id.
Qed.

Lemma zip_fmap_self {A B} (f : A → B) (l : list A) :
  zip (f <$> l) l = (λ x, (f x, x)) <$> l.
Proof. induction l as [|x l IH]; [done|]. simpl. by f_equal. Qed.

Lemma attempt_state_is_Some (call : M value) n σ tracer :
  keeps_attributes call →
  is_Some (example_id_of (attempt_state call n σ) tracer)
  ↔ is_Some (example_id_of σ tracer).
Proof.
  intros Hkeep. induction n as [|n IH]; [done|].
  unfold attempt_state in *. cbn [Nat.iter]. etrans; [apply Hkeep|exact IH].
Qed.

Lemma bind_example_id_is_Some example callbacks σ tracer :
  is_Some (example_id_of (bind_example_id example callbacks σ).2 tracer)
  ↔ is_Some (example_id_of σ tracer).
Proof.
  rewrite bind_example_id_run. cbn [snd].
  generalize (default [] callbacks). intros l. revert σ.
  induction l as [|t l IH]; intros σ; [done|].
  cbn [foldl]. by rewrite IH, rebind_is_Some.
Qed.

(** The loop leaves the [example_id] of every handler it was given as it
    found it. *)
Lemma repetition_loop_restores example (call : M value) n callbacks σ tracer :
  keeps_attributes call →
  tracer ∈ default [] callbacks →
  example_id_of
    ((previous_example_ids ← bind_example_id example callbacks;
      outputs ← for_range n (attempt call) [];
      _ ← restore_example_id callbacks previous_example_ids;
      mret outputs) σ).2 tracer
  = example_id_of σ tracer.
Proof.
  intros Hkeep Hin. rewrite repetition_loop_run. cbn [snd].
  rewrite zip_fmap_self, rebind_all_saved by done.
  rewrite (bool_decide_ext _ (is_Some (example_id_of σ tracer))).
  2:{ by rewrite attempt_state_is_Some, bind_example_id_is_Some. }
  case_bool_decide as Hhas.
  - destruct Hhas as [v ->]. done.
  - destruct (example_id_of σ tracer); [|done]. destruct Hhas. eauto.
Qed.

End loop_facts.

Section runner_facts.
Context {schema : Schema} {platform : Platform} {services : Services}.

Lemma bind_inv {A B} (c : M A) (k : A → M B) σ b σ' :
  (c ≫= k) σ = (Ret b, σ') → ∃ a σ1, c σ = (Ret a, σ1) ∧ k a σ1 = (Ret b, σ').
Proof.
  unfold mbind, M_bind. destruct (c σ) as [[a|e] σ1]; [eauto|discriminate].
Qed.

Lemma run_llm_or_chain_returns example task n tags callbacks σ :
  ∃ outputs σ',
    run_llm_or_chain example task n tags callbacks σ = (Ret outputs, σ')
    ∧ length outputs = Z.to_nat n.
Proof.
  unfold run_llm_or_chain. rewrite repetition_loop_run. cbn zeta.
  do 2 eexists. split; [reflexivity|]. by rewrite length_fmap, length_seq.
Qed.

Lemma arun_llm_or_chain_returns example task n tags callbacks σ :
  ∃ outputs σ',
    _arun_llm_or_chain example task n tags callbacks σ = (Ret outputs, σ')
    ∧ length outputs = Z.to_nat n.
Proof.
  unfold _arun_llm_or_chain. rewrite repetition_loop_run. cbn zeta.
  do 2 eexists. split; [reflexivity|]. by rewrite length_fmap, length_seq.
Qed.

(** The loop over the examples never raises; it adds one entry per
    example key, and every entry it adds is the output list of a
    repetition loop of an example with that key. *)
Lemma run_examples_run examples task n tags callbacks results σ :
  ∃ results' σ',
    run_examples examples task n tags callbacks results σ = (Ret results', σ')
    ∧ dom results' = dom results ∪ list_to_set (result_key <$> examples)
    ∧ (∀ k, k ∉ result_key <$> examples → results' !! k = results !! k)
    ∧ (∀ k, k ∈ result_key <$> examples →
         ∃ example σ1 outputs σ2,
           example ∈ examples ∧ result_key example = k
           ∧ run_llm_or_chain example task n tags callbacks σ1 = (Ret outputs, σ2)
           ∧ results' !! k = Some outputs).
Proof.
  revert results σ. induction examples as [|example examples IH]; intros results σ.
  { exists results, σ. split_and!; [done|set_solver|done|].
    intros k Hk. by apply elem_of_nil in Hk. }
  destruct (run_llm_or_chain_returns example task n tags callbacks σ)
    as (outputs & σ1 & Hrun & _).
  destruct (IH (<[result_key example := outputs]> results) σ1)
    as (results' & σ' & Hrest & Hdom & Hold & Hnew).
  exists results', σ'. cbn [run_examples]. erewrite bind_ret by exact Hrun.
  split_and!.
  - exact Hrest.
  - rewrite Hdom, dom_insert_L, fmap_cons, list_to_set_cons. set_solver.
  - intros k Hk. rewrite fmap_cons, not_elem_of_cons in Hk.
    destruct Hk as [Hne Hk]. rewrite Hold by done. by rewrite lookup_insert_ne.
  - intros k Hk. destruct (decide (k ∈ result_key <$> examples)) as [Hin|Hnotin].
    + destruct (Hnew k Hin) as (ex & σa & outs & σb & Hex & Hkey & Hloop & Hlook).
      exists ex, σa, outs, σb. split_and!; [by right|done..].
    + rewrite fmap_cons in Hk. apply elem_of_cons in Hk as [->|?]; [|done].
      exists example, σ, outputs, σ1. split_and!; [by left|done..|].
      rewrite Hold by done. by rewrite lookup_insert_eq.
Qed.

Lemma size_result_keys examples :
  Inj (=) (=) uuid_str → NoDup (ex_id <$> examples) →
  size (list_to_set (C := gset string) (result_key <$> examples)) = length examples.
Proof.
  intros Hinj Hnodup. rewrite size_list_to_set.
  - by rewrite length_fmap.
  - replace (result_key <$> examples) with (uuid_str <$> (ex_id <$> examples))
      by (by rewrite <- list_fmap_compose).
    by apply (NoDup_fmap_2 _).
Qed.

Lemma run_examples_complete examples task n tags callbacks σ results σ' :
  Inj (=) (=) uuid_str → NoDup (ex_id <$> examples) →
  run_examples examples task n tags callbacks ∅ σ = (Ret results, σ') →
  complete_results examples n results.
Proof.
  intros Hinj Hnodup Hrun.
  destruct (run_examples_run examples task n tags callbacks ∅ σ)
    as (results' & σ'' & Hrun' & Hdom & _ & Hnew).
  rewrite Hrun in Hrun'. injection Hrun' as <- <-.
  rewrite dom_empty_L, (left_id_L ∅ (∪)) in Hdom. split_and!.
  - exact Hdom.
  - by rewrite <- size_dom, Hdom, size_result_keys.
  - intros example Hin.
    destruct (Hnew (result_key example))
      as (example' & σ1 & outputs & σ2 & _ & _ & Hloop & Hlookup).
    { apply list_elem_of_fmap. by exists example. }
    exists outputs. split; [exact Hlookup|].
    destruct (run_llm_or_chain_returns example' task n tags callbacks σ1)
      as (outputs' & σ2' & Hloop' & Hlen).
    congruence.
Qed.

Lemma run_on_examples_inv examples task n session_name client tags run_evaluators
    σ results σ' :
  run_on_examples examples task n session_name client tags run_evaluators σ
    = (Ret results, σ') →
  ∃ callbacks σ1 σ2,
    run_examples examples task n tags callbacks ∅ σ1 = (Ret results, σ2).
Proof.
  unfold run_on_examples. intros Hrun.
  apply bind_inv in Hrun as (name & ? & _ & Hrun).
  apply bind_inv in Hrun as (client_ & ? & _ & Hrun).
  apply bind_inv in Hrun as ([] & ? & _ & Hrun).
  apply bind_inv in Hrun as (tracer & ? & _ & Hrun).
  apply bind_inv in Hrun as (handler & σ1 & _ & Hrun).
  apply bind_inv in Hrun as (results' & σ2 & Hloop & Hrun).
  apply bind_inv in Hrun as ([] & ? & _ & Hrun).
  apply bind_inv in Hrun as ([] & ? & _ & Hrun).
  injection Hrun as -> ->. eauto.
Qed.

End runner_facts.

Section coroutine_lists.
Context {schema : Schema} {platform : Platform}.
Implicit Types cs : list (Example * coroutine).

Lemma insert_middle cs i c c' :
  cs !! i = Some c →
  ∃ l1 l2, cs = l1 ++ c :: l2 ∧ <[i:=c']> cs = l1 ++ c' :: l2.
Proof.
  intros Hi. exists (take i cs), (drop (S i) cs). split.
  - by rewrite take_drop_middle.
  - apply insert_take_drop. by eapply lookup_lt_Some.
Qed.

Lemma count_where_middle p l1 (c : Example * coroutine) l2 :
  count_where p (l1 ++ c :: l2)
  = count_where p l1 + Nat.b2n (p c) + count_where p l2.
Proof.
  unfold count_where. rewrite filter_app, filter_cons, length_app.
  destruct (p c); case_decide; try done; simpl; lia.
Qed.

Lemma count_where_insert p cs i c c' :
  cs !! i = Some c →
  count_where p (<[i:=c']> cs) + Nat.b2n (p c)
  = count_where p cs + Nat.b2n (p c').
Proof.
  intros Hi. destruct (insert_middle cs i c c' Hi) as (l1 & l2 & Hcs & ->).
  rewrite Hcs. rewrite !count_where_middle. lia.
Qed.

Lemma count_where_lookup p cs i c :
  cs !! i = Some c → p c = true → 0 < count_where p cs.
Proof.
  intros Hi Hp. destruct (insert_middle cs i c c Hi) as (l1 & l2 & -> & _).
  rewrite count_where_middle, Hp. simpl. lia.
Qed.

Lemma count_where_pos p cs :
  0 < count_where p cs → ∃ i c, cs !! i = Some c ∧ p c = true.
Proof.
  unfold count_where. intros Hpos.
  destruct (filter (λ c, p c = true) cs) as [|c l] eqn:Hfilter; [simpl in Hpos; lia|].
  assert (c ∈ filter (λ c, p c = true) cs) as Hc by (rewrite Hfilter; left).
  apply list_elem_of_filter in Hc as [Hp Hc].
  apply list_elem_of_lookup in Hc as [i Hi]. eauto.
Qed.

Lemma count_where_pending p (examples : list Example) :
  (∀ example, p (example, Pending) = false) →
  count_where p ((λ example, (example, Pending)) <$> examples) = 0.
Proof.
  intros Hp. unfold count_where. induction examples as [|e l IH]; [done|].
  rewrite fmap_cons, filter_cons. case_decide as Hpe; [|done].
  by rewrite Hp in Hpe.
Qed.

Lemma finished_keys_middle l1 (c : Example * coroutine) l2 :
  finished_keys (l1 ++ c :: l2)
  = finished_keys l1
    ∪ (if is_finished c then {[ result_key c.1 ]} else ∅)
    ∪ finished_keys l2.
Proof.
  unfold finished_keys. rewrite filter_app, filter_cons, fmap_app, list_to_set_app_L.
  destruct (is_finished c); case_decide; try done.
  - rewrite fmap_cons, list_to_set_cons. set_solver.
  - set_solver.
Qed.

Lemma finished_keys_insert cs i c c' :
  cs !! i = Some c → is_finished c = false →
  finished_keys (<[i:=c']> cs)
  = (if is_finished c' then {[ result_key c'.1 ]} else ∅) ∪ finished_keys cs.
Proof.
  intros Hi Hc. destruct (insert_middle cs i c c' Hi) as (l1 & l2 & Hcs & ->).
  rewrite Hcs. rewrite !finished_keys_middle, Hc. set_solver.
Qed.

Lemma examples_insert cs i c c' :
  cs !! i = Some c → c'.1 = c.1 → (<[i:=c']> cs).*1 = cs.*1.
Proof.
  intros Hi Hfst. destruct (insert_middle cs i c c' Hi) as (l1 & l2 & Hcs & ->).
  rewrite Hcs. by rewrite !fmap_app, !fmap_cons, Hfst.
Qed.

Lemma steps_left_insert n cs i c c' :
  cs !! i = Some c →
  sum_list_with (steps_left n) (<[i:=c']> cs) + steps_left n c
  = sum_list_with (steps_left n) cs + steps_left n c'.
Proof.
  intros Hi. destruct (insert_middle cs i c c' Hi) as (l1 & l2 & Hcs & ->).
  rewrite Hcs. rewrite !sum_list_with_app. simpl. lia.
Qed.

Lemma not_all_finished cs :
  forallb is_finished cs = false → ∃ i c, cs !! i = Some c ∧ is_finished c = false.
Proof.
  induction cs as [|c cs IH]; [done|]. simpl. intros Hall.
  destruct (is_finished c) eqn:Hc.
  - destruct (IH Hall) as (i & c' & Hi & Hc'). by exists (S i), c'.
  - by exists 0, c.
Qed.

Lemma all_finished_keys cs :
  forallb is_finished cs = true →
  finished_keys cs = list_to_set (result_key <$> cs.*1).
Proof.
  unfold finished_keys. induction cs as [|c cs IH]; [done|]. simpl.
  intros [Hc Hcs]%andb_prop. rewrite filter_cons. case_decide; [|done].
  rewrite !fmap_cons, !list_to_set_cons. by rewrite IH.
Qed.

End coroutine_lists.

Section gather_facts.
Context {schema : Schema} {platform : Platform} {services : Services}.
Variable llm_or_chain_factory : MODEL_OR_CHAIN_FACTORY.
Variable num_repetitions : Z.
Variable tags : option (list string).
Variable evaluation_handler : nat.

Local Abbreviation step := (step llm_or_chain_factory num_repetitions tags evaluation_handler).

(** The counts of a coroutine list in which coroutine [i] becomes [c]. *)
Local Ltac count_facts c Hi :=
  let Ha := fresh "Hentered" in
  let Hr := fresh "Hrunning" in
  let Hf := fresh "Hfail" in
  pose proof (count_where_insert is_entered _ _ _ c Hi) as Ha;
  pose proof (count_where_insert is_running _ _ _ c Hi) as Hr;
  pose proof (count_where_insert is_failed _ _ _ c Hi) as Hf;
  cbn [Nat.b2n is_entered is_running is_failed snd] in Ha, Hr, Hf.

(** Restoring never raises, whatever was saved. *)
Lemma restore_example_id_returns callbacks previous σ :
  ∃ σ', restore_example_id callbacks previous σ = (Ret (), σ').
Proof.
  unfold restore_example_id.
  destruct (truthy callbacks && truthy previous); [|by eexists].
  rewrite for_each_rebind. by eexists.
Qed.

(** No coroutine ever raises: the three [finally] paths are dead. *)
Lemma step_no_get_raise example callbacks σ e σ' :
  bind_example_id example callbacks σ ≠ (Raise e, σ').
Proof. by rewrite bind_example_id_run. Qed.

Lemma step_no_attempt_raise (call : M value) outputs σ e σ' :
  attempt call outputs σ ≠ (Raise e, σ').
Proof. by rewrite attempt_entry. Qed.

Lemma step_no_return_raise callbacks previous σ e σ' :
  restore_example_id callbacks previous σ ≠ (Raise e, σ').
Proof.
  destruct (restore_example_id_returns callbacks previous σ) as [σ1 ->]. done.
Qed.

Lemma gather_start_inv n queue examples σ :
  length queue = Z.to_nat n →
  gather_inv (Z.to_nat n) num_repetitions examples
    (gather_start n queue examples σ).
Proof.
  intros Hqueue. unfold gather_start.
  split; cbn [semaphore tracer_queue coroutines results].
  - rewrite !count_where_pending by done. lia.
  - rewrite !count_where_pending by done. lia.
  - by rewrite !count_where_pending.
  - rewrite <- list_fmap_compose. apply list_fmap_id.
  - unfold finished_keys. rewrite dom_empty_L.
    induction examples as [|e l IH]; [done|].
    rewrite fmap_cons, filter_cons. by case_decide.
  - intros k outputs Hk. by rewrite lookup_empty in Hk.
  - intros i example tracer previous outputs todo Hi.
    apply list_lookup_fmap_Some in Hi as (? & ? & ?). congruence.
Qed.

Lemma step_inv n examples g g' :
  step g g' →
  gather_inv n num_repetitions examples g →
  gather_inv n num_repetitions examples g'.
Proof.
  intros Hstep [Hsem Hqueue Hfailed Hexamples Hresults Hlengths Houtputs].
  destruct Hstep as
    [ g i example Hi Hpos
    | g i example tracer queue previous σ' Hi Hq Hbind
    | g i example tracer previous outputs todo outputs' σ' Hi Hattempt
    | g i example tracer previous outputs σ' Hi Hrestore
    | g i example tracer queue e σ' Hi Hq Hbind
    | g i example tracer previous outputs todo e σ' Hi Hattempt
    | g i example tracer previous outputs e σ' Hi Hrestore ];
    try (by apply step_no_get_raise in Hbind);
    try (by apply step_no_attempt_raise in Hattempt);
    try (by apply step_no_return_raise in Hrestore).
  - (* the semaphore is acquired *)
    count_facts (example, Entered) Hi.
    split; cbn [semaphore tracer_queue coroutines results]; try lia.
    + by erewrite examples_insert.
    + erewrite finished_keys_insert by done. cbn [is_finished snd].
      by rewrite (left_id_L ∅ (∪)).
    + done.
    + intros j ex t p o k [(_ & ? & _)|[_ Hj]]%list_lookup_insert_Some;
        [done|by eapply Houtputs].
  - (* a tracer is taken and bound *)
    count_facts (example, Running tracer previous [] (Z.to_nat num_repetitions)) Hi.
    rewrite Hq in Hqueue. cbn [length] in Hqueue.
    split; cbn [semaphore tracer_queue coroutines results]; try lia.
    + by erewrite examples_insert.
    + erewrite finished_keys_insert by done. cbn [is_finished snd].
      by rewrite (left_id_L ∅ (∪)).
    + done.
    + intros j ex t p o k [(_ & Heq & _)|[_ Hj]]%list_lookup_insert_Some;
        [|by eapply Houtputs].
      injection Heq as <- <- <- <- <-. done.
  - (* one attempt *)
    count_facts (example, Running tracer previous outputs' todo) Hi.
    split; cbn [semaphore tracer_queue coroutines results]; try lia.
    + by erewrite examples_insert.
    + erewrite finished_keys_insert by done. cbn [is_finished snd].
      by rewrite (left_id_L ∅ (∪)).
    + done.
    + intros j ex t p o k [(_ & Heq & _)|[_ Hj]]%list_lookup_insert_Some;
        [|by eapply Houtputs].
      injection Heq as <- <- <- <- <-.
      rewrite attempt_entry in Hattempt. injection Hattempt as <- _.
      apply Houtputs in Hi. rewrite length_app. simpl. lia.
  - (* the result is stored, the tracer put back, the semaphore released *)
    count_facts (example, Finished) Hi.
    split; cbn [semaphore tracer_queue coroutines results]; try lia.
    + rewrite length_app. simpl. lia.
    + by erewrite examples_insert.
    + erewrite finished_keys_insert by done. cbn [is_finished snd fst].
      by rewrite dom_insert_L, Hresults.
    + intros k outs [[_ <-]|[_ Hk]]%lookup_insert_Some; [|by eapply Hlengths].
      apply Houtputs in Hi. lia.
    + intros j ex t p o k [(_ & ? & _)|[_ Hj]]%list_lookup_insert_Some;
        [done|by eapply Houtputs].
Qed.

Lemma rtc_step_inv n examples g g' :
  rtc step g g' →
  gather_inv n num_repetitions examples g →
  gather_inv n num_repetitions examples g'.
Proof. induction 1; eauto using step_inv. Qed.

(** Every step uses up one of the steps left. *)
Lemma step_steps_left g g' :
  step g g' →
  gather_steps_left num_repetitions g' < gather_steps_left num_repetitions g.
Proof.
  unfold gather_steps_left.
  destruct 1 as
    [ g i example Hi Hpos
    | g i example tracer queue previous σ' Hi Hq Hbind
    | g i example tracer previous outputs todo outputs' σ' Hi Hattempt
    | g i example tracer previous outputs σ' Hi Hrestore
    | g i example tracer queue e σ' Hi Hq Hbind
    | g i example tracer previous outputs todo e σ' Hi Hattempt
    | g i example tracer previous outputs e σ' Hi Hrestore ]; cbn.
  - pose proof (steps_left_insert num_repetitions _ _ _ (example, Entered) Hi).
    cbn in *; lia.
  - pose proof (steps_left_insert num_repetitions _ _ _
                  (example, Running tracer previous [] (Z.to_nat num_repetitions)) Hi).
    cbn in *; lia.
  - pose proof (steps_left_insert num_repetitions _ _ _
                  (example, Running tracer previous outputs' todo) Hi).
    cbn in *; lia.
  - pose proof (steps_left_insert num_repetitions _ _ _ (example, Finished) Hi).
    cbn in *; lia.
  - pose proof (steps_left_insert num_repetitions _ _ _ (example, Failed e) Hi).
    cbn in *; lia.
  - pose proof (steps_left_insert num_repetitions _ _ _ (example, Failed e) Hi).
    cbn in *; lia.
  - pose proof (steps_left_insert num_repetitions _ _ _ (example, Failed e) Hi).
    cbn in *; lia.
Qed.

(** Once entered, a coroutine finds a tracer in the queue. *)
Lemma entered_finds_tracer n examples g i example :
  gather_inv n num_repetitions examples g →
  coroutines g !! i = Some (example, Entered) →
  ∃ tracer queue, tracer_queue g = tracer :: queue.
Proof.
  intros [Hsem Hqueue _ _ _ _ _] Hi.
  pose proof (count_where_lookup is_entered _ _ _ Hi eq_refl).
  destruct (tracer_queue g) as [|tracer queue]; [simpl in *; lia|eauto].
Qed.

Lemma entered_can_step n examples g i example :
  gather_inv n num_repetitions examples g →
  coroutines g !! i = Some (example, Entered) →
  ∃ g', step g g'.
Proof.
  intros Hinv Hi.
  destruct (entered_finds_tracer _ _ _ _ _ Hinv Hi) as (tracer & queue & Hq).
  eexists. eapply step_get; [done..|]. apply bind_example_id_run.
Qed.

(** While a coroutine is unfinished, some coroutine can run. *)
Lemma gather_progress n examples g :
  0 < n →
  gather_inv n num_repetitions examples g →
  forallb is_finished (coroutines g) = false →
  ∃ g', step g g'.
Proof.
  intros Hn Hinv Hunfinished.
  destruct (decide (0 < count_where is_running (coroutines g))) as [Hrun|Hrun].
  { apply count_where_pos in Hrun as (i & [example c] & Hi & Hc).
    destruct c as [| |tracer previous outputs todo| |]; try discriminate.
    destruct todo as [|todo].
    - destruct (restore_example_id_returns
                  (process_callbacks tracer evaluation_handler) previous (global g))
        as [σ' Hrestore].
      eexists. by eapply step_return.
    - eexists. eapply step_attempt; [done|]. apply attempt_entry. }
  destruct (decide (0 < count_where is_entered (coroutines g))) as [Hadm|Hadm].
  { apply count_where_pos in Hadm as (i & [example c] & Hi & Hc).
    destruct c; try discriminate. by eapply entered_can_step. }
  apply not_all_finished in Hunfinished as (i & [example c] & Hi & Hc).
  destruct Hinv as [Hsem _ Hfailed _ _ _ _].
  destruct c as [| |tracer previous outputs todo| |e]; try discriminate.
  - eexists. eapply step_acquire; [done|lia].
  - pose proof (count_where_lookup is_entered _ _ _ Hi eq_refl). lia.
  - pose proof (count_where_lookup is_running _ _ _ Hi eq_refl). lia.
  - pose proof (count_where_lookup is_failed _ _ _ Hi eq_refl). lia.
Qed.

(** Under every schedule the gather comes to its end: from each state
    that the invariant holds in, the coroutines can be run until all
    are finished. *)
Lemma gather_completes n examples g :
  0 < n →
  gather_inv n num_repetitions examples g →
  ∃ g', rtc step g g' ∧ forallb is_finished (coroutines g') = true.
Proof.
  intros Hn. remember (gather_steps_left num_repetitions g) as m eqn:Hm.
  revert g Hm. induction (lt_wf m) as [m _ IH]. intros g -> Hinv.
  destruct (forallb is_finished (coroutines g)) eqn:Hall.
  { exists g. by split. }
  destruct (gather_progress n examples g Hn Hinv Hall) as [g1 Hstep].
  destruct (IH _ (step_steps_left _ _ Hstep) g1 eq_refl) as (g' & Hrtc & Hdone).
  { by eapply step_inv. }
  exists g'. split; [by eapply rtc_l|done].
Qed.

(** When all coroutines are finished, the results hold one entry per
    example key. *)
Lemma gather_results n examples g :
  gather_inv n num_repetitions examples g →
  forallb is_finished (coroutines g) = true →
  dom (results g) = list_to_set (result_key <$> examples).
Proof.
  intros [_ _ _ Hexamples Hresults _ _] Hall.
  by rewrite Hresults, all_finished_keys, Hexamples.
Qed.

Lemma gather_complete_results n examples g :
  Inj (=) (=) uuid_str → NoDup (ex_id <$> examples) →
  gather_inv n num_repetitions examples g →
  forallb is_finished (coroutines g) = true →
  complete_results examples num_repetitions (results g).
Proof.
  intros Hinj Hnodup Hinv Hall.
  pose proof (gather_results _ _ _ Hinv Hall) as Hdom. split_and!.
  - exact Hdom.
  - by rewrite <- size_dom, Hdom, size_result_keys.
  - intros example Hin.
    assert (result_key example ∈ dom (results g)) as [outputs Hk]%elem_of_dom.
    { rewrite Hdom, elem_of_list_to_set. apply list_elem_of_fmap. by exists example. }
    exists outputs. split; [exact Hk|]. by eapply (inv_lengths _ _ _ _ Hinv).
Qed.

End gather_facts.

Section setup_facts.
Context {schema : Schema} {platform : Platform} {services : Services}.

Lemma for_range_queue (initializer : M (option nat)) k queue σ queue' σ' :
  for_range k (λ queue, tracer ← initializer; mret (queue ++ [tracer])) queue σ
    = (Ret queue', σ') →
  length queue' = length queue + k.
Proof.
  revert queue σ. induction k as [|k IH]; intros queue σ Hrun.
  { injection Hrun as <- _. lia. }
  cbn [for_range] in Hrun. apply bind_inv in Hrun as (queue1 & σ1 & Hbody & Hrun).
  apply bind_inv in Hbody as (tracer & σ2 & _ & Hret). injection Hret as <- _.
  apply IH in Hrun. rewrite length_app in Hrun. simpl in Hrun. lia.
Qed.

Lemma gather_setup_queue n initializer σ queue σ' :
  gather_setup n initializer σ = (Ret queue, σ') →
  (0 ≤ n)%Z ∧ length queue = Z.to_nat n.
Proof.
  unfold gather_setup. case_bool_decide; [discriminate|].
  intros Hrun%for_range_queue. simpl in Hrun. lia.
Qed.

Lemma arun_setup_queue task n session_name client run_evaluators σ
    evaluation_handler queue σ' :
  arun_setup task n session_name client run_evaluators σ
    = (Ret (evaluation_handler, queue), σ') →
  (0 ≤ n)%Z ∧ length queue = Z.to_nat n.
Proof.
  unfold arun_setup. intros Hrun.
  apply bind_inv in Hrun as (name & ? & _ & Hrun).
  apply bind_inv in Hrun as (client_ & ? & _ & Hrun).
  apply bind_inv in Hrun as ([] & ? & _ & Hrun).
  apply bind_inv in Hrun as (handler & ? & _ & Hrun).
  apply bind_inv in Hrun as (queue' & ? & Hsetup & Hrun).
  injection Hrun as _ -> _. by eapply gather_setup_queue.
Qed.

(** The drain at the end of the gather returns when waiting does. *)
Lemma gather_drain_returns queue σ :
  (∀ handler σ, ∃ σ', wait_for_futures handler σ = (Ret (), σ')) →
  ∃ σ', gather_drain queue σ = (Ret (), σ').
Proof.
  intros Hwait. revert σ.
  induction queue as [|[tracer|] queue IH]; intros σ.
  - by eexists.
  - destruct (Hwait tracer σ) as [σ1 Hw]. destruct (IH σ1) as [σ' Hd].
    exists σ'. cbn [gather_drain]. by erewrite bind_ret.
  - destruct (IH σ) as [σ' Hd]. exists σ'. exact Hd.
Qed.

(** Once its setup has returned, a concurrent run at a level of at
    least 1 can return: the coroutines can be run to their end, and so
    can the drain of the tracers and of the evaluation handler when
    waiting returns. *)
Lemma arun_on_examples_returns examples task (concurrency_level n : Z)
    session_name client tags run_evaluators σ evaluation_handler queue σ0 :
  (1 ≤ concurrency_level)%Z →
  (∀ handler σ, ∃ σ', wait_for_futures handler σ = (Ret (), σ')) →
  arun_setup task concurrency_level session_name client run_evaluators σ
    = (Ret (evaluation_handler, queue), σ0) →
  ∃ results σ',
    arun_on_examples examples task concurrency_level n session_name client tags
      run_evaluators σ results σ'.
Proof.
  intros Hlevel Hwait Hsetup.
  pose proof (arun_setup_queue _ _ _ _ _ _ _ _ _ Hsetup) as [_ Hqueue].
  pose proof (gather_start_inv n concurrency_level queue examples σ0 Hqueue)
    as Hinv.
  assert (0 < Z.to_nat concurrency_level) as Hpos by lia.
  destruct (gather_completes task n tags evaluation_handler _ _ _ Hpos Hinv)
    as (g & Hrtc & Hall).
  destruct (gather_drain_returns (tracer_queue g) (global g) Hwait)
    as [σ1 Hdrain].
  destruct (Hwait evaluation_handler σ1) as [σ' Hw].
  exists (results g), σ', evaluation_handler, queue, σ0, g, σ1. done.
Qed.

End setup_facts.

(** * The input adapters *)

Lemma resolves_Some {A} (r : outcome A) a : resolves r (Some a) → r = Ret a.
Proof. by inversion 1. Qed.

Lemma resolves_None {A} (r : outcome A) :
  resolves r None → ∃ msg, r = Raise (Exn InputFormatError msg).
Proof. inversion 1. by eexists. Qed.

(** C5. [_get_prompts] follows the rules of the specification for every
    input record: a verdict of the rules holds of a record exactly when
    [_get_prompts] gives it (a list of prompts returned, or
    [InputFormatError] raised), and the four records that the
    specification lists come out as it says. *)
Theorem get_prompts_as_specified `{Schema} :
  (∀ inputs o, toPrompts inputs o ↔ resolves (_get_prompts inputs) o)
  ∧ _get_prompts {[ "prompt" := VStr "hi" ]} = Ret ["hi"]
  ∧ _get_prompts {[ "prompts" := VList [VStr "a"; VStr "b"] ]} = Ret ["a"; "b"]
  ∧ resolves (_get_prompts ∅) None
  ∧ resolves (_get_prompts {[ "x" := VInt 5 ]}) None.
Proof.
  split_and!.
  - intros inputs o. split; [apply get_prompts_sound|apply get_prompts_complete].
  - apply resolves_Some, get_prompts_sound, toPrompts_prompt.
    apply lookup_singleton_eq.
  - apply resolves_Some, get_prompts_sound, (toPrompts_prompts _ ["a"; "b"]).
    + by apply lookup_singleton_ne.
    + apply lookup_singleton_eq.
  - apply get_prompts_sound. constructor.
  - apply get_prompts_sound. by apply toPrompts_one_other.
Qed.

(** C6. [_get_messages] follows the rules of the specification for every
    input record: the rules give each record exactly one verdict, and
    [_get_messages] deserializes the batches of an accepting verdict and
    raises [InputFormatError] on a rejecting one.  A list of message-dicts
    makes one batch, a non-empty list of lists is taken as the batches,
    and the record with fields [a] and [b] is rejected. *)
Theorem get_messages_as_specified `{Schema} :
  (∀ inputs, ∃ r, toMessages inputs r ∧ ∀ r', toMessages inputs r' → r' = r)
  ∧ (∀ inputs r, toMessages inputs r → messages_yield inputs r)
  ∧ (∀ inputs ds,
       message_source inputs (Some (VList (VDict <$> ds))) →
       _get_messages inputs
       = (batch ← messages_from_dict (VDict <$> ds); Ret [batch]))
  ∧ (∀ inputs ls,
       message_source inputs (Some (VList (VList <$> ls))) → ls ≠ [] →
       _get_messages inputs = mapM messages_from_dict ls)
  ∧ (∃ msg, _get_messages {[ "a" := VInt 1; "b" := VInt 2 ]}
            = Raise (Exn InputFormatError msg))
  ∧ (∀ d, _get_messages {[ "messages" := VList [VDict d] ]}
          = (message ← message_from_dict (VDict d); Ret [[message]])).
Proof.
  split_and!.
  - intros inputs. destruct (to_messages_total inputs) as [r Hr].
    exists r. split; [done|]. intros r' Hr'. by eapply to_messages_functional.
  - apply get_messages_yield.
  - intros inputs ds Hsrc.
    rewrite (get_messages_yield inputs (Some [VDict <$> ds])) by by constructor.
    cbn [mapM mbind outcome_bind mret outcome_ret].
    by destruct (messages_from_dict (VDict <$> ds)).
  - intros inputs ls Hsrc Hls.
    by rewrite (get_messages_yield inputs (Some ls)) by by constructor.
  - apply (get_messages_yield _ None). apply toMessages_no_source.
    apply message_source_none.
    + rewrite lookup_insert_ne by done. by apply lookup_singleton_ne.
    + rewrite map_size_insert_None by by apply lookup_singleton_ne.
      by rewrite map_size_singleton.
  - intros d.
    rewrite (get_messages_yield _ (Some [VDict <$> [d]])).
    2:{ apply toMessages_dicts, message_source_field, lookup_singleton_eq. }
    unfold messages_from_dict.
    cbn [mapM mbind outcome_bind mret outcome_ret fmap list_fmap].
    by destruct (message_from_dict (VDict d)).
Qed.

(** C10 as stated fails: under the key ["prompt"] an empty list is not
    accepted, since that key takes a string only. *)
Lemma get_prompts_rejects_empty_list_under_prompt :
  _get_prompts (schema := plain_schema) {[ "prompt" := VList [] ]}
  = Raise (Exn InputFormatError "Expected string for 'prompt', got list").
Proof. vm_compute. reflexivity. Qed.

(** C10, amended. An empty list is accepted wherever a list is looked
    for: [_get_prompts] returns no prompts for a record whose sole field
    is not ["prompt"] and holds [[]], and for a record without
    ["prompt"] whose ["prompts"] is [[]]; [_get_messages] takes a source
    value [[]] for a list of message-dicts and returns the single empty
    message sequence, as for the record [{"messages": []}]. *)
Theorem empty_list_accepted `{Schema} (k : string) :
  k ≠ "prompt" →
  _get_prompts {[ k := VList [] ]} = Ret []
  ∧ (∀ inputs,
       inputs !! "prompt" = None → inputs !! "prompts" = Some (VList []) →
       _get_prompts inputs = Ret [])
  ∧ (∀ inputs, message_source inputs (Some (VList [])) →
       _get_messages inputs = Ret [[]])
  ∧ _get_messages {[ "messages" := VList [] ]} = Ret [[]].
Proof.
  intros Hk.
  assert (∀ inputs,
            inputs !! "prompt" = None → inputs !! "prompts" = Some (VList []) →
            _get_prompts inputs = Ret []) as Hprompts.
  { intros inputs Hp Hps.
    by apply resolves_Some, get_prompts_sound, (toPrompts_prompts _ []). }
  assert (∀ inputs, message_source inputs (Some (VList [])) →
            _get_messages inputs = Ret [[]]) as Hmessages.
  { intros inputs Hsrc.
    by rewrite (get_messages_yield inputs (Some [VDict <$> []]))
      by by apply toMessages_dicts. }
  split_and!; [|done|done|].
  - destruct (decide (k = "prompts")) as [->|Hk'].
    + apply Hprompts; [done|]. apply lookup_singleton_eq.
    + by apply resolves_Some, get_prompts_sound, (toPrompts_one_list _ []).
  - apply Hmessages, message_source_field, lookup_singleton_eq.
Qed.

Lemma empty_list_accepted_witness :
  "question" ≠ "prompt"
  ∧ _get_prompts (schema := plain_schema) {[ "question" := VList [] ]} = Ret [].
Proof.
  split; [discriminate|].
  destruct (empty_list_accepted (H := plain_schema) "question") as [Hempty _];
    [discriminate|exact Hempty].
Defined.

(** * The repetition loop *)

Section loop_claims.
Context {schema : Schema} {platform : Platform}.

Lemma loop_entries_length (call : M value) n σ :
  length ((λ i, entry_of (call (attempt_state call i σ)).1) <$> seq 0 n) = n.
Proof. by rewrite length_fmap, length_seq. Qed.

Lemma loop_entries_lookup (call : M value) n σ i :
  i < n →
  ((λ i, entry_of (call (attempt_state call i σ)).1) <$> seq 0 n) !! i
  = Some (entry_of (call (attempt_state call i σ)).1).
Proof. intros Hi. by rewrite list_lookup_fmap, lookup_seq_lt. Qed.

(** The loop around any call: [n] entries, entry [i] from attempt [i]. *)
Lemma loop_entries example (call : M value) n callbacks σ :
  ∃ outputs σ',
    (previous_example_ids ← bind_example_id example callbacks;
     outputs ← for_range n (attempt call) [];
     _ ← restore_example_id callbacks previous_example_ids;
     mret outputs) σ = (Ret outputs, σ')
    ∧ length outputs = n
    ∧ ∀ i, i < n →
        outputs !! i
        = Some (entry_of
                  (call (attempt_state call i
                           (bind_example_id example callbacks σ).2)).1).
Proof.
  rewrite repetition_loop_run. cbn zeta. do 2 eexists.
  split; [reflexivity|]. split; [apply loop_entries_length|].
  intros i Hi. by apply loop_entries_lookup.
Qed.

(** The same with the entry of attempt [i] written out: the output of
    the call, or the dict that stands for its exception. *)
Lemma loop_outcomes example (call : M value) n callbacks σ :
  ∃ outputs σ',
    (previous_example_ids ← bind_example_id example callbacks;
     outputs ← for_range n (attempt call) [];
     _ ← restore_example_id callbacks previous_example_ids;
     mret outputs) σ = (Ret outputs, σ')
    ∧ length outputs = n
    ∧ ∀ i r σi,
        i < n →
        call (attempt_state call i (bind_example_id example callbacks σ).2)
          = (r, σi) →
        outputs !! i
        = Some (match r with
                | Ret output => output
                | Raise e => VDict {[ "Error" := VStr (exn_str e) ]}
                end)
        ∧ attempt_state call (S i) (bind_example_id example callbacks σ).2 = σi.
Proof.
  destruct (loop_entries example call n callbacks σ)
    as (outputs & σ' & Hrun & Hlen & Hentry).
  exists outputs, σ'. split; [exact Hrun|]. split; [exact Hlen|].
  intros i r σi Hi Hcall. rewrite Hentry by done. rewrite Hcall. split.
  - by destruct r.
  - change (attempt_state call (S i) ?s) with (call (attempt_state call i s)).2.
    by rewrite Hcall.
Qed.


(** The loop around a call that raises [e] whenever it is made, in
    whatever state it leaves: [n] copies of the dict for [e]. *)
Lemma loop_always_raises example (call : M value) e n callbacks σ :
  (∀ σ, (call σ).1 = Raise e) →
  ∃ σ',
    (previous_example_ids ← bind_example_id example callbacks;
     outputs ← for_range n (attempt call) [];
     _ ← restore_example_id callbacks previous_example_ids;
     mret outputs) σ
    = (Ret (replicate n (VDict {[ "Error" := VStr (exn_str e) ]})), σ').
Proof.
  intros Hcall. rewrite repetition_loop_run. cbn zeta. eexists. f_equal. f_equal.
  generalize 0. induction n as [|n IH]; intros start; [done|].
  cbn [seq fmap list_fmap replicate]. rewrite Hcall.
  f_equal. apply IH.
Qed.

End loop_claims.

Section plain_loop.
#[local] Existing Instance plain_schema.
#[local] Existing Instance plain_platform.


End plain_loop.

Section isolation_claims.
Context {schema : Schema} {platform : Platform} {services : Services}.

(** A record without fields fails both adapters, so the text model is
    never called and the invoker raises the [InputFormatError] of the
    fallback. *)
Lemma invoke_empty_record example llm tags callbacks σ :
  ex_inputs example = ∅ →
  invoke example (LanguageModel (IsBaseLLM llm)) tags callbacks σ
  = (Raise (Exn InputFormatError "Inputs should not be empty."), σ).
Proof.
  intros Hempty. unfold invoke, run_llm, try_except, mbind, M_bind, lift.
  rewrite Hempty. unfold _get_prompts, _get_messages, raw_messages.
  by rewrite !bool_decide_eq_true_2 by apply map_size_empty.
Qed.

(** C3. In both repetition loops an attempt that raises [e], in input
    resolution or in the task, leaves the dict [{"Error": str(e)}] at
    its own place of the output list; the loop returns all the same,
    the next attempt starts from the state the failed one left, the loop
    over the examples stores an entry for every example, and no
    coroutine of the concurrent runner ever fails. *)
Theorem attempt_failure_becomes_error_record example task (n : Z)
    tags callbacks σ :
  (∃ outputs σ',
     run_llm_or_chain example task n tags callbacks σ = (Ret outputs, σ')
     ∧ length outputs = Z.to_nat n
     ∧ ∀ i e σi,
         i < Z.to_nat n →
         invoke example task tags callbacks
           (attempt_state (invoke example task tags callbacks) i
              (bind_example_id example callbacks σ).2) = (Raise e, σi) →
         outputs !! i = Some (VDict {[ "Error" := VStr (exn_str e) ]})
         ∧ attempt_state (invoke example task tags callbacks) (S i)
             (bind_example_id example callbacks σ).2 = σi)
  ∧ (∃ outputs σ',
       _arun_llm_or_chain example task n tags callbacks σ = (Ret outputs, σ')
       ∧ length outputs = Z.to_nat n
       ∧ ∀ i e σi,
           i < Z.to_nat n →
           ainvoke example task tags callbacks
             (attempt_state (ainvoke example task tags callbacks) i
                (bind_example_id example callbacks σ).2) = (Raise e, σi) →
           outputs !! i = Some (VDict {[ "Error" := VStr (exn_str e) ]})
           ∧ attempt_state (ainvoke example task tags callbacks) (S i)
               (bind_example_id example callbacks σ).2 = σi)
  ∧ (∀ examples results,
       ∃ results' σ',
         run_examples examples task n tags callbacks results σ = (Ret results', σ')
         ∧ ∀ example, example ∈ examples →
             is_Some (results' !! result_key example))
  ∧ (∀ evaluation_handler concurrency_level queue examples g,
       length queue = Z.to_nat concurrency_level →
       rtc (step task n tags evaluation_handler)
         (gather_start concurrency_level queue examples σ) g →
       ∀ i example e, coroutines g !! i ≠ Some (example, Failed e)).
Proof.
  split_and!.
  - destruct (loop_outcomes example (invoke example task tags callbacks)
                (Z.to_nat n) callbacks σ) as (outputs & σ' & Hrun & Hlen & Hentry).
    exists outputs, σ'. split; [exact Hrun|]. split; [exact Hlen|].
    intros i e σi Hi Hraise. exact (Hentry i (Raise e) σi Hi Hraise).
  - destruct (loop_outcomes example (ainvoke example task tags callbacks)
                (Z.to_nat n) callbacks σ) as (outputs & σ' & Hrun & Hlen & Hentry).
    exists outputs, σ'. split; [exact Hrun|]. split; [exact Hlen|].
    intros i e σi Hi Hraise. exact (Hentry i (Raise e) σi Hi Hraise).
  - intros examples results.
    destruct (run_examples_run examples task n tags callbacks results σ)
      as (results' & σ' & Hrun & _ & _ & Hnew).
    exists results', σ'. split; [exact Hrun|]. intros example' Hin.
    destruct (Hnew (result_key example')) as (? & ? & outputs & ? & _ & _ & _ & ->);
      [|by eexists].
    apply list_elem_of_fmap. by exists example'.
  - intros evaluation_handler concurrency_level queue examples g Hqueue Hrtc
      i example' e Hi.
    pose proof (gather_start_inv n concurrency_level queue examples σ Hqueue)
      as Hinv.
    eapply rtc_step_inv in Hinv; [|exact Hrtc].
    pose proof (count_where_lookup is_failed _ _ _ Hi eq_refl).
    destruct Hinv as [_ _ Hfailed _ _ _ _]. lia.
Qed.

(** ** Which tags the text model is called with *)

(** The fallback of the synchronous invoker calls the text model once,
    with the flattened messages and the handlers, and without the tags. *)
Lemma run_llm_text_fallback llm inputs callbacks tags msg batches buffers σ :
  _get_prompts inputs = Raise (Exn InputFormatError msg) →
  _get_messages inputs = Ret batches →
  mapM get_buffer_string batches = Ret buffers →
  run_llm (IsBaseLLM llm) inputs callbacks tags σ
  = llm_generate llm buffers callbacks None σ.
Proof.
  intros Hprompts Hmessages Hbuffers.
  unfold run_llm, try_except, mbind, M_bind, lift.
  by rewrite Hprompts, Hmessages, Hbuffers.
Qed.

(** The fallback of the asynchronous invoker passes the tags on. *)
Lemma arun_llm_text_fallback llm inputs callbacks tags msg batches buffers σ :
  _get_prompts inputs = Raise (Exn InputFormatError msg) →
  _get_messages inputs = Ret batches →
  mapM get_buffer_string batches = Ret buffers →
  _arun_llm (IsBaseLLM llm) inputs tags callbacks σ
  = llm_agenerate llm buffers callbacks tags σ.
Proof.
  intros Hprompts Hmessages Hbuffers.
  unfold _arun_llm, try_except, mbind, M_bind, lift.
  by rewrite Hprompts, Hmessages, Hbuffers.
Qed.

(** The first choice of either invoker calls the model once, with the
    resolved input, the handlers and the tags, unless that call itself
    raises [InputFormatError]. *)
Lemma run_llm_text_first llm inputs callbacks tags prompts σ :
  _get_prompts inputs = Ret prompts →
  (∀ e σ', llm_generate llm prompts callbacks tags σ = (Raise e, σ') →
           exn_cls e ≠ InputFormatError) →
  run_llm (IsBaseLLM llm) inputs callbacks tags σ
  = llm_generate llm prompts callbacks tags σ.
Proof.
  intros Hprompts Hcall. unfold run_llm, try_except, mbind, M_bind, lift.
  rewrite Hprompts.
  destruct (llm_generate llm prompts callbacks tags σ) as [[output|e] σ'] eqn:Hgen;
    [done|].
  unfold except_InputFormatError. rewrite bool_decide_eq_false_2; [done|].
  by eapply Hcall.
Qed.

Lemma run_llm_chat_first llm inputs callbacks tags messages σ :
  _get_messages inputs = Ret messages →
  (∀ e σ', chat_generate llm messages callbacks tags σ = (Raise e, σ') →
           exn_cls e ≠ InputFormatError) →
  run_llm (IsBaseChatModel llm) inputs callbacks tags σ
  = chat_generate llm messages callbacks tags σ.
Proof.
  intros Hmessages Hcall. unfold run_llm, try_except, mbind, M_bind, lift.
  rewrite Hmessages.
  destruct (chat_generate llm messages callbacks tags σ) as [[output|e] σ'] eqn:Hgen;
    [done|].
  unfold except_InputFormatError. rewrite bool_decide_eq_false_2; [done|].
  by eapply Hcall.
Qed.

Lemma run_llm_chat_fallback llm inputs callbacks tags msg prompts σ :
  _get_messages inputs = Raise (Exn InputFormatError msg) →
  _get_prompts inputs = Ret prompts →
  run_llm (IsBaseChatModel llm) inputs callbacks tags σ
  = chat_generate llm ((λ prompt, [HumanMessage prompt]) <$> prompts)
      callbacks tags σ.
Proof.
  intros Hmessages Hprompts. unfold run_llm, try_except, mbind, M_bind, lift.
  by rewrite Hmessages, Hprompts.
Qed.

(** C8. After either repetition loop, whatever its attempts did, every
    handler it was given has the [example_id] it had before: the value
    it held if it has the attribute, and still no attribute if it had
    none.  The calls may rebind the handlers as they like, as long as
    they do not add or remove the attribute itself. *)
Theorem example_id_restored example task (n : Z) tags callbacks σ tracer :
  keeps_attributes (invoke example task tags callbacks) →
  keeps_attributes (ainvoke example task tags callbacks) →
  tracer ∈ default [] callbacks →
  example_id_of (run_llm_or_chain example task n tags callbacks σ).2 tracer
  = example_id_of σ tracer
  ∧ example_id_of (_arun_llm_or_chain example task n tags callbacks σ).2 tracer
    = example_id_of σ tracer.
Proof.
  intros Hsync Hasync Hin.
  split; by apply repetition_loop_restores.
Qed.

End isolation_claims.

(** * The batch runners *)

Section batch_claims.
Context {schema : Schema} {platform : Platform} {services : Services}.

(** C1. When the identifiers of the examples are pairwise distinct (and
    distinct identifiers print differently), the results that either
    batch runner returns have exactly the keys [str(example.id)] of the
    examples, so as many entries as there are examples, and each entry
    is a list of one output per repetition.  The loop of the sequential
    runner always returns such results, and with a concurrency level of
    at least 1 the coroutines of the concurrent runner can always be run
    to their end; so the concurrent runner itself, once its setup has
    returned and as long as waiting for the handlers returns, has a run
    that returns such results. *)
Theorem results_one_entry_per_example (examples : list Example) task (n : Z) :
  Inj (=) (=) uuid_str →
  NoDup (ex_id <$> examples) →
  (∀ session_name client tags run_evaluators σ results σ',
     run_on_examples examples task n session_name client tags run_evaluators σ
       = (Ret results, σ') →
     complete_results examples n results)
  ∧ (∀ concurrency_level session_name client tags run_evaluators σ results σ',
       arun_on_examples examples task concurrency_level n session_name client
         tags run_evaluators σ results σ' →
       complete_results examples n results)
  ∧ (∀ tags callbacks σ,
       ∃ results σ',
         run_examples examples task n tags callbacks ∅ σ = (Ret results, σ')
         ∧ complete_results examples n results)
  ∧ (∀ tags evaluation_handler concurrency_level queue σ,
       (1 ≤ concurrency_level)%Z →
       length queue = Z.to_nat concurrency_level →
       ∃ g,
         rtc (step task n tags evaluation_handler)
           (gather_start concurrency_level queue examples σ) g
         ∧ forallb is_finished (coroutines g) = true
         ∧ complete_results examples n (results g))
  ∧ (∀ concurrency_level session_name client tags run_evaluators σ
       evaluation_handler queue σ0,
       (1 ≤ concurrency_level)%Z →
       (∀ handler σ, ∃ σ', wait_for_futures handler σ = (Ret (), σ')) →
       arun_setup task concurrency_level session_name client run_evaluators σ
         = (Ret (evaluation_handler, queue), σ0) →
       ∃ results σ',
         arun_on_examples examples task concurrency_level n session_name client
           tags run_evaluators σ results σ'
         ∧ complete_results examples n results).
Proof.
  intros Hinj Hnodup.
  assert (∀ concurrency_level session_name client tags run_evaluators σ results σ',
            arun_on_examples examples task concurrency_level n session_name client
              tags run_evaluators σ results σ' →
            complete_results examples n results) as Hconcurrent.
  { intros concurrency_level session_name client tags run_evaluators σ results σ'
      (evaluation_handler & queue & σ0 & g & σ1
       & Hsetup & Hrtc & Hall & _ & _ & ->).
    apply arun_setup_queue in Hsetup as [_ Hqueue].
    pose proof (gather_start_inv n concurrency_level queue examples σ0 Hqueue)
      as Hinv.
    eapply rtc_step_inv in Hinv; [|exact Hrtc].
    by eapply gather_complete_results. }
  split_and!.
  - intros session_name client tags run_evaluators σ results σ' Hrun.
    apply run_on_examples_inv in Hrun as (callbacks & σ1 & σ2 & Hrun).
    by eapply run_examples_complete.
  - exact Hconcurrent.
  - intros tags callbacks σ.
    destruct (run_examples_run examples task n tags callbacks ∅ σ)
      as (results & σ' & Hrun & _).
    exists results, σ'. split; [exact Hrun|]. by eapply run_examples_complete.
  - intros tags evaluation_handler concurrency_level queue σ Hlevel Hqueue.
    pose proof (gather_start_inv n concurrency_level queue examples σ Hqueue)
      as Hinv.
    assert (0 < Z.to_nat concurrency_level) as Hpos by lia.
    destruct (gather_completes task n tags evaluation_handler _ _ _ Hpos Hinv)
      as (g & Hrtc & Hall).
    eapply rtc_step_inv in Hinv; [|exact Hrtc].
    exists g. split; [exact Hrtc|]. split; [exact Hall|].
    by eapply gather_complete_results.
  - intros concurrency_level session_name client tags run_evaluators σ
      evaluation_handler queue σ0 Hlevel Hwait Hsetup.
    destruct (arun_on_examples_returns examples task concurrency_level n
                session_name client tags run_evaluators σ evaluation_handler
                queue σ0 Hlevel Hwait Hsetup) as (results & σ' & Harun).
    exists results, σ'. split; [exact Harun|]. by eapply Hconcurrent.
Qed.

(** C9. From the start of the coroutines of a concurrent run on, at
    most [concurrency_level] coroutines hold a tracer and are inside the
    repetition loop, whatever the schedule; and a coroutine that has
    passed the semaphore finds a tracer in the queue, so that it can
    take it at once. *)
Theorem at_most_n_in_flight task (concurrency_level n : Z) session_name client
    tags run_evaluators examples σ evaluation_handler queue σ0 g :
  arun_setup task concurrency_level session_name client run_evaluators σ
    = (Ret (evaluation_handler, queue), σ0) →
  rtc (step task n tags evaluation_handler)
    (gather_start concurrency_level queue examples σ0) g →
  (Z.of_nat (in_flight g) ≤ concurrency_level)%Z
  ∧ ∀ i example,
      coroutines g !! i = Some (example, Entered) →
      (∃ tracer queue', tracer_queue g = tracer :: queue')
      ∧ (∃ tracer queue' previous σ',
           step task n tags evaluation_handler g
             (Gather (semaphore g) queue' (num_processed g)
                (<[i := (example,
                         Running tracer previous [] (Z.to_nat n))]> (coroutines g))
                (results g) σ')).
Proof.
  intros [Hlevel Hqueue]%arun_setup_queue Hrtc.
  pose proof (gather_start_inv n concurrency_level queue examples σ0 Hqueue)
    as Hinv.
  eapply rtc_step_inv in Hinv; [|exact Hrtc]. split.
  - destruct Hinv as [_ Hq _ _ _ _ _]. unfold in_flight.
    unfold count_where in Hq. lia.
  - intros i example Hi.
    destruct (entered_finds_tracer _ _ _ _ _ _ Hinv Hi) as (tracer & queue' & Hq).
    split; [by eauto|].
    exists tracer, queue'. do 2 eexists.
    eapply step_get; [done..|]. apply bind_example_id_run.
Qed.

End batch_claims.

(** * Runs on the small platform *)

Section plain_runs.
#[local] Existing Instance plain_schema.
#[local] Existing Instance plain_platform.
#[local] Existing Instance plain_services.

(** C4 as stated fails: with a language model of an unsupported class
    the sequential runner does not raise; it returns results in which
    every attempt of every example is the dict [{"Error": ...}] of the
    [ValueError]. *)
Lemma unsupported_model_recorded_per_item :
  (run_on_examples [example_1; example_2]
     (LanguageModel (OtherLanguageModel odd_class)) 2 (Some "session") None None
     None no_handlers).1
  = Ret {[ "1" :=
             [VDict {[ "Error" :=
                         VStr "Unsupported LLM type <class 'retrieval.Embedder'>" ]};
              VDict {[ "Error" :=
                         VStr "Unsupported LLM type <class 'retrieval.Embedder'>" ]}];
           "2" :=
             [VDict {[ "Error" :=
                         VStr "Unsupported LLM type <class 'retrieval.Embedder'>" ]};
              VDict {[ "Error" :=
                         VStr "Unsupported LLM type <class 'retrieval.Embedder'>" ]}]
        ]}.
Proof. vm_compute. reflexivity. Qed.

(** C7 fails in one branch: on a record that only the message adapter
    accepts, [run_llm] calls the text model without the tags it was
    given, where [_arun_llm] passes them on. *)
Theorem run_llm_drops_tags_in_text_fallback :
  (run_llm (IsBaseLLM echo_llm) chat_record (Some [0; 1]) (Some ["eval"])
     two_handlers).1
  = Ret (VObj "LLMResult" {[ "prompts" := str_list ["hi"]; "tags" := VNone ]})
  ∧ (_arun_llm (IsBaseLLM echo_llm) chat_record (Some ["eval"]) (Some [0; 1])
       two_handlers).1
    = Ret (VObj "LLMResult"
             {[ "prompts" := str_list ["hi"]; "tags" := str_list ["eval"] ]}).
Proof. split; vm_compute; reflexivity. Qed.

(** The echo model leaves the handlers alone. *)
Lemma echo_keeps_attributes example tags callbacks :
  keeps_attributes (invoke example (LanguageModel (IsBaseLLM echo_llm)) tags callbacks)
  ∧ keeps_attributes
      (ainvoke example (LanguageModel (IsBaseLLM echo_llm)) tags callbacks).
Proof.
  split; intros σ tracer;
    unfold invoke, ainvoke, run_llm, _arun_llm, try_except, mbind, M_bind, lift;
    cbn [llm_generate llm_agenerate echo_llm];
    (destruct (_get_prompts (ex_inputs example)) as [prompts|e];
     [unfold echo_generate; by destruct (world σ)|]);
    (destruct (except_InputFormatError e); [|done]);
    (destruct (_get_messages (ex_inputs example)) as [messages|e']; [|done]);
    (destruct (mapM get_buffer_string messages) as [buffers|e'']; [|done]);
    unfold echo_generate; by destruct (world σ).
Qed.

Lemma example_id_restored_witness :
  keeps_attributes
    (invoke example_1 (LanguageModel (IsBaseLLM echo_llm)) None (Some [0; 1]))
  ∧ keeps_attributes
      (ainvoke example_1 (LanguageModel (IsBaseLLM echo_llm)) None (Some [0; 1]))
  ∧ 0 ∈ default [] (Some [0; 1])
  ∧ example_id_of
      (run_llm_or_chain example_1 (LanguageModel (IsBaseLLM echo_llm)) 2 None
         (Some [0; 1]) two_handlers_cold).2 0
    = example_id_of two_handlers_cold 0.
Proof.
  split; [apply echo_keeps_attributes|].
  split; [apply echo_keeps_attributes|].
  split; [left|].
  apply (example_id_restored example_1 (LanguageModel (IsBaseLLM echo_llm)) 2 None
           (Some [0; 1]) two_handlers_cold 0).
  - apply echo_keeps_attributes.
  - apply echo_keeps_attributes.
  - left.
Defined.

(** The run that the witness is about binds handler 0 to the example,
    fails once, succeeds once, and puts the old binding back. *)
Lemma rebinding_run :
  (bind_example_id example_1 (Some [0; 1]) two_handlers_cold).2
  = State {[ 0 := Handler (Some (Some 1%N)); 1 := Handler None ]} 0
  ∧ run_llm_or_chain example_1 (LanguageModel (IsBaseLLM echo_llm)) 2
      (Some ["eval"]) (Some [0; 1]) two_handlers_cold
    = (Ret [ErrorRecord "model not ready";
            VObj "LLMResult"
              {[ "prompts" := str_list ["hi"]; "tags" := str_list ["eval"] ]}],
       State {[ 0 := Handler (Some (Some 7%N)); 1 := Handler None ]} 2).
Proof. split; vm_compute; reflexivity. Qed.

Lemma two_examples_distinct : NoDup (ex_id <$> [example_1; example_2]).
Proof.
  cbn. apply NoDup_cons. split; [|apply NoDup_singleton].
  intros Hin%list_elem_of_singleton. discriminate.
Qed.

(** Waiting returns at once on the small platform. *)
Lemma plain_wait_returns handler σ :
  ∃ σ', wait_for_futures handler σ = (Ret (), σ').
Proof. by exists σ. Qed.

Lemma results_one_entry_per_example_witness :
  Inj (=) (=) (uuid_str (Platform := plain_platform))
  ∧ NoDup (ex_id <$> [example_1; example_2])
  ∧ (∃ results σ',
       run_on_examples [example_1; example_2]
         (LanguageModel (IsBaseLLM echo_llm)) 2 None None (Some ["eval"]) None
         cold_start = (Ret results, σ')
       ∧ size results = 2)
  ∧ (1 ≤ 2)%Z
  ∧ arun_setup (LanguageModel (IsBaseLLM echo_llm)) 2 (Some "session") None None
      cold_start = (Ret (0, [Some 1; Some 2]), three_handlers)
  ∧ ∃ results σ',
      arun_on_examples [example_1; example_2]
        (LanguageModel (IsBaseLLM echo_llm)) 2 2 (Some "session") None
        (Some ["eval"]) None cold_start results σ'
      ∧ size results = 2.
Proof.
  assert (arun_setup (LanguageModel (IsBaseLLM echo_llm)) 2 (Some "session") None
            None cold_start
          = (Ret (0, [Some 1; Some 2]), three_handlers)) as Hsetup
    by (vm_compute; reflexivity).
  split; [apply pretty_N_inj|]. split; [apply two_examples_distinct|].
  destruct (results_one_entry_per_example [example_1; example_2]
              (LanguageModel (IsBaseLLM echo_llm)) 2 pretty_N_inj
              two_examples_distinct) as (Hsequential & _ & _ & _ & Hreturns).
  split; [|split; [lia|split; [exact Hsetup|]]].
  - destruct (run_on_examples [example_1; example_2]
                (LanguageModel (IsBaseLLM echo_llm)) 2 None None (Some ["eval"])
                None cold_start) as [[results|e] σ'] eqn:Hrun.
    + exists results, σ'. split; [reflexivity|].
      by destruct (Hsequential _ _ _ _ _ _ _ Hrun) as (_ & Hsize & _).
    + vm_compute in Hrun. discriminate.
  - destruct (Hreturns 2%Z (Some "session") None (Some ["eval"]) None cold_start
                0 [Some 1; Some 2] three_handlers ltac:(lia) plain_wait_returns
                Hsetup) as (results & σ' & Harun & _ & Hsize & _).
    exists results, σ'. split; [exact Harun|exact Hsize].
Defined.

(** A loop whose first attempt fails: the failure is in the list, and
    the second attempt is made. *)
Lemma attempt_failure_becomes_error_record_witness :
  ∃ outputs σ',
    run_llm_or_chain example_1 (LanguageModel (IsBaseLLM echo_llm)) 2 None
      (Some [0; 1]) two_handlers_cold = (Ret outputs, σ')
    ∧ length outputs = 2
    ∧ outputs !! 0 = Some (VDict {[ "Error" := VStr "model not ready" ]}).
Proof.
  destruct (attempt_failure_becomes_error_record example_1
              (LanguageModel (IsBaseLLM echo_llm)) 2 None (Some [0; 1])
              two_handlers_cold) as [(outputs & σ' & Hrun & Hlen & Hfail) _].
  exists outputs, σ'. split; [exact Hrun|]. split; [exact Hlen|].
  edestruct (Hfail 0) as [Hfirst _];
    [cbn; lia|vm_compute; reflexivity|exact Hfirst].
Defined.

(** A concurrent run at level 2 on two examples, after the first
    coroutine has passed the semaphore and taken a tracer. *)
Lemma at_most_n_in_flight_witness :
  ∃ evaluation_handler queue σ0 g,
    arun_setup (LanguageModel (IsBaseLLM echo_llm)) 2 (Some "session") None None
      cold_start = (Ret (evaluation_handler, queue), σ0)
    ∧ rtc (step (LanguageModel (IsBaseLLM echo_llm)) 1 None evaluation_handler)
        (gather_start 2 queue [example_1; example_2] σ0) g
    ∧ in_flight g = 1
    ∧ (Z.of_nat (in_flight g) ≤ 2)%Z.
Proof.
  assert (arun_setup (LanguageModel (IsBaseLLM echo_llm)) 2 (Some "session") None
            None cold_start
          = (Ret (0, [Some 1; Some 2]), three_handlers)) as Hsetup
    by (vm_compute; reflexivity).
  assert (∃ g,
            rtc (step (LanguageModel (IsBaseLLM echo_llm)) 1 None 0)
              (gather_start 2 [Some 1; Some 2] [example_1; example_2]
                 three_handlers) g
            ∧ in_flight g = 1) as (g & Hrtc & Hone).
  { eexists. split.
    - eapply rtc_l.
      { eapply (step_acquire _ _ _ _ _ 0 example_1); [reflexivity|cbn; lia]. }
      eapply rtc_l; [|apply rtc_refl].
      eapply (step_get _ _ _ _ _ 0 example_1);
        [reflexivity|reflexivity|vm_compute; reflexivity].
    - vm_compute. reflexivity. }
  exists 0, [Some 1; Some 2], three_handlers, g.
  split; [exact Hsetup|]. split; [exact Hrtc|]. split; [exact Hone|].
  apply (at_most_n_in_flight (LanguageModel (IsBaseLLM echo_llm)) 2 1
           (Some "session") None None None [example_1; example_2] cold_start
           0 [Some 1; Some 2] _ _ Hsetup Hrtc).
Defined.

End plain_runs.

(** * More about the invokers *)

Section invoker_facts.
Context {schema : Schema} {platform : Platform}.

Local Ltac run_invoker :=
  unfold run_llm, _arun_llm, try_except, mbind, M_bind, lift.

Lemma not_caught_InputFormatError e :
  exn_cls e ≠ InputFormatError → except_InputFormatError e = false.
Proof. intros Hcls. unfold except_InputFormatError. by rewrite bool_decide_eq_false_2. Qed.

Lemma arun_llm_text_first llm inputs callbacks tags prompts σ :
  _get_prompts inputs = Ret prompts →
  (∀ e σ', llm_agenerate llm prompts callbacks tags σ = (Raise e, σ') →
           exn_cls e ≠ InputFormatError) →
  _arun_llm (IsBaseLLM llm) inputs tags callbacks σ
  = llm_agenerate llm prompts callbacks tags σ.
Proof.
  intros Hprompts Hcall. run_invoker. rewrite Hprompts.
  destruct (llm_agenerate llm prompts callbacks tags σ) as [[output|e] σ'] eqn:Hgen;
    [done|].
  rewrite not_caught_InputFormatError; [done|]. by eapply Hcall.
Qed.

Lemma arun_llm_chat_first llm inputs callbacks tags messages σ :
  _get_messages inputs = Ret messages →
  (∀ e σ', chat_agenerate llm messages callbacks tags σ = (Raise e, σ') →
           exn_cls e ≠ InputFormatError) →
  _arun_llm (IsBaseChatModel llm) inputs tags callbacks σ
  = chat_agenerate llm messages callbacks tags σ.
Proof.
  intros Hmessages Hcall. run_invoker. rewrite Hmessages.
  destruct (chat_agenerate llm messages callbacks tags σ) as [[output|e] σ'] eqn:Hgen;
    [done|].
  rewrite not_caught_InputFormatError; [done|]. by eapply Hcall.
Qed.

Lemma arun_llm_chat_fallback llm inputs callbacks tags msg prompts σ :
  _get_messages inputs = Raise (Exn InputFormatError msg) →
  _get_prompts inputs = Ret prompts →
  _arun_llm (IsBaseChatModel llm) inputs tags callbacks σ
  = chat_agenerate llm ((λ prompt, [HumanMessage prompt]) <$> prompts)
      callbacks tags σ.
Proof. intros Hmessages Hprompts. run_invoker. by rewrite Hmessages, Hprompts. Qed.

(** X1. As long as the model's own call does not raise
    [InputFormatError], [_arun_llm] calls the model exactly once in each
    of its four branches, with the resolved input, the handlers and the
    tags: a text model with the prompts, or else with the flattened
    messages; a chat model with the messages, or else with each prompt
    wrapped as one human message. *)
Theorem arun_llm_passes_tags (text : BaseLLM) (chat : BaseChatModel)
    inputs tags callbacks σ :
  (∀ prompts e σ',
     llm_agenerate text prompts callbacks tags σ = (Raise e, σ') →
     exn_cls e ≠ InputFormatError) →
  (∀ messages e σ',
     chat_agenerate chat messages callbacks tags σ = (Raise e, σ') →
     exn_cls e ≠ InputFormatError) →
  (∀ prompts,
     _get_prompts inputs = Ret prompts →
     _arun_llm (IsBaseLLM text) inputs tags callbacks σ
     = llm_agenerate text prompts callbacks tags σ)
  ∧ (∀ msg batches buffers,
       _get_prompts inputs = Raise (Exn InputFormatError msg) →
       _get_messages inputs = Ret batches →
       mapM get_buffer_string batches = Ret buffers →
       _arun_llm (IsBaseLLM text) inputs tags callbacks σ
       = llm_agenerate text buffers callbacks tags σ)
  ∧ (∀ messages,
       _get_messages inputs = Ret messages →
       _arun_llm (IsBaseChatModel chat) inputs tags callbacks σ
       = chat_agenerate chat messages callbacks tags σ)
  ∧ (∀ msg prompts,
       _get_messages inputs = Raise (Exn InputFormatError msg) →
       _get_prompts inputs = Ret prompts →
       _arun_llm (IsBaseChatModel chat) inputs tags callbacks σ
       = chat_agenerate chat ((λ prompt, [HumanMessage prompt]) <$> prompts)
           callbacks tags σ).
Proof.
  intros Htext Hchat. split_and!.
  - intros prompts Hprompts. apply arun_llm_text_first; [done|]. apply Htext.
  - intros msg batches buffers. apply arun_llm_text_fallback.
  - intros messages Hmessages. apply arun_llm_chat_first; [done|]. apply Hchat.
  - intros msg prompts. apply arun_llm_chat_fallback.
Qed.

(** X2. Under the same proviso [run_llm] calls the model exactly once in
    each of its four branches, with the resolved input and the handlers;
    it passes the tags in three of them, and calls a text model with the
    flattened messages without tags. *)
Theorem run_llm_calls_model (text : BaseLLM) (chat : BaseChatModel)
    inputs tags callbacks σ :
  (∀ prompts e σ',
     llm_generate text prompts callbacks tags σ = (Raise e, σ') →
     exn_cls e ≠ InputFormatError) →
  (∀ messages e σ',
     chat_generate chat messages callbacks tags σ = (Raise e, σ') →
     exn_cls e ≠ InputFormatError) →
  (∀ prompts,
     _get_prompts inputs = Ret prompts →
     run_llm (IsBaseLLM text) inputs callbacks tags σ
     = llm_generate text prompts callbacks tags σ)
  ∧ (∀ msg batches buffers,
       _get_prompts inputs = Raise (Exn InputFormatError msg) →
       _get_messages inputs = Ret batches →
       mapM get_buffer_string batches = Ret buffers →
       run_llm (IsBaseLLM text) inputs callbacks tags σ
       = llm_generate text buffers callbacks None σ)
  ∧ (∀ messages,
       _get_messages inputs = Ret messages →
       run_llm (IsBaseChatModel chat) inputs callbacks tags σ
       = chat_generate chat messages callbacks tags σ)
  ∧ (∀ msg prompts,
       _get_messages inputs = Raise (Exn InputFormatError msg) →
       _get_prompts inputs = Ret prompts →
       run_llm (IsBaseChatModel chat) inputs callbacks tags σ
       = chat_generate chat ((λ prompt, [HumanMessage prompt]) <$> prompts)
           callbacks tags σ).
Proof.
  intros Htext Hchat. split_and!.
  - intros prompts Hprompts. apply run_llm_text_first; [done|]. apply Htext.
  - intros msg batches buffers. apply run_llm_text_fallback.
  - intros messages Hmessages. apply run_llm_chat_first; [done|]. apply Hchat.
  - intros msg prompts. apply run_llm_chat_fallback.
Qed.

(** X3. When both adapters reject the record, neither invoker calls the
    model: the state is as before, and the exception raised is that of
    the adapter tried last, [_get_messages] for a text model and
    [_get_prompts] for a chat model. *)
Theorem rejected_record_skips_model (text : BaseLLM) (chat : BaseChatModel)
    inputs tags callbacks σ msg_prompts msg_messages :
  _get_prompts inputs = Raise (Exn InputFormatError msg_prompts) →
  _get_messages inputs = Raise (Exn InputFormatError msg_messages) →
  run_llm (IsBaseLLM text) inputs callbacks tags σ
  = (Raise (Exn InputFormatError msg_messages), σ)
  ∧ _arun_llm (IsBaseLLM text) inputs tags callbacks σ
    = (Raise (Exn InputFormatError msg_messages), σ)
  ∧ run_llm (IsBaseChatModel chat) inputs callbacks tags σ
    = (Raise (Exn InputFormatError msg_prompts), σ)
  ∧ _arun_llm (IsBaseChatModel chat) inputs tags callbacks σ
    = (Raise (Exn InputFormatError msg_prompts), σ).
Proof.
  intros Hprompts Hmessages.
  split_and!; run_invoker; by rewrite ?Hprompts, ?Hmessages, ?Hprompts.
Qed.

(** X4. A chat model gets no second chance when its messages fail for
    another reason than their format: an exception of [_get_messages]
    other than [InputFormatError] (a message-dict that does not
    deserialize) leaves both invokers as it is, without the prompts
    being tried and without a call of the model. *)
Theorem broken_messages_not_retried (chat : BaseChatModel)
    inputs tags callbacks σ e :
  _get_messages inputs = Raise e →
  exn_cls e ≠ InputFormatError →
  run_llm (IsBaseChatModel chat) inputs callbacks tags σ = (Raise e, σ)
  ∧ _arun_llm (IsBaseChatModel chat) inputs tags callbacks σ = (Raise e, σ).
Proof.
  intros Hmessages Hcls.
  split; run_invoker; by rewrite Hmessages, not_caught_InputFormatError.
Qed.

(** X5. The [try] of the invokers covers the call of the model too: when
    a text model is called with the prompts and itself raises
    [InputFormatError], the fallback runs from the state that call left,
    and the model is called a second time, with the flattened messages
    (by [run_llm] without the tags). *)
Theorem model_format_error_runs_fallback (text : BaseLLM)
    inputs tags callbacks σ prompts batches buffers msg σ1 :
  _get_prompts inputs = Ret prompts →
  _get_messages inputs = Ret batches →
  mapM get_buffer_string batches = Ret buffers →
  (llm_generate text prompts callbacks tags σ
     = (Raise (Exn InputFormatError msg), σ1) →
   run_llm (IsBaseLLM text) inputs callbacks tags σ
   = llm_generate text buffers callbacks None σ1)
  ∧ (llm_agenerate text prompts callbacks tags σ
       = (Raise (Exn InputFormatError msg), σ1) →
     _arun_llm (IsBaseLLM text) inputs tags callbacks σ
     = llm_agenerate text buffers callbacks tags σ1).
Proof.
  intros Hprompts Hmessages Hbuffers.
  split; intros Hcall; run_invoker; by rewrite Hprompts, Hcall, Hmessages, Hbuffers.
Qed.

(** X6. For a model whose blocking and suspendable calls behave alike,
    the two invokers behave alike on every record and state when the
    model is a chat model, and when it is a text model called without
    tags. *)
Theorem invokers_agree (text : BaseLLM) (chat : BaseChatModel) :
  (∀ prompts callbacks tags σ,
     llm_generate text prompts callbacks tags σ
     = llm_agenerate text prompts callbacks tags σ) →
  (∀ messages callbacks tags σ,
     chat_generate chat messages callbacks tags σ
     = chat_agenerate chat messages callbacks tags σ) →
  (∀ inputs callbacks tags σ,
     run_llm (IsBaseChatModel chat) inputs callbacks tags σ
     = _arun_llm (IsBaseChatModel chat) inputs tags callbacks σ)
  ∧ (∀ inputs callbacks σ,
       run_llm (IsBaseLLM text) inputs callbacks None σ
       = _arun_llm (IsBaseLLM text) inputs None callbacks σ).
Proof.
  intros Htext Hchat. split.
  - intros inputs callbacks tags σ. run_invoker.
    destruct (_get_messages inputs) as [messages|e].
    + rewrite Hchat.
      destruct (chat_agenerate chat messages callbacks tags σ) as [[?|e] σ']; [done|].
      destruct (except_InputFormatError e); [|done].
      destruct (_get_prompts inputs); [apply Hchat|done].
    + destruct (except_InputFormatError e); [|done].
      destruct (_get_prompts inputs); [apply Hchat|done].
  - intros inputs callbacks σ. run_invoker.
    destruct (_get_prompts inputs) as [prompts|e].
    + rewrite Htext.
      destruct (llm_agenerate text prompts callbacks None σ) as [[?|e] σ']; [done|].
      destruct (except_InputFormatError e); [|done].
      destruct (_get_messages inputs) as [batches|?]; [|done].
      destruct (mapM get_buffer_string batches); [apply Htext|done].
    + destruct (except_InputFormatError e); [|done].
      destruct (_get_messages inputs) as [batches|?]; [|done].
      destruct (mapM get_buffer_string batches); [apply Htext|done].
Qed.

End invoker_facts.

Section plain_invokers.
#[local] Existing Instance plain_schema.
#[local] Existing Instance plain_platform.

Lemma echo_no_format_error prompts callbacks tags σ e σ' :
  echo_generate prompts callbacks tags σ = (Raise e, σ') →
  exn_cls e ≠ InputFormatError.
Proof.
  unfold echo_generate. destruct (world σ); intros Hcall; [|discriminate].
  injection Hcall as <- _. discriminate.
Qed.

Lemma echo_chat_no_format_error messages callbacks tags σ e σ' :
  echo_chat_generate messages callbacks tags σ = (Raise e, σ') →
  exn_cls e ≠ InputFormatError.
Proof. discriminate. Qed.

Lemma arun_llm_passes_tags_witness :
  (∀ prompts e σ',
     llm_agenerate echo_llm prompts (Some [0; 1]) (Some ["eval"]) two_handlers
       = (Raise e, σ') →
     exn_cls e ≠ InputFormatError)
  ∧ (∀ messages e σ',
       chat_agenerate echo_chat messages (Some [0; 1]) (Some ["eval"]) two_handlers
         = (Raise e, σ') →
       exn_cls e ≠ InputFormatError)
  ∧ _arun_llm (IsBaseLLM echo_llm) chat_record (Some ["eval"]) (Some [0; 1])
      two_handlers
    = llm_agenerate echo_llm ["hi"] (Some [0; 1]) (Some ["eval"]) two_handlers.
Proof.
  split; [intros ???; apply echo_no_format_error|].
  split; [intros ???; apply echo_chat_no_format_error|].
  destruct (arun_llm_passes_tags echo_llm echo_chat chat_record
              (Some ["eval"]) (Some [0; 1]) two_handlers)
    as (_ & Hfallback & _).
  - intros ???. apply echo_no_format_error.
  - intros ???. apply echo_chat_no_format_error.
  - eapply Hfallback; vm_compute; reflexivity.
Defined.

Lemma run_llm_calls_model_witness :
  (∀ prompts e σ',
     llm_generate echo_llm prompts (Some [0; 1]) (Some ["eval"]) two_handlers
       = (Raise e, σ') →
     exn_cls e ≠ InputFormatError)
  ∧ (∀ messages e σ',
       chat_generate echo_chat messages (Some [0; 1]) (Some ["eval"]) two_handlers
         = (Raise e, σ') →
       exn_cls e ≠ InputFormatError)
  ∧ run_llm (IsBaseChatModel echo_chat) (ex_inputs example_1) (Some [0; 1])
      (Some ["eval"]) two_handlers
    = chat_generate echo_chat [[HumanMessage "hi"]] (Some [0; 1]) (Some ["eval"])
        two_handlers.
Proof.
  split; [intros ???; apply echo_no_format_error|].
  split; [intros ???; apply echo_chat_no_format_error|].
  destruct (run_llm_calls_model echo_llm echo_chat (ex_inputs example_1)
              (Some ["eval"]) (Some [0; 1]) two_handlers)
    as (_ & _ & _ & Hfallback).
  - intros ???. apply echo_no_format_error.
  - intros ???. apply echo_chat_no_format_error.
  - eapply (Hfallback _ ["hi"]); vm_compute; reflexivity.
Defined.

Lemma rejected_record_skips_model_witness :
  _get_prompts odd_record
  = Raise (Exn InputFormatError
             "LLM Run expects 'prompt' or 'prompts' in inputs. Got {...}")
  ∧ _get_messages odd_record
    = Raise (Exn InputFormatError "Chat Run expects 'messages' in inputs. Got {...}")
  ∧ run_llm (IsBaseLLM echo_llm) odd_record (Some [0; 1]) None two_handlers
    = (Raise (Exn InputFormatError
                "Chat Run expects 'messages' in inputs. Got {...}"),
       two_handlers).
Proof.
  assert (_get_prompts odd_record
          = Raise (Exn InputFormatError
                     "LLM Run expects 'prompt' or 'prompts' in inputs. Got {...}"))
    as Hprompts by (vm_compute; reflexivity).
  assert (_get_messages odd_record
          = Raise (Exn InputFormatError
                     "Chat Run expects 'messages' in inputs. Got {...}"))
    as Hmessages by (vm_compute; reflexivity).
  split; [exact Hprompts|]. split; [exact Hmessages|].
  by destruct (rejected_record_skips_model echo_llm echo_chat odd_record None
                 (Some [0; 1]) two_handlers _ _ Hprompts Hmessages) as [Htext _].
Defined.

Lemma broken_messages_not_retried_witness :
  _get_messages undeserializable_record
  = Raise (Exn (OtherException "TypeError") "message is no dict")
  ∧ OtherException "TypeError" ≠ InputFormatError
  ∧ run_llm (IsBaseChatModel echo_chat) undeserializable_record (Some [0; 1]) None
      two_handlers
    = (Raise (Exn (OtherException "TypeError") "message is no dict"), two_handlers).
Proof.
  assert (_get_messages undeserializable_record
          = Raise (Exn (OtherException "TypeError") "message is no dict"))
    as Hmessages by (vm_compute; reflexivity).
  split; [exact Hmessages|]. split; [discriminate|].
  by destruct (broken_messages_not_retried echo_chat undeserializable_record None
                 (Some [0; 1]) two_handlers _ Hmessages ltac:(discriminate))
    as [Hsync _].
Defined.

Lemma model_format_error_runs_fallback_witness :
  _get_prompts both_record = Ret ["hi"]
  ∧ _get_messages both_record
    = Ret [[VObj "BaseMessage"
              {[ "type" := VStr "human";
                 "data" := VDict {[ "content" := VStr "hello" ]} ]}]]
  ∧ mapM get_buffer_string
      [[VObj "BaseMessage"
          {[ "type" := VStr "human";
             "data" := VDict {[ "content" := VStr "hello" ]} ]}]]
    = Ret ["hello"]
  ∧ llm_generate picky_llm ["hi"] None (Some ["eval"]) cold_start
    = (Raise (Exn InputFormatError "prompt rejected by the model"), no_handlers)
  ∧ (run_llm (IsBaseLLM picky_llm) both_record None (Some ["eval"]) cold_start).1
    = Ret (VObj "LLMResult" {[ "prompts" := str_list ["hello"]; "tags" := VNone ]}).
Proof.
  assert (_get_prompts both_record = Ret ["hi"]) as Hprompts
    by (vm_compute; reflexivity).
  assert (_get_messages both_record
          = Ret [[VObj "BaseMessage"
                    {[ "type" := VStr "human";
                       "data" := VDict {[ "content" := VStr "hello" ]} ]}]])
    as Hmessages by (vm_compute; reflexivity).
  assert (mapM get_buffer_string
            [[VObj "BaseMessage"
                {[ "type" := VStr "human";
                   "data" := VDict {[ "content" := VStr "hello" ]} ]}]]
          = Ret ["hello"]) as Hbuffers by (vm_compute; reflexivity).
  assert (llm_generate picky_llm ["hi"] None (Some ["eval"]) cold_start
          = (Raise (Exn InputFormatError "prompt rejected by the model"),
             no_handlers)) as Hcall by (vm_compute; reflexivity).
  split; [exact Hprompts|]. split; [exact Hmessages|]. split; [exact Hbuffers|].
  split; [exact Hcall|].
  destruct (model_format_error_runs_fallback picky_llm both_record (Some ["eval"])
              None cold_start ["hi"] _ ["hello"] "prompt rejected by the model"
              no_handlers Hprompts Hmessages Hbuffers) as [Hsync _].
  rewrite (Hsync Hcall). vm_compute. reflexivity.
Defined.

Lemma invokers_agree_witness :
  (∀ prompts callbacks tags σ,
     llm_generate echo_llm prompts callbacks tags σ
     = llm_agenerate echo_llm prompts callbacks tags σ)
  ∧ (∀ messages callbacks tags σ,
       chat_generate echo_chat messages callbacks tags σ
       = chat_agenerate echo_chat messages callbacks tags σ)
  ∧ run_llm (IsBaseChatModel echo_chat) chat_record None (Some ["eval"]) cold_start
    = _arun_llm (IsBaseChatModel echo_chat) chat_record (Some ["eval"]) None
        cold_start.
Proof.
  split; [reflexivity|]. split; [reflexivity|].
  by destruct (invokers_agree echo_llm echo_chat
                 ltac:(reflexivity) ltac:(reflexivity)) as [Hchat _].
Defined.

End plain_invokers.

(** * More about the repetition loop *)

Section binding_facts.
Context {schema : Schema} {platform : Platform}.

Lemma rebind_world σ tracer v : world (rebind σ tracer v) = world σ.
Proof. unfold rebind. by case_bool_decide. Qed.

Lemma rebind_all_world (l : list (option UUID * nat)) σ :
  world (foldl (λ σ '(v, t), rebind σ t v) σ l) = world σ.
Proof.
  revert σ. induction l as [|[v t] l IH]; intros σ; [done|].
  cbn [foldl]. by rewrite IH, rebind_world.
Qed.

Lemma bind_as_rebind_all (v : option UUID) (l : list nat) σ :
  foldl (λ σ tracer, rebind σ tracer v) σ l
  = foldl (λ σ '(v, t), rebind σ t v) σ ((λ t, (v, t)) <$> l).
Proof.
  revert σ. induction l as [|t l IH]; intros σ; [done|]. cbn. apply IH.
Qed.

Lemma rebind_pairs_snd {A} (f : nat → A) (l : list nat) :
  ((λ t, (f t, t)) <$> l).*2 = l.
Proof. rewrite <- list_fmap_compose. apply list_fmap_id. Qed.

Lemma bind_example_id_world example callbacks σ :
  world (bind_example_id example callbacks σ).2 = world σ.
Proof.
  rewrite bind_example_id_run. cbn [snd]. rewrite bind_as_rebind_all.
  apply rebind_all_world.
Qed.

Lemma bind_example_id_elsewhere example callbacks σ tracer :
  tracer ∉ default [] callbacks →
  example_id_of (bind_example_id example callbacks σ).2 tracer
  = example_id_of σ tracer.
Proof.
  intros Hnotin. rewrite bind_example_id_run. cbn [snd].
  rewrite bind_as_rebind_all. apply rebind_all_other.
  by rewrite rebind_pairs_snd.
Qed.

(** X7. Binding never raises and returns what [getattr] read; it
    leaves the world alone, binds every handler of the callbacks that
    has an [example_id] to the identifier of the example, gives no
    handler the attribute, and writes to no handler outside the
    callbacks. *)
Theorem bind_example_id_binds example callbacks σ :
  bind_example_id example callbacks σ
  = (Ret (if truthy callbacks
          then Some ((λ tracer, default None (example_id_of σ tracer))
                       <$> default [] callbacks)
          else None),
     (bind_example_id example callbacks σ).2)
  ∧ world (bind_example_id example callbacks σ).2 = world σ
  ∧ (∀ tracer,
       tracer ∈ default [] callbacks →
       example_id_of (bind_example_id example callbacks σ).2 tracer
       = if bool_decide (is_Some (example_id_of σ tracer))
         then Some (Some (ex_id example)) else None)
  ∧ (∀ tracer,
       tracer ∉ default [] callbacks →
       example_id_of (bind_example_id example callbacks σ).2 tracer
       = example_id_of σ tracer).
Proof.
  rewrite bind_example_id_run. cbn [snd]. rewrite bind_as_rebind_all.
  split_and!.
  - done.
  - apply rebind_all_world.
  - intros tracer Hin.
    by rewrite (rebind_all_saved (λ _, Some (ex_id example))).
  - intros tracer Hnotin. apply rebind_all_other. by rewrite rebind_pairs_snd.
Qed.

(** What restoring makes of a state that has the attributes where the
    state before binding had them, and that agrees with it outside the
    callbacks: the [example_id] of every handler is as before binding. *)
Lemma restore_gives_back callbacks σ σ2 tracer :
  (∀ t, is_Some (example_id_of σ2 t) ↔ is_Some (example_id_of σ t)) →
  (∀ t, t ∉ default [] callbacks → example_id_of σ2 t = example_id_of σ t) →
  example_id_of
    (foldl (λ σ '(v, t), rebind σ t v) σ2
       (zip ((λ t, default None (example_id_of σ t)) <$> default [] callbacks)
          (default [] callbacks))) tracer
  = example_id_of σ tracer.
Proof.
  intros Hhas Hout. rewrite zip_fmap_self.
  destruct (decide (tracer ∈ default [] callbacks)) as [Hin|Hnotin].
  - rewrite rebind_all_saved by done.
    rewrite (bool_decide_ext _ _ (Hhas tracer)).
    case_bool_decide as Hsome.
    + by destruct Hsome as [v ->].
    + destruct (example_id_of σ tracer); [|done]. destruct Hsome. eauto.
  - rewrite rebind_all_other by by rewrite rebind_pairs_snd. by apply Hout.
Qed.

(** The shape both loops share, when nothing is to be repeated. *)
Lemma no_repetitions example (call : M value) (n : Z) callbacks σ :
  (n ≤ 0)%Z →
  ∃ σ',
    (previous_example_ids ← bind_example_id example callbacks;
     outputs ← for_range (Z.to_nat n) (attempt call) [];
     _ ← restore_example_id callbacks previous_example_ids;
     mret outputs) σ = (Ret [], σ')
    ∧ world σ' = world σ
    ∧ ∀ tracer, example_id_of σ' tracer = example_id_of σ tracer.
Proof.
  intros Hn. rewrite repetition_loop_run. cbn zeta.
  replace (Z.to_nat n) with 0 by lia. cbn [seq fmap list_fmap attempt_state Nat.iter].
  eexists. split; [reflexivity|].
  pose proof (bind_example_id_world example callbacks σ) as Hworld.
  pose proof (bind_example_id_elsewhere example callbacks σ) as Hout.
  split.
  - by rewrite rebind_all_world.
  - intros tracer. apply restore_gives_back; [|exact Hout].
    intros t. apply bind_example_id_is_Some.
Qed.

(** X8. With a repetition count of zero or less both loops return the
    empty list without a call of the task, and leave the world and the
    [example_id] of every handler as they were. *)
Theorem no_repetitions_no_effect example task (n : Z) tags callbacks σ :
  (n ≤ 0)%Z →
  (∃ σ',
     run_llm_or_chain example task n tags callbacks σ = (Ret [], σ')
     ∧ world σ' = world σ
     ∧ ∀ tracer, example_id_of σ' tracer = example_id_of σ tracer)
  ∧ (∃ σ',
       _arun_llm_or_chain example task n tags callbacks σ = (Ret [], σ')
       ∧ world σ' = world σ
       ∧ ∀ tracer, example_id_of σ' tracer = example_id_of σ tracer).
Proof. intros Hn. split; by apply no_repetitions. Qed.

Lemma attempt_state_example_id (call : M value) n σ tracer :
  (∀ σ tracer, example_id_of (call σ).2 tracer = example_id_of σ tracer) →
  example_id_of (attempt_state call n σ) tracer = example_id_of σ tracer.
Proof.
  intros Hcall. induction n as [|n IH]; [done|].
  change (attempt_state call (S n) σ) with (call (attempt_state call n σ)).2.
  by rewrite Hcall.
Qed.

Lemma loop_leaves_handlers example (call : M value) n callbacks σ tracer :
  (∀ σ tracer, example_id_of (call σ).2 tracer = example_id_of σ tracer) →
  example_id_of
    ((previous_example_ids ← bind_example_id example callbacks;
      outputs ← for_range n (attempt call) [];
      _ ← restore_example_id callbacks previous_example_ids;
      mret outputs) σ).2 tracer
  = example_id_of σ tracer.
Proof.
  intros Hcall. rewrite repetition_loop_run. cbn [snd].
  pose proof (bind_example_id_elsewhere example callbacks σ) as Hout.
  apply restore_gives_back.
  - intros t. rewrite attempt_state_example_id by done.
    apply bind_example_id_is_Some.
  - intros t Ht. rewrite attempt_state_example_id by done. by apply Hout.
Qed.

(** X9. When the calls of the task leave every [example_id] as it is,
    so do both loops as a whole, for the handlers of the callbacks and
    for all others: the binding to the example is gone without a trace
    once the loop has returned. *)
Theorem loop_leaves_all_handlers example task (n : Z) tags callbacks σ :
  (∀ σ tracer,
     example_id_of (invoke example task tags callbacks σ).2 tracer
     = example_id_of σ tracer) →
  (∀ σ tracer,
     example_id_of (ainvoke example task tags callbacks σ).2 tracer
     = example_id_of σ tracer) →
  ∀ tracer,
    example_id_of (run_llm_or_chain example task n tags callbacks σ).2 tracer
    = example_id_of σ tracer
    ∧ example_id_of (_arun_llm_or_chain example task n tags callbacks σ).2 tracer
      = example_id_of σ tracer.
Proof.
  intros Hsync Hasync tracer. split; by apply loop_leaves_handlers.
Qed.

(** X10. A chain constructor that raises is caught like a failing call:
    when it raises [e] in every state, whatever state it leaves, both
    loops return [n] copies of the dict [{"Error": str(e)}]. *)
Theorem failing_factory_recorded example (factory : M Chain) e (n : Z)
    tags callbacks σ :
  (∀ σ, (factory σ).1 = Raise e) →
  (∃ σ',
     run_llm_or_chain example (ChainFactory factory) n tags callbacks σ
     = (Ret (replicate (Z.to_nat n) (VDict {[ "Error" := VStr (exn_str e) ]})),
        σ'))
  ∧ (∃ σ',
       _arun_llm_or_chain example (ChainFactory factory) n tags callbacks σ
       = (Ret (replicate (Z.to_nat n) (VDict {[ "Error" := VStr (exn_str e) ]})),
          σ')).
Proof.
  intros Hfactory.
  split; apply (loop_always_raises example _ e); intros σ0;
    unfold invoke, ainvoke, mbind, M_bind; specialize (Hfactory σ0);
    destruct (factory σ0) as [[chain|e'] σ1]; cbn [fst] in *;
    [discriminate|congruence|discriminate|congruence].
Qed.

Lemma run_llm_empty_record llm callbacks tags σ :
  run_llm llm ∅ callbacks tags σ
  = (Raise (match llm with
            | OtherLanguageModel cls =>
                Exn ValueError ("Unsupported LLM type " +:+ type_repr cls)
            | _ => Exn InputFormatError "Inputs should not be empty."
            end), σ)
  ∧ _arun_llm llm ∅ tags callbacks σ
    = (Raise (match llm with
              | OtherLanguageModel cls =>
                  Exn ValueError ("Unsupported LLM type " +:+ type_repr cls)
              | _ => Exn InputFormatError "Inputs should not be empty."
              end), σ).
Proof.
  assert (_get_prompts ∅ = Raise (Exn InputFormatError "Inputs should not be empty."))
    as Hprompts.
  { unfold _get_prompts. by rewrite bool_decide_eq_true_2 by apply map_size_empty. }
  assert (_get_messages ∅ = Raise (Exn InputFormatError "Inputs should not be empty."))
    as Hmessages.
  { unfold _get_messages, raw_messages.
    by rewrite bool_decide_eq_true_2 by apply map_size_empty. }
  destruct llm as [text|chat|cls]; [| |done];
    split; unfold run_llm, _arun_llm, try_except, mbind, M_bind, lift;
    by rewrite ?Hprompts, ?Hmessages, ?Hprompts.
Qed.

Lemma attempt_state_quiet (call : M value) n σ :
  (∀ σ, (call σ).2 = σ) → attempt_state call n σ = σ.
Proof.
  intros Hcall. induction n as [|n IH]; [done|].
  change (attempt_state call (S n) σ) with (call (attempt_state call n σ)).2.
  by rewrite Hcall.
Qed.

(** The loop around a call that raises [e] and leaves the state alone. *)
Lemma loop_quiet example (call : M value) e n callbacks σ :
  (∀ σ, call σ = (Raise e, σ)) →
  ∃ σ',
    (previous_example_ids ← bind_example_id example callbacks;
     outputs ← for_range n (attempt call) [];
     _ ← restore_example_id callbacks previous_example_ids;
     mret outputs) σ
    = (Ret (replicate n (VDict {[ "Error" := VStr (exn_str e) ]})), σ')
    ∧ world σ' = world σ
    ∧ ∀ tracer, example_id_of σ' tracer = example_id_of σ tracer.
Proof.
  intros Hcall.
  destruct (loop_always_raises example call e n callbacks σ) as [σ' Hrun].
  { intros σ0. by rewrite Hcall. }
  exists σ'. split; [exact Hrun|].
  assert (σ' = ((previous_example_ids ← bind_example_id example callbacks;
                 outputs ← for_range n (attempt call) [];
                 _ ← restore_example_id callbacks previous_example_ids;
                 mret outputs) σ).2) as -> by by rewrite Hrun.
  split.
  - rewrite repetition_loop_run. cbn [snd]. rewrite rebind_all_world.
    rewrite attempt_state_quiet by (intros σ0; by rewrite Hcall).
    apply bind_example_id_world.
  - intros tracer. apply loop_leaves_handlers. intros σ0 t. by rewrite Hcall.
Qed.

(** X11. On an example whose record has no fields neither a text model
    nor a chat model is ever called, whatever the model would do when
    called: both invokers raise [InputFormatError] with the state as it
    was, and both loops return [n] copies of the dict
    [{"Error": "Inputs should not be empty."}] with the world and the
    [example_id] of every handler as they were. *)
Theorem empty_record_never_calls_model example (text : BaseLLM)
    (chat : BaseChatModel) (n : Z) tags callbacks σ llm :
  ex_inputs example = ∅ →
  llm = IsBaseLLM text ∨ llm = IsBaseChatModel chat →
  (∀ σ,
     run_llm llm (ex_inputs example) callbacks tags σ
     = (Raise (Exn InputFormatError "Inputs should not be empty."), σ)
     ∧ _arun_llm llm (ex_inputs example) tags callbacks σ
       = (Raise (Exn InputFormatError "Inputs should not be empty."), σ))
  ∧ (∃ σ',
       run_llm_or_chain example (LanguageModel llm) n tags callbacks σ
       = (Ret (replicate (Z.to_nat n)
                 (VDict {[ "Error" := VStr "Inputs should not be empty." ]})),
          σ')
       ∧ world σ' = world σ
       ∧ ∀ tracer, example_id_of σ' tracer = example_id_of σ tracer)
  ∧ (∃ σ',
       _arun_llm_or_chain example (LanguageModel llm) n tags callbacks σ
       = (Ret (replicate (Z.to_nat n)
                 (VDict {[ "Error" := VStr "Inputs should not be empty." ]})),
          σ')
       ∧ world σ' = world σ
       ∧ ∀ tracer, example_id_of σ' tracer = example_id_of σ tracer).
Proof.
  intros Hempty Hllm.
  assert (∀ σ,
            run_llm llm (ex_inputs example) callbacks tags σ
            = (Raise (Exn InputFormatError "Inputs should not be empty."), σ)
            ∧ _arun_llm llm (ex_inputs example) tags callbacks σ
              = (Raise (Exn InputFormatError "Inputs should not be empty."), σ))
    as Hraise.
  { intros σ0. rewrite Hempty.
    destruct (run_llm_empty_record llm callbacks tags σ0) as [Hsync Hasync].
    by destruct Hllm as [-> | ->]. }
  split; [exact Hraise|]. split.
  - apply (loop_quiet example _
             (Exn InputFormatError "Inputs should not be empty.")).
    intros σ0. apply Hraise.
  - apply (loop_quiet example _
             (Exn InputFormatError "Inputs should not be empty.")).
    intros σ0. apply Hraise.
Qed.

End binding_facts.

Section plain_loops.
#[local] Existing Instance plain_schema.
#[local] Existing Instance plain_platform.

Lemma no_repetitions_no_effect_witness :
  (-1 ≤ 0)%Z
  ∧ ∃ σ',
      run_llm_or_chain example_1 (LanguageModel (IsBaseLLM echo_llm)) (-1) None
        (Some [0; 1]) two_handlers_cold = (Ret [], σ')
      ∧ world σ' = world two_handlers_cold.
Proof.
  split; [lia|].
  destruct (no_repetitions_no_effect example_1 (LanguageModel (IsBaseLLM echo_llm))
              (-1) None (Some [0; 1]) two_handlers_cold)
    as [(σ' & Hrun & Hworld & _) _]; [lia|].
  exists σ'. by split.
Defined.

Lemma echo_leaves_handlers example tags callbacks σ tracer :
  example_id_of
    (invoke example (LanguageModel (IsBaseLLM echo_llm)) tags callbacks σ).2 tracer
  = example_id_of σ tracer
  ∧ example_id_of
      (ainvoke example (LanguageModel (IsBaseLLM echo_llm)) tags callbacks σ).2
      tracer
    = example_id_of σ tracer.
Proof.
  split;
    unfold invoke, ainvoke, run_llm, _arun_llm, try_except, mbind, M_bind, lift;
    cbn [llm_generate llm_agenerate echo_llm];
    (destruct (_get_prompts (ex_inputs example)) as [prompts|e];
     [unfold echo_generate; by destruct (world σ)|]);
    (destruct (except_InputFormatError e); [|done]);
    (destruct (_get_messages (ex_inputs example)) as [messages|e']; [|done]);
    (destruct (mapM get_buffer_string messages) as [buffers|e'']; [|done]);
    unfold echo_generate; by destruct (world σ).
Qed.

Lemma loop_leaves_all_handlers_witness :
  (∀ σ tracer,
     example_id_of
       (invoke example_1 (LanguageModel (IsBaseLLM echo_llm)) None (Some [0]) σ).2
       tracer
     = example_id_of σ tracer)
  ∧ (∀ σ tracer,
       example_id_of
         (ainvoke example_1 (LanguageModel (IsBaseLLM echo_llm)) None (Some [0])
            σ).2 tracer
       = example_id_of σ tracer)
  ∧ example_id_of
      (run_llm_or_chain example_1 (LanguageModel (IsBaseLLM echo_llm)) 2 None
         (Some [0]) two_handlers_cold).2 1
    = example_id_of two_handlers_cold 1.
Proof.
  split; [intros σ tracer; apply echo_leaves_handlers|].
  split; [intros σ tracer; apply echo_leaves_handlers|].
  apply (loop_leaves_all_handlers example_1 (LanguageModel (IsBaseLLM echo_llm)) 2
           None (Some [0]) two_handlers_cold);
    intros σ tracer; apply echo_leaves_handlers.
Defined.

Lemma failing_factory_recorded_witness :
  (∀ σ,
     (broken_factory σ).1
     = Raise (Exn (OtherException "ImportError") "no module named chains"))
  ∧ ∃ σ',
      run_llm_or_chain example_1 (ChainFactory broken_factory) 3 None None
        two_handlers_cold
      = (Ret (replicate 3 (VDict {[ "Error" := VStr "no module named chains" ]})),
         σ').
Proof.
  split; [reflexivity|].
  by destruct (failing_factory_recorded example_1 broken_factory
                 (Exn (OtherException "ImportError") "no module named chains") 3
                 None None two_handlers_cold ltac:(reflexivity)) as [Hsync _].
Defined.

(** The echo model would move the world on with every call. *)
Lemma empty_record_never_calls_model_witness :
  ex_inputs empty_example = ∅
  ∧ (IsBaseLLM echo_llm = IsBaseLLM echo_llm
     ∨ IsBaseLLM echo_llm = IsBaseChatModel echo_chat)
  ∧ ∃ σ',
      run_llm_or_chain empty_example (LanguageModel (IsBaseLLM echo_llm)) 2 None
        (Some [0; 1]) two_handlers_cold
      = (Ret (replicate 2
                (VDict {[ "Error" := VStr "Inputs should not be empty." ]})), σ')
      ∧ world σ' = 0.
Proof.
  split; [reflexivity|]. split; [by left|].
  destruct (empty_record_never_calls_model empty_example echo_llm echo_chat 2
              None (Some [0; 1]) two_handlers_cold (IsBaseLLM echo_llm) eq_refl
              (or_introl eq_refl)) as (_ & (σ' & Hrun & Hworld & _) & _).
  exists σ'. split; [exact Hrun|exact Hworld].
Defined.

End plain_loops.

(** * More about the batch runners *)

Section sequential_facts.
Context {schema : Schema} {platform : Platform} {services : Services}.

Lemma run_examples_app before after task n tags callbacks results σ :
  run_examples (before ++ after) task n tags callbacks results σ
  = (results1 ← run_examples before task n tags callbacks results;
     run_examples after task n tags callbacks results1) σ.
Proof.
  revert results σ. induction before as [|example before IH]; intros results σ;
    [reflexivity|].
  cbn [app run_examples]. unfold mbind, M_bind.
  destruct (run_llm_or_chain example task n tags callbacks σ) as [[outputs|e] σ1];
    [|reflexivity].
  rewrite IH. reflexivity.
Qed.

Lemma size_list_to_set_le (l : list string) :
  (size (list_to_set (C := gset string) l) ≤ length l)%nat.
Proof.
  induction l as [|x l IH]; [done|].
  rewrite list_to_set_cons, size_union_alt, size_singleton. cbn [length].
  pose proof (subseteq_size (list_to_set l ∖ {[x]}) (list_to_set (C := gset string) l)
                ltac:(set_solver)). lia.
Qed.

(** X12. The sequential loop takes the examples in their order, each one
    starting in the state in which the one before it stopped.  The
    entry under a key is the output list of the last example with that
    key, so that the results have the keys of the examples and at most
    as many entries as there are examples, fewer when identifiers
    repeat. *)
Theorem examples_run_in_order before example after task (n : Z)
    tags callbacks σ :
  ∃ results1 σ1 outputs σ2 results σ',
    run_examples before task n tags callbacks ∅ σ = (Ret results1, σ1)
    ∧ run_llm_or_chain example task n tags callbacks σ1 = (Ret outputs, σ2)
    ∧ run_examples after task n tags callbacks
        (<[result_key example := outputs]> results1) σ2 = (Ret results, σ')
    ∧ run_examples (before ++ example :: after) task n tags callbacks ∅ σ
      = (Ret results, σ')
    ∧ (result_key example ∉ result_key <$> after →
       results !! result_key example = Some outputs)
    ∧ dom results = list_to_set (result_key <$> before ++ example :: after)
    ∧ (size results ≤ length (before ++ example :: after))%nat.
Proof.
  destruct (run_examples_run before task n tags callbacks ∅ σ)
    as (results1 & σ1 & Hbefore & _).
  destruct (run_llm_or_chain_returns example task n tags callbacks σ1)
    as (outputs & σ2 & Hexample & _).
  destruct (run_examples_run after task n tags callbacks
              (<[result_key example := outputs]> results1) σ2)
    as (results & σ' & Hafter & _ & Hkept & _).
  assert (run_examples (before ++ example :: after) task n tags callbacks ∅ σ
          = (Ret results, σ')) as Hall.
  { rewrite run_examples_app. erewrite bind_ret by exact Hbefore.
    cbn [run_examples]. by erewrite bind_ret by exact Hexample. }
  destruct (run_examples_run (before ++ example :: after) task n tags callbacks ∅ σ)
    as (results' & σ'' & Hall' & Hdom & _).
  rewrite Hall in Hall'. injection Hall' as <- <-.
  rewrite dom_empty_L, (left_id_L ∅ (∪)) in Hdom.
  exists results1, σ1, outputs, σ2, results, σ'. split_and!; try done.
  - intros Hlast. rewrite Hkept by done. apply lookup_insert_eq.
  - rewrite <- size_dom, Hdom. etrans; [apply size_list_to_set_le|].
    by rewrite length_fmap.
Qed.

(** X13. When the trace storage refuses the session, neither runner
    runs an example: [run_on_examples] raises the exception of
    [create_session] in the state that call left, and so does the setup
    of [arun_on_examples], which therefore returns under no schedule. *)
Theorem session_failure_aborts_run examples task (n concurrency_level : Z)
    session_name client tags run_evaluators σ name σ1 client_ σ2 e σ3 :
  _get_session_name session_name task None σ = (Ret name, σ1) →
  client_or_new client σ1 = (Ret client_, σ2) →
  create_session client_ name σ2 = (Raise e, σ3) →
  run_on_examples examples task n session_name client tags run_evaluators σ
  = (Raise e, σ3)
  ∧ arun_setup task concurrency_level session_name client run_evaluators σ
    = (Raise e, σ3)
  ∧ ∀ results σ',
      ¬ arun_on_examples examples task concurrency_level n session_name client
          tags run_evaluators σ results σ'.
Proof.
  intros Hname Hclient Hsession.
  assert (arun_setup task concurrency_level session_name client run_evaluators σ
          = (Raise e, σ3)) as Hsetup.
  { unfold arun_setup. erewrite bind_ret by exact Hname.
    erewrite bind_ret by exact Hclient. by erewrite bind_raise by exact Hsession. }
  split_and!.
  - unfold run_on_examples. erewrite bind_ret by exact Hname.
    erewrite bind_ret by exact Hclient. by erewrite bind_raise by exact Hsession.
  - exact Hsetup.
  - intros results σ' (evaluation_handler & queue & σ0 & g & σ4 & Hsetup' & _).
    congruence.
Qed.

(** X14. [_get_session_name] returns a given name as it is, the empty
    one too, without reading the clock or touching the task.  Without a
    name it reads the clock first; for a language model the name is the
    class name and the time joined by a dash, after the dataset name and
    a dash if a dataset name that is not empty is given; for a chain
    constructor it constructs a chain for its class name alone, and
    raises what the constructor raises. *)
Theorem session_name_default task dataset_name σ :
  (∀ name, _get_session_name (Some name) task dataset_name σ = (Ret name, σ))
  ∧ (∀ llm time σ1,
       task = LanguageModel llm →
       strftime_now σ = (Ret time, σ1) →
       _get_session_name None task dataset_name σ
       = (Ret (match dataset_name with
               | Some (String _ _ as dataset_name) => dataset_name +:+ "-"
               | _ => ""
               end +:+ cls_name (class_of llm) +:+ "-" +:+ time), σ1))
  ∧ (∀ factory time σ1 chain σ2,
       task = ChainFactory factory →
       strftime_now σ = (Ret time, σ1) →
       factory σ1 = (Ret chain, σ2) →
       _get_session_name None task dataset_name σ
       = (Ret (match dataset_name with
               | Some (String _ _ as dataset_name) => dataset_name +:+ "-"
               | _ => ""
               end +:+ cls_name (chain_class chain) +:+ "-" +:+ time), σ2))
  ∧ (∀ factory time σ1 e σ2,
       task = ChainFactory factory →
       strftime_now σ = (Ret time, σ1) →
       factory σ1 = (Raise e, σ2) →
       _get_session_name None task dataset_name σ = (Raise e, σ2)).
Proof.
  split_and!.
  - done.
  - intros llm time σ1 -> Hclock. unfold _get_session_name.
    by erewrite bind_ret by exact Hclock.
  - intros factory time σ1 chain σ2 -> Hclock Hfactory. unfold _get_session_name.
    erewrite bind_ret by exact Hclock.
    erewrite bind_ret; [done|]. by erewrite bind_ret by exact Hfactory.
  - intros factory time σ1 e σ2 -> Hclock Hfactory. unfold _get_session_name.
    erewrite bind_ret by exact Hclock.
    erewrite bind_raise; [done|]. by erewrite bind_raise by exact Hfactory.
Qed.

End sequential_facts.

Section dataset_facts.
Context {schema : Schema} {platform : Platform} {services : Services}
  {source : DatasetSource}.

(** X15. What [run_on_dataset] returns is the session name it derived
    (the given one, if one was given) and the results of
    [run_on_examples] on the examples that the source lists for the
    dataset of that name, run under that session name and with the same
    client; when the identifiers of these examples are distinct, the
    results hold exactly one full entry for each of them. *)
Theorem run_on_dataset_returns dataset_name task (n : Z) session_name client
    tags run_evaluators σ name results σ' :
  run_on_dataset dataset_name task n session_name client tags run_evaluators σ
    = (Ret (name, results), σ') →
  ∃ client_ σ1 σ2 dataset σ3 examples σ4,
    client_or_new client σ = (Ret client_, σ1)
    ∧ _get_session_name session_name task (Some dataset_name) σ1 = (Ret name, σ2)
    ∧ read_dataset client_ dataset_name σ2 = (Ret dataset, σ3)
    ∧ list_examples client_ (uuid_str (dataset_id dataset)) σ3 = (Ret examples, σ4)
    ∧ run_on_examples examples task n (Some name) (Some client_) tags
        run_evaluators σ4 = (Ret results, σ')
    ∧ (∀ given, session_name = Some given → name = given)
    ∧ (Inj (=) (=) uuid_str → NoDup (ex_id <$> examples) →
       complete_results examples n results).
Proof.
  unfold run_on_dataset. intros Hrun.
  apply bind_inv in Hrun as (client_ & σ1 & Hclient & Hrun).
  apply bind_inv in Hrun as (name' & σ2 & Hname & Hrun).
  apply bind_inv in Hrun as (dataset & σ3 & Hread & Hrun).
  apply bind_inv in Hrun as (examples & σ4 & Hlist & Hrun).
  apply bind_inv in Hrun as (results' & σ5 & Hexamples & Hrun).
  injection Hrun as -> -> ->.
  exists client_, σ1, σ2, dataset, σ3, examples, σ4. split_and!; try done.
  - intros given ->. cbn in Hname. by injection Hname as ->.
  - intros Hinj Hnodup.
    apply run_on_examples_inv in Hexamples as (callbacks & σa & σb & Hloop).
    by eapply run_examples_complete.
Qed.

(** X16. A dataset that cannot be read ends the run before a session is
    created and before any example is run: both dataset runners fail
    with the state that [read_dataset] left, the blocking one raising
    its exception.  The session name has been derived by then. *)
Theorem unreadable_dataset_aborts_run dataset_name task (n concurrency_level : Z)
    session_name client tags run_evaluators σ client_ σ1 name σ2 e σ3 :
  client_or_new client σ = (Ret client_, σ1) →
  _get_session_name session_name task (Some dataset_name) σ1 = (Ret name, σ2) →
  read_dataset client_ dataset_name σ2 = (Raise e, σ3) →
  run_on_dataset dataset_name task n session_name client tags run_evaluators σ
  = (Raise e, σ3)
  ∧ ∀ res σ',
      ¬ arun_on_dataset dataset_name task concurrency_level n session_name client
          tags run_evaluators σ res σ'.
Proof.
  intros Hclient Hname Hread. split.
  - unfold run_on_dataset. erewrite bind_ret by exact Hclient.
    erewrite bind_ret by exact Hname. by erewrite bind_raise by exact Hread.
  - intros res σ' (client_' & σ1' & name' & σ2' & dataset & σ3' & examples & σ4
                   & Hclient' & Hname' & Hread' & _).
    rewrite Hclient in Hclient'. injection Hclient' as <- <-.
    rewrite Hname in Hname'. injection Hname' as <- <-.
    congruence.
Qed.

End dataset_facts.

Section plain_batches.
#[local] Existing Instance plain_schema.
#[local] Existing Instance plain_platform.

(** Two examples with one identifier leave one entry, that of the
    second. *)
Lemma repeated_identifier_run :
  (run_examples [example_1; example_1_again]
     (LanguageModel (IsBaseLLM echo_llm)) 1 None None ∅ no_handlers).1
  = Ret {[ "1" := [VObj "LLMResult"
                     {[ "prompts" := str_list ["again"]; "tags" := VNone ]}] ]}.
Proof. vm_compute. reflexivity. Qed.

Lemma session_failure_aborts_run_witness :
  _get_session_name (services := offline_services) (Some "nightly")
    (LanguageModel (IsBaseLLM echo_llm)) None cold_start = (Ret "nightly", cold_start)
  ∧ client_or_new (services := offline_services) None cold_start
    = (Ret (), cold_start)
  ∧ create_session (Services := offline_services) () "nightly" cold_start
    = (Raise (Exn (OtherException "ConnectionError") "no route to host"),
       cold_start)
  ∧ run_on_examples (services := offline_services) [example_1; example_2]
      (LanguageModel (IsBaseLLM echo_llm)) 2 (Some "nightly") None None None
      cold_start
    = (Raise (Exn (OtherException "ConnectionError") "no route to host"),
       cold_start).
Proof.
  split; [reflexivity|]. split; [reflexivity|]. split; [reflexivity|].
  by destruct (session_failure_aborts_run (services := offline_services)
                 [example_1; example_2] (LanguageModel (IsBaseLLM echo_llm)) 2 5
                 (Some "nightly") None None None cold_start "nightly" cold_start
                 () cold_start
                 (Exn (OtherException "ConnectionError") "no route to host")
                 cold_start eq_refl eq_refl eq_refl) as [Hsync _].
Defined.

Lemma run_on_dataset_returns_witness :
  ∃ name results σ',
    run_on_dataset (services := plain_services) (source := plain_source) "faq"
      (LanguageModel (IsBaseLLM echo_llm)) 2 None None None None cold_start
    = (Ret (name, results), σ')
    ∧ ∃ client_ σ1 σ2 dataset σ3 examples σ4,
        client_or_new (services := plain_services) None cold_start
          = (Ret client_, σ1)
        ∧ _get_session_name (services := plain_services) None
            (LanguageModel (IsBaseLLM echo_llm)) (Some "faq") σ1 = (Ret name, σ2)
        ∧ read_dataset (DatasetSource := plain_source) client_ "faq" σ2
          = (Ret dataset, σ3)
        ∧ list_examples (DatasetSource := plain_source) client_
            (uuid_str (dataset_id dataset)) σ3 = (Ret examples, σ4).
Proof.
  destruct (run_on_dataset (services := plain_services) (source := plain_source)
              "faq" (LanguageModel (IsBaseLLM echo_llm)) 2 None None None None
              cold_start) as [[[name results]|e] σ'] eqn:Hrun;
    [|vm_compute in Hrun; discriminate].
  exists name, results, σ'. split; [reflexivity|].
  destruct (run_on_dataset_returns (services := plain_services)
              (source := plain_source) _ _ _ _ _ _ _ _ _ _ _ Hrun)
    as (client_ & σ1 & σ2 & dataset & σ3 & examples & σ4
        & Hclient & Hname & Hread & Hlist & _).
  exists client_, σ1, σ2, dataset, σ3, examples, σ4.
  split; [exact Hclient|]. split; [exact Hname|]. split; [exact Hread|exact Hlist].
Defined.

Lemma unreadable_dataset_aborts_run_witness :
  client_or_new (services := plain_services) None cold_start = (Ret (), cold_start)
  ∧ _get_session_name (services := plain_services) (Some "nightly")
      (LanguageModel (IsBaseLLM echo_llm)) (Some "lost") cold_start
    = (Ret "nightly", cold_start)
  ∧ read_dataset (DatasetSource := plain_source) () "lost" cold_start
    = (Raise (Exn (OtherException "ValueError") "dataset not found"), cold_start)
  ∧ run_on_dataset (services := plain_services) (source := plain_source) "lost"
      (LanguageModel (IsBaseLLM echo_llm)) 2 (Some "nightly") None None None
      cold_start
    = (Raise (Exn (OtherException "ValueError") "dataset not found"), cold_start).
Proof.
  split; [reflexivity|]. split; [reflexivity|]. split; [reflexivity|].
  by destruct (unreadable_dataset_aborts_run (services := plain_services)
                 (source := plain_source) "lost"
                 (LanguageModel (IsBaseLLM echo_llm)) 2 5 (Some "nightly") None
                 None None cold_start () cold_start "nightly" cold_start
                 (Exn (OtherException "ValueError") "dataset not found")
                 cold_start eq_refl eq_refl eq_refl) as [Hsync _].
Defined.

End plain_batches.

(** * More about the concurrent runner *)

Section tracer_facts.
Context {schema : Schema} {platform : Platform} {services : Services}.
Variable llm_or_chain_factory : MODEL_OR_CHAIN_FACTORY.
Variable num_repetitions : Z.
Variable tags : option (list string).
Variable evaluation_handler : nat.

Local Abbreviation step :=
  (step llm_or_chain_factory num_repetitions tags evaluation_handler).










Lemma resume_step i g g' :
  resume llm_or_chain_factory num_repetitions tags evaluation_handler i g
    = Some g' →
  step g g'.
Proof.
  unfold resume. intros Hresume.
  destruct (coroutines g !! i) as [[example c]|] eqn:Hi; [|done].
  destruct c as [| |tracer previous outputs [|todo]| |]; try done.
  - case_bool_decide; [|done]. injection Hresume as <-. by apply step_acquire.
  - destruct (tracer_queue g) as [|tracer queue] eqn:Hq; [done|].
    destruct (bind_example_id _ _ _) as [[previous|e] σ'] eqn:Hbind;
      injection Hresume as <-.
    + by eapply step_get.
    + by eapply step_get_raise.
  - destruct (restore_example_id _ _ _) as [[[]|e] σ'] eqn:Hrestore;
      injection Hresume as <-.
    + by eapply step_return.
    + by eapply step_return_raise.
  - destruct (attempt _ _ _) as [[outputs'|e] σ'] eqn:Hattempt;
      injection Hresume as <-.
    + by eapply step_attempt.
    + by eapply step_attempt_raise.
Qed.

Lemma run_schedule_steps schedule g g' :
  run_schedule llm_or_chain_factory num_repetitions tags evaluation_handler
    schedule g = Some g' →
  nsteps step (length schedule) g g'.
Proof.
  revert g. induction schedule as [|i schedule IH]; intros g Hrun.
  { injection Hrun as <-. constructor. }
  cbn [run_schedule] in Hrun.
  apply bind_Some in Hrun as (g1 & Hresume%resume_step & Hrun%IH).
  by econstructor.
Qed.

Lemma finishes_after_steps first second k g :
  finishes_after llm_or_chain_factory num_repetitions tags evaluation_handler
    first second k g = true →
  ∃ g1 g2 outputs,
    rtc step g g1 ∧ rtc step g1 g2 ∧ results g1 !! k = Some outputs
    ∧ forallb is_finished (coroutines g2) = true.
Proof.
  unfold finishes_after. intros Hcheck.
  destruct (run_schedule _ _ _ _ first g) as [g1|] eqn:Hfirst; [|done].
  destruct (run_schedule _ _ _ _ second g1) as [g2|] eqn:Hsecond; [|done].
  apply andb_prop in Hcheck as [[outputs Hone]%bool_decide_eq_true_1 Hall].
  exists g1, g2, outputs.
  split; [by eapply rtc_nsteps_2, run_schedule_steps|].
  split; [by eapply rtc_nsteps_2, run_schedule_steps|]. done.
Qed.


(** With no admission free and no coroutine past the semaphore nothing
    can run. *)
Lemma no_admission_no_step queue examples σ g :
  ¬ step (gather_start 0 queue examples σ) g.
Proof.
  unfold gather_start. inversion 1 as
    [ g0 i example Hi Hpos | g0 i example tracer queue' previous σ' Hi
    | g0 i example tracer previous outputs todo outputs' σ' Hi
    | g0 i example tracer previous outputs σ' Hi
    | g0 i example tracer queue' e σ' Hi
    | g0 i example tracer previous outputs todo e σ' Hi
    | g0 i example tracer previous outputs e σ' Hi ]; subst; cbn in *;
    try lia;
    apply list_lookup_fmap_Some in Hi as (? & ? & ?); congruence.
Qed.

Lemma steps_left_pending (examples : list Example) :
  sum_list_with (steps_left num_repetitions)
    ((λ example, (example, Pending)) <$> examples)
  = (length examples * (Z.to_nat num_repetitions + 3))%nat.
Proof. induction examples as [|e l IH]; [done|]. cbn. rewrite IH. cbn. lia. Qed.

Lemma nsteps_steps_left k g g' :
  nsteps step k g g' →
  (k + gather_steps_left num_repetitions g'
   ≤ gather_steps_left num_repetitions g)%nat.
Proof.
  induction 1 as [g|k g g1 g' Hstep _ IH]; [lia|].
  pose proof (step_steps_left _ _ _ _ _ _ Hstep). lia.
Qed.

(** X18. No schedule runs on for ever: from the start of the coroutines
    at most [num_repetitions + 3] steps are taken for each example. *)
Theorem gather_steps_bounded (concurrency_level : Z) queue examples σ k g :
  nsteps step k (gather_start concurrency_level queue examples σ) g →
  (k ≤ length examples * (Z.to_nat num_repetitions + 3))%nat.
Proof.
  intros Hsteps%nsteps_steps_left.
  unfold gather_steps_left at 2 in Hsteps. cbn [gather_start coroutines] in Hsteps.
  rewrite steps_left_pending in Hsteps. lia.
Qed.

Lemma finished_keys_lookup cs k :
  k ∈ finished_keys cs →
  ∃ j example, cs !! j = Some (example, Finished) ∧ result_key example = k.
Proof.
  unfold finished_keys. rewrite elem_of_list_to_set.
  intros ([example c] & -> & [Hc Hin]%list_elem_of_filter)%list_elem_of_fmap.
  apply list_elem_of_lookup in Hin as [j Hj].
  destruct c; try discriminate. by exists j, example.
Qed.

Lemma step_keeps_results n examples g g' k outputs :
  Inj (=) (=) uuid_str → NoDup (ex_id <$> examples) →
  gather_inv n num_repetitions examples g →
  step g g' →
  results g !! k = Some outputs → results g' !! k = Some outputs.
Proof.
  intros Hinj Hnodup Hinv Hstep Hk.
  destruct Hstep as
    [ g i example Hi Hpos
    | g i example tracer queue previous σ' Hi Hq Hbind
    | g i example tracer previous outputs0 todo outputs' σ' Hi Hattempt
    | g i example tracer previous outputs0 σ' Hi Hrestore
    | g i example tracer queue e σ' Hi Hq Hbind
    | g i example tracer previous outputs0 todo e σ' Hi Hattempt
    | g i example tracer previous outputs0 e σ' Hi Hrestore ];
    cbn [results]; try done.
  rewrite lookup_insert_ne; [done|]. intros <-.
  assert (result_key example ∈ finished_keys (coroutines g)) as Hfinished.
  { rewrite <- (inv_results _ _ _ _ Hinv). apply elem_of_dom. eauto. }
  apply finished_keys_lookup in Hfinished as (j & example' & Hj & Hkey).
  apply Hinj in Hkey.
  assert ((ex_id <$> examples) !! j = Some (ex_id example')) as Hidj.
  { rewrite <- (inv_examples _ _ _ _ Hinv), <- list_fmap_compose, list_lookup_fmap.
    by rewrite Hj. }
  assert ((ex_id <$> examples) !! i = Some (ex_id example)) as Hidi.
  { rewrite <- (inv_examples _ _ _ _ Hinv), <- list_fmap_compose, list_lookup_fmap.
    by rewrite Hi. }
  rewrite Hkey in Hidj.
  pose proof (NoDup_lookup _ _ _ _ Hnodup Hidj Hidi) as ->. congruence.
Qed.

(** X19. With distinct identifiers the results of a concurrent run are
    written once: an entry that a coroutine has stored stays as it is
    through all later steps of all coroutines. *)
Theorem concurrent_results_written_once (concurrency_level : Z) queue examples
    σ g g' k outputs :
  Inj (=) (=) uuid_str →
  NoDup (ex_id <$> examples) →
  length queue = Z.to_nat concurrency_level →
  rtc step (gather_start concurrency_level queue examples σ) g →
  rtc step g g' →
  results g !! k = Some outputs →
  results g' !! k = Some outputs.
Proof.
  intros Hinj Hnodup Hqueue Hstart Hrtc.
  pose proof (gather_start_inv num_repetitions concurrency_level queue
                examples σ Hqueue) as Hinv.
  eapply rtc_step_inv in Hinv; [|exact Hstart]. clear Hstart.
  induction Hrtc as [g|g g1 g' Hstep _ IH]; [done|]. intros Hk.
  apply IH; [by eapply step_inv|]. by eapply step_keeps_results.
Qed.

End tracer_facts.

Section admission_facts.
Context {schema : Schema} {platform : Platform} {services : Services}.
Variable llm_or_chain_factory : MODEL_OR_CHAIN_FACTORY.
Variable num_repetitions : Z.
Variable tags : option (list string).

(** X20. A concurrency level below 1 lets no concurrent run return.
    Below 0 the semaphore cannot be made, and the setup of the gather
    raises [ValueError]; at 0 no coroutine ever passes the semaphore, so
    that with an example to run the gather stays where it started,
    whatever the schedule. *)
Theorem nonpositive_concurrency_never_returns examples (concurrency_level : Z)
    session_name client run_evaluators :
  (concurrency_level ≤ 0)%Z →
  examples ≠ [] →
  (∀ σ results σ',
     ¬ arun_on_examples examples llm_or_chain_factory concurrency_level
         num_repetitions session_name client tags run_evaluators σ results σ')
  ∧ (∀ initializer σ,
       (concurrency_level < 0)%Z →
       gather_setup concurrency_level initializer σ
       = (Raise (Exn ValueError "Semaphore initial value must be >= 0"), σ))
  ∧ (∀ evaluation_handler queue σ g,
       concurrency_level = 0%Z →
       rtc (step llm_or_chain_factory num_repetitions tags evaluation_handler)
         (gather_start concurrency_level queue examples σ) g →
       g = gather_start concurrency_level queue examples σ).
Proof.
  intros Hlevel Hexamples.
  assert (∀ evaluation_handler queue σ g,
            concurrency_level = 0%Z →
            rtc (step llm_or_chain_factory num_repetitions tags
                   evaluation_handler)
              (gather_start concurrency_level queue examples σ) g →
            g = gather_start concurrency_level queue examples σ) as Hstuck.
  { intros evaluation_handler queue σ g -> Hrtc.
    apply rtc_inv in Hrtc as [<-|(g1 & Hstep & _)]; [done|].
    by apply no_admission_no_step in Hstep. }
  split_and!.
  - intros σ results σ' (handler & queue & σ0 & g & σ1
                         & Hsetup & Hrtc & Hall & _).
    apply arun_setup_queue in Hsetup as [Hnonneg _].
    assert (concurrency_level = 0%Z) as Hzero by lia.
    apply Hstuck in Hrtc; [|done]. subst g.
    destruct examples; [done|]. discriminate.
  - intros initializer σ Hneg. unfold gather_setup.
    by rewrite bool_decide_eq_true_2.
  - exact Hstuck.
Qed.

End admission_facts.

Section tracerless_facts.
Context {schema : Schema} {platform : Platform} {services : Services}.

Lemma for_range_no_tracer k queue σ :
  for_range k (λ queue, tracer ← (mret None : M (option nat));
                        mret (queue ++ [tracer])) queue σ
  = (Ret (queue ++ replicate k None), σ).
Proof.
  revert queue. induction k as [|k IH]; intros queue.
  { cbn. by rewrite app_nil_r. }
  change (replicate (S k) (@None nat)) with ([@None nat] ++ replicate k None).
  rewrite app_assoc. exact (IH (queue ++ [None])).
Qed.

Lemma gather_drain_no_tracer k σ :
  gather_drain (replicate k None) σ = (Ret (), σ).
Proof. induction k as [|k IH]; [done|]. cbn. exact IH. Qed.

(** X21. An empty session name, which [_get_session_name] hands on as
    it is, switches tracing off for a concurrent run: the initializer
    makes no tracer, so the queue holds [concurrency_level] times
    [None] and the state is untouched; each coroutine gets the
    evaluation handler as its only callback; and the drain at the end
    does nothing. *)
Theorem empty_session_name_no_tracers task (concurrency_level : Z)
    evaluation_handler σ :
  (0 ≤ concurrency_level)%Z →
  _get_session_name (Some "") task None σ = (Ret "", σ)
  ∧ gather_setup concurrency_level (_tracer_initializer (Some "")) σ
    = (Ret (replicate (Z.to_nat concurrency_level) None), σ)
  ∧ gather_setup concurrency_level (_tracer_initializer None) σ
    = (Ret (replicate (Z.to_nat concurrency_level) None), σ)
  ∧ process_callbacks None evaluation_handler = Some [evaluation_handler]
  ∧ gather_drain (replicate (Z.to_nat concurrency_level) None) σ = (Ret (), σ).
Proof.
  intros Hlevel. split_and!.
  - done.
  - unfold gather_setup. rewrite bool_decide_eq_false_2 by lia.
    exact (for_range_no_tracer _ [] σ).
  - unfold gather_setup. rewrite bool_decide_eq_false_2 by lia.
    exact (for_range_no_tracer _ [] σ).
  - done.
  - apply gather_drain_no_tracer.
Qed.

End tracerless_facts.

Section plain_gathers.
#[local] Existing Instance plain_schema.
#[local] Existing Instance plain_platform.
#[local] Existing Instance plain_services.

(** A schedule at level 2 that runs example 1 to its end and then
    example 2, each with one repetition. *)
Lemma one_after_the_other :
  ∃ g g' outputs,
    rtc (step (LanguageModel (IsBaseLLM echo_llm)) 1 None 0)
      (gather_start 2 [Some 1; Some 2] [example_1; example_2] three_handlers) g
    ∧ rtc (step (LanguageModel (IsBaseLLM echo_llm)) 1 None 0) g g'
    ∧ results g !! "1" = Some outputs
    ∧ forallb is_finished (coroutines g') = true.
Proof.
  apply (finishes_after_steps _ _ _ _ [0; 0; 0; 0] [1; 1; 1; 1]).
  vm_compute. reflexivity.
Qed.


Lemma nonpositive_concurrency_never_returns_witness :
  (0 ≤ 0)%Z
  ∧ [example_1] ≠ []
  ∧ ∀ σ results σ',
      ¬ arun_on_examples [example_1] (LanguageModel (IsBaseLLM echo_llm)) 0 1
          (Some "session") None None None σ results σ'.
Proof.
  split; [lia|]. split; [discriminate|].
  destruct (nonpositive_concurrency_never_returns
              (LanguageModel (IsBaseLLM echo_llm)) 1 None [example_1] 0
              (Some "session") None None) as [Hnever _];
    [lia|discriminate|exact Hnever].
Defined.

Lemma gather_steps_bounded_witness :
  ∃ g,
    nsteps (step (LanguageModel (IsBaseLLM echo_llm)) 1 None 0) 1
      (gather_start 2 [Some 1; Some 2] [example_1; example_2] three_handlers) g
    ∧ (1 ≤ 2 * (Z.to_nat 1 + 3))%nat.
Proof.
  eexists. split.
  - apply nsteps_once.
    eapply (step_acquire _ _ _ _ _ 0 example_1); [reflexivity|cbn; lia].
  - eapply (gather_steps_bounded (LanguageModel (IsBaseLLM echo_llm)) 1 None 0 2
              [Some 1; Some 2] [example_1; example_2] three_handlers 1).
    apply nsteps_once.
    eapply (step_acquire _ _ _ _ _ 0 example_1); [reflexivity|cbn; lia].
Defined.

Lemma concurrent_results_written_once_witness :
  Inj (=) (=) (uuid_str (Platform := plain_platform))
  ∧ NoDup (ex_id <$> [example_1; example_2])
  ∧ ∃ g g' outputs,
      rtc (step (LanguageModel (IsBaseLLM echo_llm)) 1 None 0)
        (gather_start 2 [Some 1; Some 2] [example_1; example_2] three_handlers) g
      ∧ rtc (step (LanguageModel (IsBaseLLM echo_llm)) 1 None 0) g g'
      ∧ results g !! "1" = Some outputs
      ∧ results g' !! "1" = Some outputs.
Proof.
  split; [apply pretty_N_inj|]. split; [apply two_examples_distinct|].
  destruct one_after_the_other
    as (g & g' & outputs & Hfirst & Hsecond & Hone & _).
  exists g, g', outputs. split; [exact Hfirst|]. split; [exact Hsecond|].
  split; [exact Hone|].
  exact (concurrent_results_written_once (LanguageModel (IsBaseLLM echo_llm)) 1
           None 0 2 [Some 1; Some 2] [example_1; example_2] three_handlers g g'
           "1" outputs pretty_N_inj two_examples_distinct eq_refl Hfirst Hsecond
           Hone).
Defined.

Lemma empty_session_name_no_tracers_witness :
  (0 ≤ 2)%Z
  ∧ gather_setup 2 (_tracer_initializer (Some "")) cold_start
    = (Ret [None; None], cold_start).
Proof.
  split; [lia|].
  destruct (empty_session_name_no_tracers (LanguageModel (IsBaseLLM echo_llm)) 2
              0 cold_start) as (_ & Hsetup & _); [lia|exact Hsetup].
Defined.

End plain_gathers.

(** * The two runners side by side *)

Section answer_facts.
Context {schema : Schema} {platform : Platform} {services : Services}.
Variable llm_or_chain_factory : MODEL_OR_CHAIN_FACTORY.
Variable num_repetitions : Z.
Variable tags : option (list string).
Variable answer : Example → value.

Lemma same_key_same_example examples example example' :
  Inj (=) (=) uuid_str → NoDup (ex_id <$> examples) →
  example ∈ examples → example' ∈ examples →
  result_key example = result_key example' →
  example = example'.
Proof.
  intros Hinj Hnodup [i Hi]%list_elem_of_lookup [j Hj]%list_elem_of_lookup
    Hkey%Hinj.
  assert ((ex_id <$> examples) !! i = Some (ex_id example)) as Hidi
    by by rewrite list_lookup_fmap, Hi.
  assert ((ex_id <$> examples) !! j = Some (ex_id example')) as Hidj
    by by rewrite list_lookup_fmap, Hj.
  rewrite <- Hkey in Hidj.
  pose proof (NoDup_lookup _ _ _ _ Hnodup Hidi Hidj) as ->. congruence.
Qed.

(** The blocking loop on a task with a fixed answer. *)
Lemma loop_answers example callbacks σ outputs σ' :
  (∀ σ, entry_of (invoke example llm_or_chain_factory tags callbacks σ).1
        = answer example) →
  run_llm_or_chain example llm_or_chain_factory num_repetitions tags callbacks σ
    = (Ret outputs, σ') →
  outputs = replicate (Z.to_nat num_repetitions) (answer example).
Proof.
  intros Hanswer. unfold run_llm_or_chain. rewrite repetition_loop_run. cbn zeta.
  intros [= <- _].
  rewrite (const_fmap _ (seq 0 (Z.to_nat num_repetitions)) (answer example))
    by (intros _ i _; apply Hanswer).
  by rewrite length_seq.
Qed.

Lemma run_examples_answers examples callbacks σ results σ' :
  Inj (=) (=) uuid_str → NoDup (ex_id <$> examples) →
  (∀ example σ,
     example ∈ examples →
     entry_of (invoke example llm_or_chain_factory tags callbacks σ).1
     = answer example) →
  run_examples examples llm_or_chain_factory num_repetitions tags callbacks ∅ σ
    = (Ret results, σ') →
  dom results = list_to_set (result_key <$> examples)
  ∧ ∀ example,
      example ∈ examples →
      results !! result_key example
      = Some (replicate (Z.to_nat num_repetitions) (answer example)).
Proof.
  intros Hinj Hnodup Hanswer Hrun.
  destruct (run_examples_run examples llm_or_chain_factory num_repetitions tags
              callbacks ∅ σ) as (results' & σ'' & Hrun' & Hdom & _ & Hnew).
  rewrite Hrun in Hrun'. injection Hrun' as <- <-.
  rewrite dom_empty_L, (left_id_L ∅ (∪)) in Hdom. split; [exact Hdom|].
  intros example Hin.
  destruct (Hnew (result_key example)) as
    (example' & σ1 & outputs & σ2 & Hin' & Hkey & Hloop & Hk).
  { apply list_elem_of_fmap. by exists example. }
  assert (example' = example) as ->
    by by eapply same_key_same_example.
  rewrite Hk. f_equal. eapply loop_answers; [|exact Hloop].
  intros σ0. by apply Hanswer.
Qed.

Section answer_steps.
Variable evaluation_handler : nat.

Local Abbreviation step :=
  (step llm_or_chain_factory num_repetitions tags evaluation_handler).

Lemma gather_start_answers_inv n queue examples σ :
  gather_answers_inv answer num_repetitions examples
    (gather_start n queue examples σ).
Proof.
  unfold gather_start. split; cbn [coroutines results].
  - intros i example tracer previous outputs todo Hi.
    apply list_lookup_fmap_Some in Hi as (? & ? & ?). congruence.
  - intros k outputs Hk. by rewrite lookup_empty in Hk.
Qed.

Lemma step_answers_inv n examples g g' :
  (∀ example callbacks σ,
     example ∈ examples →
     entry_of (ainvoke example llm_or_chain_factory tags callbacks σ).1
     = answer example) →
  step g g' →
  gather_inv n num_repetitions examples g →
  gather_answers_inv answer num_repetitions examples g →
  gather_answers_inv answer num_repetitions examples g'.
Proof.
  intros Hanswer Hstep Hinv [Hgathered Hstored].
  assert (∀ i example c,
            coroutines g !! i = Some (example, c) → example ∈ examples) as Hmember.
  { intros i example c Hi. rewrite <- (inv_examples _ _ _ _ Hinv).
    apply list_elem_of_fmap. exists (example, c).
    split; [done|]. by eapply list_elem_of_lookup_2. }
  destruct Hstep as
    [ g i example Hi Hpos
    | g i example tracer queue previous σ' Hi Hq Hbind
    | g i example tracer previous outputs todo outputs' σ' Hi Hattempt
    | g i example tracer previous outputs σ' Hi Hrestore
    | g i example tracer queue e σ' Hi Hq Hbind
    | g i example tracer previous outputs todo e σ' Hi Hattempt
    | g i example tracer previous outputs e σ' Hi Hrestore ];
    try (by apply step_no_get_raise in Hbind);
    try (by apply step_no_attempt_raise in Hattempt);
    try (by apply step_no_return_raise in Hrestore);
    split; cbn [coroutines results]; try exact Hstored.
  - intros j ex t p o k [(_ & ? & _)|[_ Hj]]%list_lookup_insert_Some;
      [done|by eapply Hgathered].
  - intros j ex t p o k [(_ & Heq & _)|[_ Hj]]%list_lookup_insert_Some;
      [|by eapply Hgathered].
    by injection Heq as <- <- <- <- <-.
  - intros j ex t p o k [(_ & Heq & _)|[_ Hj]]%list_lookup_insert_Some;
      [|by eapply Hgathered].
    injection Heq as <- <- <- <- <-.
    rewrite attempt_entry in Hattempt. injection Hattempt as <- _.
    rewrite Hanswer by by eapply Hmember.
    rewrite length_app, replicate_add. cbn [length replicate].
    f_equal. by eapply Hgathered.
  - intros j ex t p o k [(_ & ? & _)|[_ Hj]]%list_lookup_insert_Some;
      [done|by eapply Hgathered].
  - intros k outs [[<- <-]|[_ Hk]]%lookup_insert_Some; [|by eapply Hstored].
    exists example. split; [by eapply Hmember|]. split; [done|].
    pose proof (inv_outputs _ _ _ _ Hinv _ _ _ _ _ _ Hi) as Hlen.
    rewrite (Hgathered _ _ _ _ _ _ Hi) at 1. f_equal. lia.
Qed.

Lemma rtc_step_answers_inv n examples g g' :
  (∀ example callbacks σ,
     example ∈ examples →
     entry_of (ainvoke example llm_or_chain_factory tags callbacks σ).1
     = answer example) →
  rtc step g g' →
  gather_inv n num_repetitions examples g →
  gather_answers_inv answer num_repetitions examples g →
  gather_answers_inv answer num_repetitions examples g'.
Proof.
  intros Hanswer. induction 1 as [g|g g1 g' Hstep _ IH]; [done|].
  intros Hinv Hanswers. apply IH; [by eapply step_inv|by eapply step_answers_inv].
Qed.

Lemma gather_answers (concurrency_level : Z) queue examples σ g :
  Inj (=) (=) uuid_str → NoDup (ex_id <$> examples) →
  (∀ example callbacks σ,
     example ∈ examples →
     entry_of (ainvoke example llm_or_chain_factory tags callbacks σ).1
     = answer example) →
  length queue = Z.to_nat concurrency_level →
  rtc step (gather_start concurrency_level queue examples σ) g →
  forallb is_finished (coroutines g) = true →
  dom (results g) = list_to_set (result_key <$> examples)
  ∧ ∀ example,
      example ∈ examples →
      results g !! result_key example
      = Some (replicate (Z.to_nat num_repetitions) (answer example)).
Proof.
  intros Hinj Hnodup Hanswer Hqueue Hrtc Hall.
  pose proof (gather_start_inv num_repetitions concurrency_level queue
                examples σ Hqueue) as Hinv.
  pose proof (rtc_step_answers_inv _ _ _ _ Hanswer Hrtc Hinv
                (gather_start_answers_inv _ _ _ _)) as [_ Hstored].
  eapply rtc_step_inv in Hinv; [|exact Hrtc].
  pose proof (gather_results _ _ _ _ Hinv Hall) as Hdom.
  split; [exact Hdom|]. intros example Hin.
  assert (result_key example ∈ dom (results g)) as [outputs Hk]%elem_of_dom.
  { rewrite Hdom, elem_of_list_to_set. apply list_elem_of_fmap. by exists example. }
  destruct (Hstored _ _ Hk) as (example' & Hin' & Hkey & ->).
  assert (example' = example) as -> by by eapply same_key_same_example.
  exact Hk.
Qed.

End answer_steps.

(** X22. For a task whose entry for each example does not depend on
    the state in which it is called nor on the handlers it is called
    with, the same from its blocking and from its suspendable call, and
    for examples with distinct identifiers: whatever the schedule and
    the concurrency level, the concurrent runner returns the very
    results of the sequential runner, which hold under the key of each
    example [num_repetitions] copies of its entry. *)
Theorem concurrent_agrees_with_sequential examples (concurrency_level : Z)
    session_name client run_evaluators session_name' client' run_evaluators'
    σ results_s σ' σa results_a σa' :
  Inj (=) (=) uuid_str →
  NoDup (ex_id <$> examples) →
  (∀ example callbacks σ,
     example ∈ examples →
     entry_of (invoke example llm_or_chain_factory tags callbacks σ).1
     = answer example) →
  (∀ example callbacks σ,
     example ∈ examples →
     entry_of (ainvoke example llm_or_chain_factory tags callbacks σ).1
     = answer example) →
  run_on_examples examples llm_or_chain_factory num_repetitions session_name
    client tags run_evaluators σ = (Ret results_s, σ') →
  arun_on_examples examples llm_or_chain_factory concurrency_level
    num_repetitions session_name' client' tags run_evaluators' σa results_a σa' →
  results_a = results_s
  ∧ ∀ example,
      example ∈ examples →
      results_s !! result_key example
      = Some (replicate (Z.to_nat num_repetitions) (answer example)).
Proof.
  intros Hinj Hnodup Hinvoke Hainvoke Hrun Harun.
  apply run_on_examples_inv in Hrun as (callbacks & σ1 & σ2 & Hrun).
  apply run_examples_answers in Hrun as [Hdom Hentries]; [|done|done|].
  2:{ intros example σ0 Hin. by apply Hinvoke. }
  destruct Harun as (handler & queue & σ0 & g & σ3
                     & Hsetup & Hrtc & Hall & _ & _ & ->).
  apply arun_setup_queue in Hsetup as [_ Hqueue].
  destruct (gather_answers handler concurrency_level queue examples σ0 g
              Hinj Hnodup Hainvoke Hqueue Hrtc Hall) as [Hdom_a Hentries_a].
  split; [|exact Hentries].
  apply map_eq. intros k.
  destruct (decide (k ∈ result_key <$> examples)) as [Hk|Hk].
  - apply list_elem_of_fmap in Hk as (example & -> & Hin).
    by rewrite Hentries, Hentries_a.
  - rewrite (proj1 (not_elem_of_dom (results g) k)),
      (proj1 (not_elem_of_dom results_s k)); [done| |].
    + by rewrite Hdom, elem_of_list_to_set.
    + by rewrite Hdom_a, elem_of_list_to_set.
Qed.

End answer_facts.

Section plain_answers.
#[local] Existing Instance plain_schema.
#[local] Existing Instance plain_platform.
#[local] Existing Instance plain_services.

(** Nothing is left to wait for in the small platform. *)
Lemma plain_drain queue σ : gather_drain queue σ = (Ret (), σ).
Proof. induction queue as [|[tracer|] queue IH]; [done|exact IH|exact IH]. Qed.

Lemma steady_answers example callbacks σ :
  example ∈ [example_1; example_2] →
  entry_of (invoke example (LanguageModel (IsBaseLLM steady_llm)) None callbacks
              σ).1
  = entry_of (invoke example (LanguageModel (IsBaseLLM steady_llm)) None None
                cold_start).1
  ∧ entry_of (ainvoke example (LanguageModel (IsBaseLLM steady_llm)) None
                callbacks σ).1
    = entry_of (invoke example (LanguageModel (IsBaseLLM steady_llm)) None None
                  cold_start).1.
Proof.
  intros [->|[->|[]%elem_of_nil]%elem_of_cons]%elem_of_cons;
    split; vm_compute; reflexivity.
Qed.

Lemma concurrent_agrees_with_sequential_witness :
  ∃ results_s σ' results_a σa',
    run_on_examples [example_1; example_2] (LanguageModel (IsBaseLLM steady_llm))
      2 None None None None cold_start = (Ret results_s, σ')
    ∧ arun_on_examples [example_1; example_2]
        (LanguageModel (IsBaseLLM steady_llm)) 2 2 (Some "session") None None
        None cold_start results_a σa'
    ∧ results_a = results_s.
Proof.
  destruct (run_on_examples [example_1; example_2]
              (LanguageModel (IsBaseLLM steady_llm)) 2 None None None None
              cold_start) as [[results_s|e] σ'] eqn:Hrun;
    [|vm_compute in Hrun; discriminate].
  assert (arun_setup (LanguageModel (IsBaseLLM steady_llm)) 2 (Some "session")
            None None cold_start
          = (Ret (0, [Some 1; Some 2]), three_handlers)) as Hsetup
    by (vm_compute; reflexivity).
  destruct (gather_completes (LanguageModel (IsBaseLLM steady_llm)) 2 None 0 2
              [example_1; example_2]
              (gather_start 2 [Some 1; Some 2] [example_1; example_2]
                 three_handlers)) as (g & Hrtc & Hall);
    [lia|by apply (gather_start_inv 2 2)|].
  assert (arun_on_examples [example_1; example_2]
            (LanguageModel (IsBaseLLM steady_llm)) 2 2 (Some "session") None None
            None cold_start (results g) (global g)) as Harun.
  { exists 0, [Some 1; Some 2], three_handlers, g, (global g).
    split; [exact Hsetup|]. split; [exact Hrtc|]. split; [exact Hall|].
    split; [apply plain_drain|]. split; reflexivity. }
  exists results_s, σ', (results g), (global g).
  split; [reflexivity|]. split; [exact Harun|].
  destruct (concurrent_agrees_with_sequential
              (LanguageModel (IsBaseLLM steady_llm)) 2 None
              (λ example,
                 entry_of (invoke example (LanguageModel (IsBaseLLM steady_llm))
                             None None cold_start).1)
              [example_1; example_2] 2 None None None (Some "session") None None
              cold_start results_s σ' cold_start (results g) (global g)
              pretty_N_inj two_examples_distinct
              (λ example callbacks σ Hin,
                 proj1 (steady_answers example callbacks σ Hin))
              (λ example callbacks σ Hin,
                 proj2 (steady_answers example callbacks σ Hin))
              Hrun Harun) as [Hsame _].
  exact Hsame.
Defined.

End plain_answers.

(** * A language model of an unsupported shape *)

Section unsupported_model_claims.
Context {schema : Schema} {platform : Platform} {services : Services}.

(** A gather over a task whose entry is the same for every example. *)
Lemma gather_constant_entries task (n : Z) tags (entry : value)
    evaluation_handler (concurrency_level : Z) queue examples σ g :
  (∀ example callbacks σ,
     entry_of (ainvoke example task tags callbacks σ).1 = entry) →
  length queue = Z.to_nat concurrency_level →
  rtc (step task n tags evaluation_handler)
    (gather_start concurrency_level queue examples σ) g →
  forallb is_finished (coroutines g) = true →
  ∀ example,
    example ∈ examples →
    results g !! result_key example = Some (replicate (Z.to_nat n) entry).
Proof.
  intros Hentry Hqueue Hrtc Hall example Hin.
  pose proof (gather_start_inv n concurrency_level queue examples σ Hqueue)
    as Hinv.
  assert (gather_answers_inv (λ _, entry) n examples g) as [_ Hstored].
  { eapply rtc_step_answers_inv;
      [|exact Hrtc|exact Hinv|apply gather_start_answers_inv].
    intros example' callbacks σ' _. apply Hentry. }
  eapply rtc_step_inv in Hinv; [|exact Hrtc].
  pose proof (gather_results _ _ _ _ Hinv Hall) as Hdom.
  assert (result_key example ∈ dom (results g)) as [outputs Hk]%elem_of_dom.
  { rewrite Hdom, elem_of_list_to_set. apply list_elem_of_fmap. by exists example. }
  by destruct (Hstored _ _ Hk) as (example' & _ & _ & ->).
Qed.

(** C4, amended. A language model that is neither a [BaseLLM] nor a
    [BaseChatModel] makes both invokers raise [ValueError] with the text
    [Unsupported LLM type ...] at every attempt, before anything else is
    done.  Both repetition loops catch it, and so return [n] copies of
    the dict [{"Error": "Unsupported LLM type ..."}].  Neither batch
    runner raises for it: the loop over the examples returns, the
    concurrent runner has a returning run once its setup has returned,
    and whatever results either runner returns hold these [n] copies
    under the key of every example. *)
Theorem unsupported_model_yields_error_records cls (n : Z) tags :
  (∀ inputs callbacks σ,
     run_llm (OtherLanguageModel cls) inputs callbacks tags σ
     = (Raise (Exn ValueError ("Unsupported LLM type " +:+ type_repr cls)), σ)
     ∧ _arun_llm (OtherLanguageModel cls) inputs tags callbacks σ
       = (Raise (Exn ValueError ("Unsupported LLM type " +:+ type_repr cls)), σ))
  ∧ (∀ example callbacks σ,
       (∃ σ',
          run_llm_or_chain example (LanguageModel (OtherLanguageModel cls)) n
            tags callbacks σ
          = (Ret (replicate (Z.to_nat n)
                    (VDict {[ "Error" :=
                                VStr ("Unsupported LLM type " +:+ type_repr cls) ]})),
             σ'))
       ∧ (∃ σ',
            _arun_llm_or_chain example (LanguageModel (OtherLanguageModel cls)) n
              tags callbacks σ
            = (Ret (replicate (Z.to_nat n)
                      (VDict {[ "Error" :=
                                  VStr ("Unsupported LLM type "
                                        +:+ type_repr cls) ]})),
               σ')))
  ∧ (∀ examples callbacks σ,
       ∃ results σ',
         run_examples examples (LanguageModel (OtherLanguageModel cls)) n tags
           callbacks ∅ σ = (Ret results, σ')
         ∧ ∀ example,
             example ∈ examples →
             results !! result_key example
             = Some (replicate (Z.to_nat n)
                       (VDict {[ "Error" :=
                                   VStr ("Unsupported LLM type "
                                         +:+ type_repr cls) ]})))
  ∧ (∀ examples session_name client run_evaluators σ results_s σ',
       run_on_examples examples (LanguageModel (OtherLanguageModel cls)) n
         session_name client tags run_evaluators σ = (Ret results_s, σ') →
       ∀ example,
         example ∈ examples →
         results_s !! result_key example
         = Some (replicate (Z.to_nat n)
                   (VDict {[ "Error" :=
                               VStr ("Unsupported LLM type " +:+ type_repr cls) ]})))
  ∧ (∀ examples concurrency_level session_name client run_evaluators σ
       results_a σ',
       arun_on_examples examples (LanguageModel (OtherLanguageModel cls))
         concurrency_level n session_name client tags run_evaluators σ
         results_a σ' →
       ∀ example,
         example ∈ examples →
         results_a !! result_key example
         = Some (replicate (Z.to_nat n)
                   (VDict {[ "Error" :=
                               VStr ("Unsupported LLM type " +:+ type_repr cls) ]})))
  ∧ (∀ examples concurrency_level session_name client run_evaluators σ
       evaluation_handler queue σ0,
       (1 ≤ concurrency_level)%Z →
       (∀ handler σ, ∃ σ', wait_for_futures handler σ = (Ret (), σ')) →
       arun_setup (LanguageModel (OtherLanguageModel cls)) concurrency_level
         session_name client run_evaluators σ
         = (Ret (evaluation_handler, queue), σ0) →
       ∃ results_a σ',
         arun_on_examples examples (LanguageModel (OtherLanguageModel cls))
           concurrency_level n session_name client tags run_evaluators σ
           results_a σ').
Proof.
  assert (∀ example callbacks σ, ∃ σ',
            run_llm_or_chain example (LanguageModel (OtherLanguageModel cls)) n
              tags callbacks σ
            = (Ret (replicate (Z.to_nat n)
                      (VDict {[ "Error" :=
                                  VStr ("Unsupported LLM type "
                                        +:+ type_repr cls) ]})), σ')) as Hloop.
  { intros example callbacks σ.
    apply (loop_always_raises example _
             (Exn ValueError ("Unsupported LLM type " +:+ type_repr cls))).
    done. }
  assert (∀ examples callbacks σ results_s σ',
            run_examples examples (LanguageModel (OtherLanguageModel cls)) n tags
              callbacks ∅ σ = (Ret results_s, σ') →
            ∀ example,
              example ∈ examples →
              results_s !! result_key example
              = Some (replicate (Z.to_nat n)
                        (VDict {[ "Error" :=
                                    VStr ("Unsupported LLM type "
                                          +:+ type_repr cls) ]}))) as Hsequential.
  { intros examples callbacks σ results_s σ' Hrun example Hin.
    destruct (run_examples_run examples (LanguageModel (OtherLanguageModel cls))
                n tags callbacks ∅ σ) as (results' & σ'' & Hrun' & _ & _ & Hnew).
    rewrite Hrun in Hrun'. injection Hrun' as <- <-.
    destruct (Hnew (result_key example))
      as (example' & σ1 & outputs & σ2 & _ & _ & Hrun' & ->).
    { apply list_elem_of_fmap. by exists example. }
    destruct (Hloop example' callbacks σ1) as [σ3 Hloop']. congruence. }
  split_and!.
  - done.
  - intros example callbacks σ. split; [apply Hloop|].
    apply (loop_always_raises example _
             (Exn ValueError ("Unsupported LLM type " +:+ type_repr cls))).
    done.
  - intros examples callbacks σ.
    destruct (run_examples_run examples (LanguageModel (OtherLanguageModel cls))
                n tags callbacks ∅ σ) as (results_s & σ' & Hrun & _).
    exists results_s, σ'. split; [exact Hrun|]. by eapply Hsequential.
  - intros examples session_name client run_evaluators σ results_s σ' Hrun.
    apply run_on_examples_inv in Hrun as (callbacks & σ1 & σ2 & Hrun).
    by eapply Hsequential.
  - intros examples concurrency_level session_name client run_evaluators σ
      results_a σ'
      (evaluation_handler & queue & σ0 & g & σ1
       & Hsetup & Hrtc & Hall & _ & _ & ->).
    apply arun_setup_queue in Hsetup as [_ Hqueue]. intros example Hin.
    eapply gather_constant_entries;
      [|exact Hqueue|exact Hrtc|exact Hall|exact Hin].
    done.
  - intros examples concurrency_level session_name client run_evaluators σ
      evaluation_handler queue σ0 Hlevel Hwait Hsetup.
    by eapply arun_on_examples_returns.
Qed.

End unsupported_model_claims.

Section plain_unsupported.
#[local] Existing Instance plain_schema.
#[local] Existing Instance plain_platform.
#[local] Existing Instance plain_services.

(** A concurrent run at level 2 with a model of an unsupported class. *)
Lemma unsupported_model_yields_error_records_witness :
  ∃ results_a σ',
    arun_on_examples [example_1; example_2]
      (LanguageModel (OtherLanguageModel odd_class)) 2 2 (Some "session") None
      None None cold_start results_a σ'
    ∧ results_a !! "1"
      = Some [VDict {[ "Error" :=
                         VStr "Unsupported LLM type <class 'retrieval.Embedder'>" ]};
              VDict {[ "Error" :=
                         VStr "Unsupported LLM type <class 'retrieval.Embedder'>" ]}]
    ∧ results_a !! "2"
      = Some [VDict {[ "Error" :=
                         VStr "Unsupported LLM type <class 'retrieval.Embedder'>" ]};
              VDict {[ "Error" :=
                         VStr "Unsupported LLM type <class 'retrieval.Embedder'>" ]}].
Proof.
  assert (arun_setup (LanguageModel (OtherLanguageModel odd_class)) 2
            (Some "session") None None cold_start
          = (Ret (0, [Some 1; Some 2]), three_handlers)) as Hsetup
    by (vm_compute; reflexivity).
  destruct (unsupported_model_yields_error_records odd_class 2 None)
    as (_ & _ & _ & _ & Hentries & Hreturns).
  destruct (Hreturns [example_1; example_2] 2%Z (Some "session") None None
              cold_start 0 [Some 1; Some 2] three_handlers ltac:(lia)
              plain_wait_returns Hsetup) as (results_a & σ' & Harun).
  exists results_a, σ'. split; [exact Harun|]. split.
  - exact (Hentries _ _ _ _ _ _ _ _ Harun example_1 ltac:(left)).
  - exact (Hentries _ _ _ _ _ _ _ _ Harun example_2 ltac:(right; left)).
Defined.

End plain_unsupported.
